(** * TrakMass: offline store, mutation queue and sync engine

    A shallow embedding of [services/storage.ts] (the in-memory backend,
    that is the [isWeb] branch of every primitive, and in [Native] the
    SQLite branch of the readers whose result differs from it, with the
    writers a sync run and a profile save go through), [services/sync.ts],
    the settings store's [update] and the settings screen's
    [handleSaveReminder], followed by the properties of the design document
    that concern them.
    A second part embeds what surrounds them - the payloads and seeding of
    [services/sync.ts], the mass, profile and settings stores, the handlers
    of the settings, home and profile screens, [services/reminders.ts], the
    reader of the stored state and the background hook of
    [hooks/use-offline-sync.ts] - with properties read off that code.

    Conventions.
    - A JavaScript string is a [string]; each character stands for one code
      unit (the Latin-1 range). Text that the code parses as JSON, and the
      tags it serializes, are sequences of UTF-16 code units ([Wide.text]).
    - An ISO-8601 text produced by [Date.prototype.toISOString] is
      represented by the epoch-millisecond value that
      [new Date(text).getTime()] recovers from it ([timestamp]).
    - A JavaScript [number] is a finite rational, [NaN] or an infinity; the
      development only classifies and compares numbers.
    - The host (clock, identifier generator, remote server) is a record of
      oracles; the remote's reply may depend on every request sent so far.
    - The storage medium accepts every write: the primitives themselves
      contain no [throw]. *)

From Stdlib Require Import List String Ascii Bool Arith ZArith QArith Lia.
From Stdlib Require Import Sorted Permutation DecimalString.
From Stdlib Require Import Qround.
Import ListNotations.
Set Warnings "-register-all".
Local Open Scope string_scope.
Local Open Scope list_scope.
Local Open Scope nat_scope.

(* ===================================================================== *)
(** ** JavaScript built-ins used by the sources *)
(* ===================================================================== *)

Module JS.

(** [number]: IEEE doubles seen as extended rationals. *)
Inductive number : Type :=
| Finite (q : Q)
| NaN
| PosInfinity
| NegInfinity.

Definition Number_isFinite (n : number) : bool :=
  match n with Finite _ => true | _ => false end.

Definition Number_isNaN (n : number) : bool :=
  match n with NaN => true | _ => false end.

Definition Qltb (x y : Q) : bool := negb (Qle_bool y x).

(** [a < b] on numbers; any comparison with [NaN] is false. *)
Definition lt (a b : number) : bool :=
  match a, b with
  | NaN, _ | _, NaN => false
  | Finite x, Finite y => Qltb x y
  | NegInfinity, NegInfinity => false
  | NegInfinity, _ => true
  | _, NegInfinity => false
  | PosInfinity, _ => false
  | Finite _, PosInfinity => true
  end.

Definition gt (a b : number) : bool := lt b a.

Definition ofZ (z : Z) : number := Finite (inject_Z z).

(** Timestamps: the time value of an ISO string. *)
Definition timestamp : Type := Z.

(** Truthiness of a string: non-empty. *)
Definition truthy (s : string) : bool :=
  match s with EmptyString => false | String _ _ => true end.

Definition code (c : ascii) : nat := nat_of_ascii c.

Definition isChar (n : nat) (c : ascii) : bool := Nat.eqb (code c) n.

(** [s.endsWith(suffix)]. *)
Fixpoint endsWith (s suffix : string) : bool :=
  if String.eqb s suffix then true
  else match s with
       | EmptyString => false
       | String _ rest => endsWith rest suffix
       end.

(** [s.replace(/\/$/, '')]: drop one trailing slash. *)
Fixpoint stripTrailingSlash (s : string) : string :=
  match s with
  | EmptyString => EmptyString
  | String c rest =>
      match rest with
      | EmptyString => if isChar 47 c then EmptyString else s
      | String _ _ => String c (stripTrailingSlash rest)
      end
  end.

(** White space recognised by [String.prototype.trim] and [parseInt]. *)
Definition isWhiteSpace (c : ascii) : bool :=
  let n := code c in
  (Nat.eqb n 9 || Nat.eqb n 10 || Nat.eqb n 11 || Nat.eqb n 12
   || Nat.eqb n 13 || Nat.eqb n 32 || Nat.eqb n 160)%bool.

Fixpoint trimStart (s : string) : string :=
  match s with
  | EmptyString => EmptyString
  | String c rest => if isWhiteSpace c then trimStart rest else s
  end.

Fixpoint trimEnd (s : string) : string :=
  match s with
  | EmptyString => EmptyString
  | String c rest =>
      match trimEnd rest with
      | EmptyString => if isWhiteSpace c then EmptyString else String c EmptyString
      | String _ _ as kept => String c kept
      end
  end.

Definition trim (s : string) : string := trimEnd (trimStart s).

Definition digitValue (c : ascii) : option Z :=
  let n := code c in
  if (Nat.leb 48 n && Nat.leb n 57)%bool then Some (Z.of_nat (n - 48)) else None.

(** Longest decimal prefix, accumulated left to right. *)
Fixpoint readDigits (acc : option Z) (s : string) : option Z :=
  match s with
  | EmptyString => acc
  | String c rest =>
      match digitValue c with
      | Some d =>
          readDigits (Some (match acc with Some a => 10 * a + d | None => d end)%Z) rest
      | None => acc
      end
  end.

(** [Number.parseInt(text, 10)]: optional white space, optional sign, then
    the longest run of decimal digits; [NaN] when there is none. *)
Definition parseInt10 (text : string) : number :=
  match trimStart text with
  | EmptyString => NaN
  | String c rest as body =>
      if isChar 45 c then
        match readDigits None rest with
        | Some v => ofZ (- v)
        | None => NaN
        end
      else if isChar 43 c then
        match readDigits None rest with
        | Some v => ofZ v
        | None => NaN
        end
      else
        match readDigits None body with
        | Some v => ofZ v
        | None => NaN
        end
  end.

(** [String(n)] for a non-negative integer. *)
Definition natToString (n : nat) : string :=
  NilZero.string_of_uint (Nat.to_uint n).

(** Stable insertion of [x] in front of the first element it does not
    follow under the comparator. *)
Fixpoint insertBy {A : Type} (cmp : A -> A -> Z) (x : A) (l : list A) : list A :=
  match l with
  | [] => [x]
  | y :: rest =>
      if (cmp x y <=? 0)%Z then x :: y :: rest
      else y :: insertBy cmp x rest
  end.

(** [[...l].sort(cmp)]: the stable sort of the language. *)
Fixpoint Array_sort {A : Type} (cmp : A -> A -> Z) (l : list A) : list A :=
  match l with
  | [] => []
  | x :: rest => insertBy cmp x (Array_sort cmp rest)
  end.

(** [l.slice(0, limit)] for a non-negative limit. *)
Definition slice0 {A : Type} (limit : nat) (l : list A) : list A :=
  firstn limit l.

End JS.

(* ===================================================================== *)
(** ** JSON text: [JSON.stringify] on Latin-1 values *)
(* ===================================================================== *)

Module Json.
Import JS.

(** Parsed JSON. A number keeps its lexeme. *)
Inductive json : Type :=
| JNull
| JBool (b : bool)
| JNum (lexeme : string)
| JStr (s : string)
| JArr (items : list json)
| JObj (members : list (string * json)).

Definition dquote : ascii := ascii_of_nat 34.
Definition backslash : ascii := ascii_of_nat 92.

Definition isArray (v : json) : bool :=
  match v with JArr _ => true | _ => false end.

(** *** Printing *)

Definition hexDigit (n : nat) : ascii :=
  if n <? 10 then ascii_of_nat (48 + n) else ascii_of_nat (87 + n).

(** One code unit of a quoted string (QuoteJSONString). *)
Definition escapeChar (c : ascii) : string :=
  let n := code c in
  if n =? 34 then String backslash (String dquote EmptyString)
  else if n =? 92 then String backslash (String backslash EmptyString)
  else if n =? 8 then String backslash "b"
  else if n =? 12 then String backslash "f"
  else if n =? 10 then String backslash "n"
  else if n =? 13 then String backslash "r"
  else if n =? 9 then String backslash "t"
  else if n <? 32 then
    String backslash
      (String "u" (String "0" (String "0"
        (String (hexDigit (n / 16)) (String (hexDigit (n mod 16)) EmptyString)))))
  else String c EmptyString.

Fixpoint escape (s : string) : string :=
  match s with
  | EmptyString => EmptyString
  | String c rest => (escapeChar c ++ escape rest)%string
  end.

Definition quote (s : string) : string :=
  String dquote (escape s ++ String dquote EmptyString)%string.

(** Comma-separated pieces, no white space. *)
Fixpoint joinComma (pieces : list string) : string :=
  match pieces with
  | [] => EmptyString
  | [p] => p
  | p :: rest => (p ++ String "," (joinComma rest))%string
  end.

(** [JSON.stringify(v)] without indentation. *)
Fixpoint JSON_stringify (v : json) : string :=
  match v with
  | JNull => "null"
  | JBool true => "true"
  | JBool false => "false"
  | JNum lexeme => lexeme
  | JStr s => quote s
  | JArr items => String "[" (joinComma (map JSON_stringify items) ++ "]")%string
  | JObj members =>
      String "{"
        (joinComma (map (fun kv => (quote (fst kv) ++ String ":" (JSON_stringify (snd kv)))%string)
                        members) ++ "}")%string
  end.

End Json.

(* ===================================================================== *)
(** ** JSON text over UTF-16 code units *)
(* ===================================================================== *)

(** [JSON.parse] decodes [\uXXXX] escapes to any of the 65536 code units,
    and [JSON.stringify] of a list of tags prints whatever code units the
    tags hold. Where the development reads JSON text it therefore works on
    sequences of code units, following ECMA-262 (JSON.parse, JSON.stringify
    and QuoteJSONString) and ECMA-404. *)

Module Wide.

(** A JavaScript string: its UTF-16 code units. *)
Definition text : Type := list N.

(** A Latin-1 string of the rest of the development, as code units. *)
Definition ofString (s : string) : text :=
  map N_of_ascii (list_ascii_of_string s).

(** Parsed JSON. A number keeps its lexeme; an object keeps its members as
    written, a repeated name included. *)
Inductive json : Type :=
| JNull
| JBool (b : bool)
| JNum (lexeme : text)
| JStr (s : text)
| JArr (items : list json)
| JObj (members : list (text * json)).

(** [Array.isArray] on a parsed value. *)
Definition isArray (v : json) : bool :=
  match v with JArr _ => true | _ => false end.

(** Truthiness of a string: non-empty. *)
Definition truthy (t : text) : bool :=
  match t with [] => false | _ :: _ => true end.

(** [a === b] on strings. *)
Fixpoint textEqb (a b : text) : bool :=
  match a, b with
  | [], [] => true
  | u :: a', v :: b' => ((u =? v)%N && textEqb a' b')%bool
  | _, _ => false
  end.

(** *** Printing *)

(** A hexadecimal digit, lower case. *)
Definition hexDigit (d : N) : N :=
  if (d <? 10)%N then (48 + d)%N else (87 + d)%N.

(** UnicodeEscape: [\u] and four hexadecimal digits. *)
Definition unicodeEscape (u : N) : text :=
  [92; 117; hexDigit (u / 4096); hexDigit ((u / 256) mod 16);
   hexDigit ((u / 16) mod 16); hexDigit (u mod 16)]%N.

Definition isLeadingSurrogate (u : N) : bool :=
  ((55296 <=? u) && (u <=? 56319))%N.

Definition isTrailingSurrogate (u : N) : bool :=
  ((56320 <=? u) && (u <=? 57343))%N.

(** One code unit that is no surrogate, as QuoteJSONString prints it. *)
Definition escapeUnit (u : N) : text :=
  if (u =? 34)%N then [92; 34]%N
  else if (u =? 92)%N then [92; 92]%N
  else if (u =? 8)%N then [92; 98]%N
  else if (u =? 12)%N then [92; 102]%N
  else if (u =? 10)%N then [92; 110]%N
  else if (u =? 13)%N then [92; 114]%N
  else if (u =? 9)%N then [92; 116]%N
  else if (u <? 32)%N then unicodeEscape u
  else [u].

(** The contents of a quoted string: a surrogate pair is printed as it
    is, a lone surrogate as its escape. *)
Fixpoint escape (s : text) : text :=
  match s with
  | [] => []
  | u :: rest =>
      if isLeadingSurrogate u then
        match rest with
        | v :: rest' =>
            if isTrailingSurrogate v then u :: v :: escape rest'
            else unicodeEscape u ++ escape rest
        | [] => unicodeEscape u
        end
      else if isTrailingSurrogate u then unicodeEscape u ++ escape rest
      else escapeUnit u ++ escape rest
  end.

Definition quote (s : text) : text :=
  (34 :: escape s ++ [34])%N.

(** Comma-separated pieces, no white space. *)
Fixpoint joinComma (pieces : list text) : text :=
  match pieces with
  | [] => []
  | [p] => p
  | p :: rest => p ++ 44%N :: joinComma rest
  end.

(** [JSON.stringify(v)] without indentation. *)
Fixpoint JSON_stringify (v : json) : text :=
  match v with
  | JNull => [110; 117; 108; 108]%N
  | JBool true => [116; 114; 117; 101]%N
  | JBool false => [102; 97; 108; 115; 101]%N
  | JNum lexeme => lexeme
  | JStr s => quote s
  | JArr items => (91 :: joinComma (map JSON_stringify items) ++ [93])%N
  | JObj members =>
      (123 :: joinComma (map (fun kv => quote (fst kv) ++ 58 :: JSON_stringify (snd kv))
                             members) ++ [125])%N
  end.

(** *** Parsing *)

(** White space of the JSON grammar: space, tab, line feed, carriage
    return. *)
Definition isJsonWs (u : N) : bool :=
  ((u =? 32) || (u =? 9) || (u =? 10) || (u =? 13))%N.

Fixpoint skipWs (s : text) : text :=
  match s with
  | [] => []
  | u :: rest => if isJsonWs u then skipWs rest else s
  end.

Definition hexValue (u : N) : option N :=
  if ((48 <=? u) && (u <=? 57))%N then Some (u - 48)%N
  else if ((97 <=? u) && (u <=? 102))%N then Some (u - 87)%N
  else if ((65 <=? u) && (u <=? 70))%N then Some (u - 55)%N
  else None.

Definition hex4 (a b c d : N) : option N :=
  match hexValue a, hexValue b, hexValue c, hexValue d with
  | Some x, Some y, Some z, Some w => Some (((x * 16 + y) * 16 + z) * 16 + w)%N
  | _, _, _, _ => None
  end.

Definition consUnit (u : N) (r : option (text * text)) : option (text * text) :=
  match r with
  | Some (body, rest) => Some (u :: body, rest)
  | None => None
  end.

(** Characters of a string literal after its opening quote: the decoded
    contents and the text after the closing quote. *)
Fixpoint parseChars (s : text) : option (text * text) :=
  match s with
  | [] => None
  | u :: rest =>
      if (u =? 34)%N then Some ([], rest)
      else if (u =? 92)%N then
        match rest with
        | [] => None
        | e :: rest1 =>
            if (e =? 34)%N then consUnit 34%N (parseChars rest1)
            else if (e =? 92)%N then consUnit 92%N (parseChars rest1)
            else if (e =? 47)%N then consUnit 47%N (parseChars rest1)
            else if (e =? 98)%N then consUnit 8%N (parseChars rest1)
            else if (e =? 102)%N then consUnit 12%N (parseChars rest1)
            else if (e =? 110)%N then consUnit 10%N (parseChars rest1)
            else if (e =? 114)%N then consUnit 13%N (parseChars rest1)
            else if (e =? 116)%N then consUnit 9%N (parseChars rest1)
            else if (e =? 117)%N then
              match rest1 with
              | h1 :: h2 :: h3 :: h4 :: rest5 =>
                  match hex4 h1 h2 h3 h4 with
                  | Some n => consUnit n (parseChars rest5)
                  | None => None
                  end
              | _ => None
              end
            else None
        end
      else if (u <? 32)%N then None
      else consUnit u (parseChars rest)
  end.

Definition isDigit (u : N) : bool :=
  ((48 <=? u) && (u <=? 57))%N.

Fixpoint spanDigits (s : text) : text * text :=
  match s with
  | [] => ([], [])
  | u :: rest =>
      if isDigit u then
        let (digits, tail) := spanDigits rest in (u :: digits, tail)
      else ([], s)
  end.

(** An optional fraction: a point and at least one digit. *)
Definition parseFraction (s : text) : option (text * text) :=
  match s with
  | u :: rest =>
      if (u =? 46)%N then
        match spanDigits rest with
        | ([], _) => None
        | (digits, tail) => Some (u :: digits, tail)
        end
      else Some ([], s)
  | [] => Some ([], s)
  end.

(** An optional exponent: [e] or [E], an optional sign, at least one
    digit. *)
Definition parseExponent (s : text) : option (text * text) :=
  match s with
  | u :: rest =>
      if ((u =? 101) || (u =? 69))%N then
        let (sign, afterSign) :=
          match rest with
          | g :: rest1 =>
              if ((g =? 43) || (g =? 45))%N then ([g], rest1) else ([], rest)
          | [] => ([], rest)
          end in
        match spanDigits afterSign with
        | ([], _) => None
        | (digits, tail) => Some (u :: sign ++ digits, tail)
        end
      else Some ([], s)
  | [] => Some ([], s)
  end.

(** The integer part: a single zero, or digits that do not start with
    zero. *)
Definition parseInteger (s : text) : option (text * text) :=
  match s with
  | u :: rest =>
      if (u =? 48)%N then Some ([u], rest)
      else if isDigit u then Some (spanDigits s)
      else None
  | [] => None
  end.

(** A number lexeme and the text after it. *)
Definition parseNumber (s : text) : option (text * text) :=
  let (sign, body) :=
    match s with
    | u :: rest => if (u =? 45)%N then ([u], rest) else ([], s)
    | [] => ([], s)
    end in
  match parseInteger body with
  | None => None
  | Some (int, afterInt) =>
      match parseFraction afterInt with
      | None => None
      | Some (frac, afterFrac) =>
          match parseExponent afterFrac with
          | None => None
          | Some (exp, tail) => Some (sign ++ int ++ frac ++ exp, tail)
          end
      end
  end.

(** [expectWord w s]: [s] starts with [w]; the text after it. *)
Fixpoint expectWord (w s : text) : option text :=
  match w with
  | [] => Some s
  | c :: w' =>
      match s with
      | d :: s' => if (c =? d)%N then expectWord w' s' else None
      | [] => None
      end
  end.

(** What the parser is in the middle of. *)
Inductive goal : Type :=
| GValue
| GElems (acc : list json)
| GMembers (acc : list (text * json)).

Fixpoint parseWith (fuel : nat) (g : goal) (s : text) : option (json * text) :=
  match fuel with
  | O => None
  | S fuel' =>
      match g with
      | GValue =>
          let body := skipWs s in
          match body with
          | [] => None
          | u :: rest =>
              if (u =? 91)%N then
                match skipWs rest with
                | [] => None
                | u2 :: rest2 =>
                    if (u2 =? 93)%N then Some (JArr [], rest2)
                    else parseWith fuel' (GElems []) rest
                end
              else if (u =? 123)%N then
                match skipWs rest with
                | [] => None
                | u2 :: rest2 =>
                    if (u2 =? 125)%N then Some (JObj [], rest2)
                    else parseWith fuel' (GMembers []) rest
                end
              else if (u =? 34)%N then
                match parseChars rest with
                | Some (str, tail) => Some (JStr str, tail)
                | None => None
                end
              else if (u =? 116)%N then
                option_map (fun tail => (JBool true, tail))
                           (expectWord [114; 117; 101]%N rest)
              else if (u =? 102)%N then
                option_map (fun tail => (JBool false, tail))
                           (expectWord [97; 108; 115; 101]%N rest)
              else if (u =? 110)%N then
                option_map (fun tail => (JNull, tail))
                           (expectWord [117; 108; 108]%N rest)
              else
                match parseNumber body with
                | Some (lexeme, tail) => Some (JNum lexeme, tail)
                | None => None
                end
          end
      | GElems acc =>
          match parseWith fuel' GValue s with
          | None => None
          | Some (v, tail) =>
              match skipWs tail with
              | [] => None
              | u :: rest =>
                  if (u =? 44)%N then parseWith fuel' (GElems (v :: acc)) rest
                  else if (u =? 93)%N then Some (JArr (rev (v :: acc)), rest)
                  else None
              end
          end
      | GMembers acc =>
          match skipWs s with
          | [] => None
          | u :: rest =>
              if (u =? 34)%N then
                match parseChars rest with
                | None => None
                | Some (key, afterKey) =>
                    match skipWs afterKey with
                    | [] => None
                    | u2 :: rest2 =>
                        if (u2 =? 58)%N then
                          match parseWith fuel' GValue rest2 with
                          | None => None
                          | Some (v, tail) =>
                              match skipWs tail with
                              | [] => None
                              | u3 :: rest3 =>
                                  if (u3 =? 44)%N
                                  then parseWith fuel' (GMembers ((key, v) :: acc)) rest3
                                  else if (u3 =? 125)%N
                                  then Some (JObj (rev ((key, v) :: acc)), rest3)
                                  else None
                              end
                          end
                        else None
                    end
                end
              else None
          end
      end
  end.

(** [JSON.parse(text)]; [None] stands for the [SyntaxError] it throws. *)
Definition JSON_parse (t : text) : option json :=
  match parseWith (2 * List.length t + 2) GValue t with
  | Some (v, tail) =>
      match skipWs tail with
      | [] => Some v
      | _ :: _ => None
      end
  | None => None
  end.

End Wide.

(** *** JSON text read back *)

(** A Latin-1 value as [JSON.parse] returns it. *)
Fixpoint widen (v : Json.json) : Wide.json :=
  match v with
  | Json.JNull => Wide.JNull
  | Json.JBool b => Wide.JBool b
  | Json.JNum lexeme => Wide.JNum (Wide.ofString lexeme)
  | Json.JStr s => Wide.JStr (Wide.ofString s)
  | Json.JArr items => Wide.JArr (map widen items)
  | Json.JObj members =>
      Wide.JObj (map (fun kv => (Wide.ofString (fst kv), widen (snd kv))) members)
  end.

(** The text is a number of the JSON grammar. *)
Definition isNumberLexeme (lexeme : Wide.text) : bool :=
  match Wide.parseNumber lexeme with
  | Some (_, []) => true
  | _ => false
  end.

(** Every number of the value is printed as a number of the JSON grammar,
    as [JSON.stringify] prints the finite numbers. *)
Fixpoint numbersPrinted (v : Wide.json) : bool :=
  match v with
  | Wide.JNum lexeme => isNumberLexeme lexeme
  | Wide.JArr items => forallb numbersPrinted items
  | Wide.JObj members => forallb (fun kv => numbersPrinted (snd kv)) members
  | _ => true
  end.

(** What reading a printed value costs the parser. *)
Fixpoint cost (v : Wide.json) : nat :=
  match v with
  | Wide.JArr items => 1 + list_sum (map (fun item => 1 + cost item) items)
  | Wide.JObj members => 1 + list_sum (map (fun kv => 1 + cost (snd kv)) members)
  | _ => 1
  end.

(** The text does not continue a number. *)
Definition endsNumber (tail : Wide.text) : bool :=
  match tail with
  | [] => true
  | u :: _ => negb (Wide.isDigit u || (u =? 46)%N || (u =? 101)%N || (u =? 69)%N)
  end.

(* ===================================================================== *)
(** ** Data model ([types/mass.ts], [types/profile.ts], [AppSettings]) *)
(* ===================================================================== *)

Import JS Json.

Inductive MassUnit : Type := kg | lb.

Inductive SyncStatus : Type := pending | synced | failed.

Inductive SyncOperation : Type := create | update | delete.

Module MassEntry.
Record t : Type := mk {
  id : string;
  profileId : string;
  mass : number;
  unit : MassUnit;
  note : option string;
  tags : option (list string);
  loggedAt : timestamp;
  status : SyncStatus;
  createdAt : timestamp;
  updatedAt : timestamp
}.
End MassEntry.

Module MassEntryInput.
Record t : Type := mk {
  profileId : string;
  mass : number;
  unit : MassUnit;
  note : option string;
  tags : option (list string);
  loggedAt : option timestamp
}.
End MassEntryInput.

Module SyncMutation.
Record t : Type := mk {
  id : string;
  entityId : string;
  operation : SyncOperation;
  payload : json;
  attempts : nat;
  lastError : option string;
  createdAt : timestamp;
  updatedAt : timestamp
}.
(** [entityType] is the constant ['mass_entry']. *)
Definition entityType (_ : t) : string := "mass_entry".
End SyncMutation.

Module UserProfile.
Record t : Type := mk {
  id : string;
  fullName : string;
  email : option string;
  bio : option string;
  unitPreference : MassUnit;
  goalMass : option number;
  createdAt : timestamp;
  updatedAt : timestamp
}.
End UserProfile.

Module UserProfileInput.
Record t : Type := mk {
  fullName : string;
  email : option string;
  bio : option string;
  unitPreference : option MassUnit;
  goalMass : option number
}.
End UserProfileInput.

Module AppSettings.
Record t : Type := mk {
  autoSync : bool;
  remindersEnabled : bool;
  reminderHour : number;
  lastSync : option string;
  reminderNotificationId : option string
}.
End AppSettings.

(** [Partial<AppSettings>]: every key may be missing. *)
Module PartialSettings.
Record t : Type := mk {
  autoSync : option bool;
  remindersEnabled : option bool;
  reminderHour : option number;
  lastSync : option string;
  reminderNotificationId : option string
}.
Definition ofSettings (s : AppSettings.t) : t :=
  mk (Some (AppSettings.autoSync s))
     (Some (AppSettings.remindersEnabled s))
     (Some (AppSettings.reminderHour s))
     (AppSettings.lastSync s)
     (AppSettings.reminderNotificationId s).
End PartialSettings.

Definition PROFILE_ID : string := "primary_profile".

Definition DEFAULT_SETTINGS : AppSettings.t :=
  AppSettings.mk true true (Finite 7) None None.

Record WebState : Type := mkWebState {
  massEntries : list MassEntry.t;
  syncQueue : list SyncMutation.t;
  profile : option UserProfile.t;
  settings : AppSettings.t
}.

(* ===================================================================== *)
(** ** Host and asynchronous computations *)
(* ===================================================================== *)

(** A value caught by [catch]: an [Error] with its message, or anything else. *)
Inductive thrown : Type :=
| ErrorObject (message : string)
| NotAnError.

Record Request : Type := mkRequest {
  url : string;
  method : string;
  headers : list (string * string);
  body : option string
}.

Record Response : Type := mkResponse {
  responseStatus : nat;
  responseText : string
}.

(** [response.ok]: status in the range 200-299. *)
Definition ok (r : Response) : bool :=
  (Nat.leb 200 (responseStatus r) && Nat.leb (responseStatus r) 299)%bool.

Inductive FetchResult : Type :=
| FetchRejects (e : thrown)
| FetchResponds (r : Response).

(** The environment: the remote's answer to a request given the requests
    sent before it, the clock's successive readings, and the identifier
    generator's successive draws. *)
Record Host : Type := mkHost {
  reply : list Request -> Request -> FetchResult;
  clockAt : nat -> timestamp;
  idAt : nat -> string
}.

(** Everything a run can change: the in-memory store, the requests sent,
    and how many clock readings and identifiers have been consumed. *)
Record Sys : Type := mkSys {
  web : WebState;
  sent : list Request;
  clockReads : nat;
  idsDrawn : nat
}.

Inductive Outcome (A : Type) : Type :=
| Resolved (a : A)
| Rejected (e : thrown).
Arguments Resolved {A} a.
Arguments Rejected {A} e.

(** An [async] function body: it resolves or rejects, and its effects on
    the system stay either way. *)
Definition Async (A : Type) : Type := Sys -> Outcome A * Sys.

Definition ret {A : Type} (a : A) : Async A := fun s => (Resolved a, s).

Definition throw {A : Type} (e : thrown) : Async A := fun s => (Rejected e, s).

Definition bind {A B : Type} (c : Async A) (k : A -> Async B) : Async B :=
  fun s =>
    match c s with
    | (Resolved a, s') => k a s'
    | (Rejected e, s') => (Rejected e, s')
    end.

(** [try { c } catch (error) { handler error }]. *)
Definition tryCatch {A : Type} (c : Async A) (handler : thrown -> Async A) : Async A :=
  fun s =>
    match c s with
    | (Resolved a, s') => (Resolved a, s')
    | (Rejected e, s') => handler e s'
    end.

Notation "x <- c ;; k" := (bind c (fun x => k))
  (at level 61, c at next level, right associativity).
Notation "c ;;; k" := (bind c (fun _ => k))
  (at level 61, right associativity).

(** [for (const x of items) { body }] threading the loop's local variables. *)
Fixpoint forOf {A L : Type} (body : A -> L -> Async L) (items : list A) (locals : L)
  : Async L :=
  match items with
  | [] => ret locals
  | x :: rest => locals' <- body x locals ;; forOf body rest locals'
  end.

Definition getWebState : Async WebState := fun s => (Resolved (web s), s).

(** Assign into the in-memory state and persist it ([persistWebState]
    writes the whole state through). On this backend [ensureWebState()]
    always returns the state, so the [if (state)] guards are always taken. *)
Definition setWebState (w : WebState) : Async unit :=
  fun s => (Resolved tt, mkSys w (sent s) (clockReads s) (idsDrawn s)).

(** The callbacks handed to [map] and [filter] by the storage primitives. *)

(** [entry => entry.id === id ? { ...entry, status, updatedAt: now } : entry] *)
Definition withStatus (id : string) (status : SyncStatus) (now : timestamp)
  (entry : MassEntry.t) : MassEntry.t :=
  if String.eqb (MassEntry.id entry) id
  then MassEntry.mk (MassEntry.id entry) (MassEntry.profileId entry)
         (MassEntry.mass entry) (MassEntry.unit entry)
         (MassEntry.note entry) (MassEntry.tags entry)
         (MassEntry.loggedAt entry) status
         (MassEntry.createdAt entry) now
  else entry.

(** [mutation => mutation.id !== id] *)
Definition isNotMutation (id : string) (mutation : SyncMutation.t) : bool :=
  negb (String.eqb (SyncMutation.id mutation) id).

(** [mutation => mutation.id === id
      ? { ...mutation, attempts: mutation.attempts + 1, lastError, updatedAt: now }
      : mutation] *)
Definition withError (id : string) (errorMessage : string) (now : timestamp)
  (mutation : SyncMutation.t) : SyncMutation.t :=
  if String.eqb (SyncMutation.id mutation) id
  then SyncMutation.mk (SyncMutation.id mutation)
         (SyncMutation.entityId mutation)
         (SyncMutation.operation mutation)
         (SyncMutation.payload mutation)
         (SyncMutation.attempts mutation + 1)
         (Some errorMessage)
         (SyncMutation.createdAt mutation) now
  else mutation.

Section WithHost.
Variable host : Host.

(** [new Date().toISOString()]. *)
Definition nowISO : Async timestamp :=
  fun s => (Resolved (clockAt host (clockReads s)),
            mkSys (web s) (sent s) (S (clockReads s)) (idsDrawn s)).

(** [createId()]. *)
Definition createId : Async string :=
  fun s => (Resolved (idAt host (idsDrawn s)),
            mkSys (web s) (sent s) (clockReads s) (S (idsDrawn s))).

(** [fetch(url, init)]: the request goes out, the remote answers. *)
Definition fetch (req : Request) : Async Response :=
  fun s =>
    let s' := mkSys (web s) (sent s ++ [req]) (clockReads s) (idsDrawn s) in
    match reply host (sent s) req with
    | FetchRejects e => (Rejected e, s')
    | FetchResponds r => (Resolved r, s')
    end.

(* ===================================================================== *)
(** ** [services/storage.ts] *)
(* ===================================================================== *)

(** Tags are arbitrary strings and their serialized form is parsed, so
    both functions work on code units. *)
Definition serializeTags (tags : option (list Wide.text)) : option Wide.text :=
  match tags with
  | Some l =>
      if Nat.ltb 0 (List.length l)
      then Some (Wide.JSON_stringify (Wide.JArr (map Wide.JStr l)))
      else None
  | None => None
  end.

Definition deserializeTags (raw : option Wide.text) : list Wide.json :=
  match raw with
  | None => []
  | Some text =>
      if negb (Wide.truthy text) then []
      else match Wide.JSON_parse text with
           | Some (Wide.JArr items) => items
           | Some _ => []
           | None => []
           end
  end.

Definition sortMutationsAsc (mutations : list SyncMutation.t) : list SyncMutation.t :=
  Array_sort (fun a b => (SyncMutation.createdAt a - SyncMutation.createdAt b)%Z) mutations.

Definition sortEntriesDesc (entries : list MassEntry.t) : list MassEntry.t :=
  Array_sort (fun a b => (MassEntry.loggedAt b - MassEntry.loggedAt a)%Z) entries.

Definition createMassEntry (input : MassEntryInput.t) : Async MassEntry.t :=
  now <- nowISO ;;
  newId <- createId ;;
  let entry :=
    MassEntry.mk newId
      (MassEntryInput.profileId input)
      (MassEntryInput.mass input)
      (MassEntryInput.unit input)
      (MassEntryInput.note input)
      (Some (match MassEntryInput.tags input with Some l => l | None => [] end))
      (match MassEntryInput.loggedAt input with Some t => t | None => now end)
      pending now now in
  state <- getWebState ;;
  setWebState (mkWebState (entry :: massEntries state) (syncQueue state)
                          (profile state) (settings state)) ;;;
  ret entry.

Definition listMassEntries (profileId : option string) (limit : nat)
  : Async (list MassEntry.t) :=
  state <- getWebState ;;
  let filtered :=
    filter (fun entry =>
              match profileId with
              | Some p => if truthy p then String.eqb (MassEntry.profileId entry) p else true
              | None => true
              end) (massEntries state) in
  ret (slice0 limit (sortEntriesDesc filtered)).

Definition updateMassEntryStatus (id : string) (status : SyncStatus) : Async unit :=
  now <- nowISO ;;
  state <- getWebState ;;
  setWebState
    (mkWebState (map (withStatus id status now) (massEntries state))
                (syncQueue state) (profile state) (settings state)).

Definition enqueueMutation (entityId : string) (operation : SyncOperation) (payload : json)
  : Async string :=
  now <- nowISO ;;
  mutationId <- createId ;;
  state <- getWebState ;;
  let mutation :=
    SyncMutation.mk mutationId entityId operation payload 0 None now now in
  setWebState (mkWebState (massEntries state) (syncQueue state ++ [mutation])
                          (profile state) (settings state)) ;;;
  ret mutationId.

Definition listPendingMutations (limit : nat) : Async (list SyncMutation.t) :=
  state <- getWebState ;;
  ret (slice0 limit (sortMutationsAsc (syncQueue state))).

Definition deleteMutation (id : string) : Async unit :=
  state <- getWebState ;;
  setWebState
    (mkWebState (massEntries state)
                (filter (isNotMutation id) (syncQueue state))
                (profile state) (settings state)).

Definition recordMutationError (id : string) (errorMessage : string) : Async unit :=
  now <- nowISO ;;
  state <- getWebState ;;
  setWebState
    (mkWebState (massEntries state)
                (map (withError id errorMessage now) (syncQueue state))
                (profile state) (settings state)).

Definition getUserProfile : Async (option UserProfile.t) :=
  state <- getWebState ;;
  ret (profile state).

Definition saveUserProfile (input : UserProfileInput.t) : Async UserProfile.t :=
  now <- nowISO ;;
  let profile0 :=
    UserProfile.mk PROFILE_ID
      (trim (UserProfileInput.fullName input))
      (option_map trim (UserProfileInput.email input))
      (option_map trim (UserProfileInput.bio input))
      (match UserProfileInput.unitPreference input with Some u => u | None => kg end)
      (match UserProfileInput.goalMass input with
       | None => None
       | Some g => if Number_isNaN g then None else Some g
       end)
      now now in
  state <- getWebState ;;
  let saved :=
    match profile state with
    | Some existing =>
        UserProfile.mk (UserProfile.id profile0) (UserProfile.fullName profile0)
          (UserProfile.email profile0) (UserProfile.bio profile0)
          (UserProfile.unitPreference profile0) (UserProfile.goalMass profile0)
          (UserProfile.createdAt existing) now
    | None => profile0
    end in
  setWebState (mkWebState (massEntries state) (syncQueue state) (Some saved)
                          (settings state)) ;;;
  ret saved.

Definition mergeSettings (value : PartialSettings.t) : AppSettings.t :=
  let raw_autoSync :=
    match PartialSettings.autoSync value with
    | Some b => b | None => AppSettings.autoSync DEFAULT_SETTINGS end in
  let raw_remindersEnabled :=
    match PartialSettings.remindersEnabled value with
    | Some b => b | None => AppSettings.remindersEnabled DEFAULT_SETTINGS end in
  let raw_reminderHour :=
    match PartialSettings.reminderHour value with
    | Some h => h | None => AppSettings.reminderHour DEFAULT_SETTINGS end in
  let reminderHour :=
    if Number_isFinite raw_reminderHour then raw_reminderHour
    else AppSettings.reminderHour DEFAULT_SETTINGS in
  AppSettings.mk raw_autoSync raw_remindersEnabled reminderHour
    (PartialSettings.lastSync value)
    (PartialSettings.reminderNotificationId value).

Definition applyWebSettings (settings' : AppSettings.t) : Async unit :=
  state <- getWebState ;;
  setWebState (mkWebState (massEntries state) (syncQueue state) (profile state)
                          (mergeSettings (PartialSettings.ofSettings settings'))).

Definition getAppSettings : Async AppSettings.t :=
  state <- getWebState ;;
  ret (settings state).

Definition saveAppSettings (settings' : AppSettings.t) : Async AppSettings.t :=
  let normalized := mergeSettings (PartialSettings.ofSettings settings') in
  applyWebSettings normalized ;;;
  ret normalized.

End WithHost.

(* ===================================================================== *)
(** ** [services/sync.ts] *)
(* ===================================================================== *)

Module SyncStats.
Record t : Type := mk {
  attempted : nat;
  synced : nat;
  skipped : bool;
  reason : option string;
  errors : list string
}.
End SyncStats.

(** The loop's local variables [synced] and [errors]. *)
Record SyncLocals : Type := mkSyncLocals {
  localSynced : nat;
  localErrors : list string
}.

(** [!value] for an optional string. *)
Definition falsy (value : option string) : bool :=
  match value with
  | None => true
  | Some s => negb (truthy s)
  end.

Definition normalizeEndpoint (endpoint : string) : string :=
  stripTrailingSlash endpoint.

(** The module constant, from [process.env.EXPO_PUBLIC_SYNC_ENDPOINT]. *)
Definition SYNC_ENDPOINT (rawSyncEndpoint : option string) : option string :=
  match rawSyncEndpoint with
  | None => None
  | Some raw =>
      if endsWith raw "/v1/mass" then Some (normalizeEndpoint raw)
      else if truthy raw then Some (normalizeEndpoint raw ++ "/v1/mass")%string
      else None
  end.

Definition buildHeaders (token : option string) : list (string * string) :=
  let headers := [("Content-Type", "application/json")] in
  if falsy token then headers
  else headers ++ [("Authorization",
                    ("Bearer " ++ match token with Some t => t | None => EmptyString end)%string)].

Definition requestMethodForOperation (operation : SyncOperation) : string :=
  match operation with
  | update => "PATCH"
  | delete => "DELETE"
  | create => "POST"
  end.

Section Sync.
Variable host : Host.
Variable rawSyncEndpoint : option string.

Definition getMutationUrl (mutation : SyncMutation.t) : string :=
  let base := option_map stripTrailingSlash (SYNC_ENDPOINT rawSyncEndpoint) in
  match base with
  | None => EmptyString
  | Some b =>
      if negb (truthy b) then EmptyString
      else match SyncMutation.operation mutation with
           | update | delete => (b ++ "/" ++ SyncMutation.entityId mutation)%string
           | create => b
           end
  end.

(** The request [sendMutation] hands to [fetch]. *)
Definition mutationRequest (mutation : SyncMutation.t) (token : option string) : Request :=
  let method := requestMethodForOperation (SyncMutation.operation mutation) in
  mkRequest (getMutationUrl mutation) method (buildHeaders token)
    (if String.eqb method "DELETE" then None
     else Some (JSON_stringify (SyncMutation.payload mutation))).

Definition sendMutation (mutation : SyncMutation.t) (token : option string) : Async unit :=
  let url := getMutationUrl mutation in
  if negb (truthy url) then throw (ErrorObject "SYNC_ENDPOINT is not configured")
  else
    response <- fetch host (mutationRequest mutation token) ;;
    if negb (ok response) then
      let message := responseText response in
      throw (ErrorObject
               (if truthy message then message
                else ("Failed with status " ++ natToString (responseStatus response))%string))
    else ret tt.

(** Body of the [for ... of mutations] loop of [syncPendingEntries]. *)
Definition syncLoopBody (token : option string)
  (mutation : SyncMutation.t) (locals : SyncLocals) : Async SyncLocals :=
  tryCatch
    (sendMutation mutation token ;;;
     let synced' := localSynced locals + 1 in
     deleteMutation (SyncMutation.id mutation) ;;;
     updateMassEntryStatus host (SyncMutation.entityId mutation) synced ;;;
     ret (mkSyncLocals synced' (localErrors locals)))
    (fun error =>
       let message :=
         match error with
         | ErrorObject m => m
         | NotAnError => "Unknown sync error"
         end in
       let errors' := localErrors locals ++ [message] in
       recordMutationError host (SyncMutation.id mutation) message ;;;
       ret (mkSyncLocals (localSynced locals) errors')).

Definition syncPendingEntries (token : option string) : Async SyncStats.t :=
  if falsy (SYNC_ENDPOINT rawSyncEndpoint) then
    ret (SyncStats.mk 0 0 true (Some "SYNC_ENDPOINT not configured") [])
  else
    mutations <- listPendingMutations 25 ;;
    if Nat.eqb (List.length mutations) 0 then ret (SyncStats.mk 0 0 false None [])
    else
      locals <- forOf (syncLoopBody token) mutations (mkSyncLocals 0 []) ;;
      ret (SyncStats.mk (List.length mutations) (localSynced locals) false None
                        (localErrors locals)).

End Sync.

(* ===================================================================== *)
(** ** [services/storage.ts], SQLite branch *)
(* ===================================================================== *)

(** On a native platform the primitives go through [executeSql]. The store
    component of the system state then stands for the database:
    [massEntries] lists the rows of [mass_entries] and [syncQueue] those of
    [sync_queue], both in rowid order, which is the order of insertion;
    [profile] is the row of [profiles] whose id is [PROFILE_ID], the only
    one the code reads or writes. A row is written as the record whose
    fields its columns hold; the [tags] and [payload] columns hold the JSON
    text of the field, which the row mappers parse back to the field
    ([deserializeTags_serializeTags] for the tags, [JSON_parse_written] and
    [entryCopy_read_back] for a payload).

    Embedded here are the three readers whose result differs from the
    in-memory branch, and the writers that a sync run and a profile save go
    through, whose effect on the rows is that of the in-memory branch. *)

Module Native.

(** [datetime(text)] of SQLite on the ISO-8601 text of a time: the time cut
    to the whole second; NULL when the year lies outside 0000-9999, where
    [toISOString] prints a sign and six digits that SQLite does not read. *)
Definition datetime (t : timestamp) : option Z :=
  if ((-62167219200000 <=? t) && (t <=? 253402300799999))%Z
  then Some (t / 1000)%Z
  else None.

(** The place of a [datetime] value under [ORDER BY]: NULL comes before
    every time. *)
Definition rank (value : option Z) : Z :=
  match value with
  | Some second => second
  | None => (-62167219201)%Z
  end.

(** [ORDER BY key ASC] and [ORDER BY key DESC]. SQLite scans the table in
    rowid order and returns rows of equal key in that order. *)
Definition orderByAsc {A : Type} (key : A -> Z) (rows : list A) : list A :=
  Array_sort (fun a b => (key a - key b)%Z) rows.

Definition orderByDesc {A : Type} (key : A -> Z) (rows : list A) : list A :=
  Array_sort (fun a b => (key b - key a)%Z) rows.

(** [row.column ? String(row.column) : null]. *)
Definition textOrNull (column : option string) : option string :=
  match column with
  | Some t => if truthy t then Some t else None
  | None => None
  end.

Definition mapRowToEntry (row : MassEntry.t) : MassEntry.t :=
  MassEntry.mk (MassEntry.id row) (MassEntry.profileId row)
    (MassEntry.mass row) (MassEntry.unit row)
    (textOrNull (MassEntry.note row))
    (Some (match MassEntry.tags row with Some l => l | None => [] end))
    (MassEntry.loggedAt row) (MassEntry.status row)
    (MassEntry.createdAt row) (MassEntry.updatedAt row).

Definition mapRowToMutation (row : SyncMutation.t) : SyncMutation.t :=
  SyncMutation.mk (SyncMutation.id row) (SyncMutation.entityId row)
    (SyncMutation.operation row) (SyncMutation.payload row)
    (SyncMutation.attempts row)
    (textOrNull (SyncMutation.lastError row))
    (SyncMutation.createdAt row) (SyncMutation.updatedAt row).

Definition mapRowToProfile (row : UserProfile.t) : UserProfile.t :=
  UserProfile.mk (UserProfile.id row) (UserProfile.fullName row)
    (textOrNull (UserProfile.email row))
    (textOrNull (UserProfile.bio row))
    (UserProfile.unitPreference row) (UserProfile.goalMass row)
    (UserProfile.createdAt row) (UserProfile.updatedAt row).

(** The sort keys of the two listings. *)
Definition loggedSecond (row : MassEntry.t) : Z :=
  rank (datetime (MassEntry.loggedAt row)).

Definition createdSecond (row : SyncMutation.t) : Z :=
  rank (datetime (SyncMutation.createdAt row)).

Section WithHost.
Variable host : Host.

(** [SELECT * FROM mass_entries [WHERE profile_id = ?]
     ORDER BY datetime(logged_at) DESC LIMIT ?]. *)
Definition listMassEntries (profileId : option string) (limit : nat)
  : Async (list MassEntry.t) :=
  tables <- getWebState ;;
  let selected :=
    filter (fun row =>
              match profileId with
              | Some p => if truthy p then String.eqb (MassEntry.profileId row) p else true
              | None => true
              end) (massEntries tables) in
  let rows := firstn limit (orderByDesc loggedSecond selected) in
  ret (map mapRowToEntry rows).

(** [UPDATE mass_entries SET status = ?, updated_at = ? WHERE id = ?]. *)
Definition updateMassEntryStatus (id : string) (status : SyncStatus) : Async unit :=
  now <- nowISO host ;;
  tables <- getWebState ;;
  setWebState
    (mkWebState (map (withStatus id status now) (massEntries tables))
                (syncQueue tables) (profile tables) (settings tables)).

(** [SELECT * FROM sync_queue ORDER BY datetime(created_at) ASC LIMIT ?]. *)
Definition listPendingMutations (limit : nat) : Async (list SyncMutation.t) :=
  tables <- getWebState ;;
  let rows := firstn limit (orderByAsc createdSecond (syncQueue tables)) in
  ret (map mapRowToMutation rows).

(** [DELETE FROM sync_queue WHERE id = ?]. *)
Definition deleteMutation (id : string) : Async unit :=
  tables <- getWebState ;;
  setWebState
    (mkWebState (massEntries tables)
                (filter (isNotMutation id) (syncQueue tables))
                (profile tables) (settings tables)).

(** [UPDATE sync_queue SET attempts = attempts + 1, last_error = ?,
     updated_at = ? WHERE id = ?]. *)
Definition recordMutationError (id : string) (errorMessage : string) : Async unit :=
  now <- nowISO host ;;
  tables <- getWebState ;;
  setWebState
    (mkWebState (massEntries tables)
                (map (withError id errorMessage now) (syncQueue tables))
                (profile tables) (settings tables)).

(** [SELECT * FROM profiles WHERE id = ? LIMIT 1]. *)
Definition getUserProfile : Async (option UserProfile.t) :=
  tables <- getWebState ;;
  ret (option_map mapRowToProfile (profile tables)).

(** [SELECT id, created_at FROM profiles WHERE id = ? LIMIT 1], then the
    [UPDATE] of the row or the [INSERT] of a new one. *)
Definition saveUserProfile (input : UserProfileInput.t) : Async UserProfile.t :=
  now <- nowISO host ;;
  let profile0 :=
    UserProfile.mk PROFILE_ID
      (trim (UserProfileInput.fullName input))
      (option_map trim (UserProfileInput.email input))
      (option_map trim (UserProfileInput.bio input))
      (match UserProfileInput.unitPreference input with Some u => u | None => kg end)
      (match UserProfileInput.goalMass input with
       | None => None
       | Some g => if Number_isNaN g then None else Some g
       end)
      now now in
  tables <- getWebState ;;
  match profile tables with
  | Some existing =>
      let persistedCreatedAt := UserProfile.createdAt existing in
      setWebState
        (mkWebState (massEntries tables) (syncQueue tables)
           (Some (UserProfile.mk (UserProfile.id existing) (UserProfile.fullName profile0)
                    (UserProfile.email profile0) (UserProfile.bio profile0)
                    (UserProfile.unitPreference profile0) (UserProfile.goalMass profile0)
                    (UserProfile.createdAt existing) now))
           (settings tables)) ;;;
      ret (UserProfile.mk (UserProfile.id profile0) (UserProfile.fullName profile0)
             (UserProfile.email profile0) (UserProfile.bio profile0)
             (UserProfile.unitPreference profile0) (UserProfile.goalMass profile0)
             persistedCreatedAt now)
  | None =>
      setWebState (mkWebState (massEntries tables) (syncQueue tables) (Some profile0)
                              (settings tables)) ;;;
      ret profile0
  end.

End WithHost.

(** [services/sync.ts] over these primitives. *)
Section Sync.
Variable host : Host.
Variable rawSyncEndpoint : option string.

Definition syncLoopBody (token : option string)
  (mutation : SyncMutation.t) (locals : SyncLocals) : Async SyncLocals :=
  tryCatch
    (sendMutation host rawSyncEndpoint mutation token ;;;
     let synced' := localSynced locals + 1 in
     deleteMutation (SyncMutation.id mutation) ;;;
     updateMassEntryStatus host (SyncMutation.entityId mutation) synced ;;;
     ret (mkSyncLocals synced' (localErrors locals)))
    (fun error =>
       let message :=
         match error with
         | ErrorObject m => m
         | NotAnError => "Unknown sync error"
         end in
       let errors' := localErrors locals ++ [message] in
       recordMutationError host (SyncMutation.id mutation) message ;;;
       ret (mkSyncLocals (localSynced locals) errors')).

Definition syncPendingEntries (token : option string) : Async SyncStats.t :=
  if falsy (SYNC_ENDPOINT rawSyncEndpoint) then
    ret (SyncStats.mk 0 0 true (Some "SYNC_ENDPOINT not configured") [])
  else
    mutations <- listPendingMutations 25 ;;
    if Nat.eqb (List.length mutations) 0 then ret (SyncStats.mk 0 0 false None [])
    else
      locals <- forOf (syncLoopBody token) mutations (mkSyncLocals 0 []) ;;
      ret (SyncStats.mk (List.length mutations) (localSynced locals) false None
                        (localErrors locals)).

End Sync.

End Native.

(* ===================================================================== *)
(** ** Settings store ([useSettingsStore]) and settings screen *)
(* ===================================================================== *)

(** [{ ...current, ...patch }]. *)
Definition spreadSettings (current : AppSettings.t) (patch : PartialSettings.t)
  : AppSettings.t :=
  AppSettings.mk
    (match PartialSettings.autoSync patch with
     | Some b => b | None => AppSettings.autoSync current end)
    (match PartialSettings.remindersEnabled patch with
     | Some b => b | None => AppSettings.remindersEnabled current end)
    (match PartialSettings.reminderHour patch with
     | Some h => h | None => AppSettings.reminderHour current end)
    (match PartialSettings.lastSync patch with
     | Some t => Some t | None => AppSettings.lastSync current end)
    (match PartialSettings.reminderNotificationId patch with
     | Some t => Some t | None => AppSettings.reminderNotificationId current end).

(** [update(patch)] of the settings store whose state holds [current]. *)
Module SettingsStore.
Definition update (current : AppSettings.t) (patch : PartialSettings.t)
  : Async AppSettings.t :=
  saveAppSettings (spreadSettings current patch).
End SettingsStore.

(** [handleSaveReminder] of the settings screen; [None] when the input is
    refused with the alert and nothing is saved. *)
Definition handleSaveReminder (reminderInput : string) (current : AppSettings.t)
  : Async (option AppSettings.t) :=
  let hour := parseInt10 reminderInput in
  if (Number_isNaN hour || JS.lt hour (ofZ 0) || JS.gt hour (ofZ 23))%bool then ret None
  else
    updated <- SettingsStore.update current
                 (PartialSettings.mk None None (Some hour) None None) ;;
    ret (Some updated).

(* ===================================================================== *)
(** ** Vocabulary of the properties *)
(* ===================================================================== *)

(** The hour is a whole number between 0 and 23. *)
Definition hourInRange (n : number) : Prop :=
  exists z : Z, n = ofZ z /\ (0 <= z <= 23)%Z.

(** What a reply means to the loop: [None] when the send succeeds, the
    recorded error text otherwise. *)
Definition failureOf (r : FetchResult) : option string :=
  match r with
  | FetchRejects (ErrorObject message) => Some message
  | FetchRejects NotAnError => Some "Unknown sync error"
  | FetchResponds response =>
      if ok response then None
      else Some (if truthy (responseText response) then responseText response
                 else ("Failed with status " ++ natToString (responseStatus response))%string)
  end.

(** A queued intent after one recorded failure. *)
Definition bumped (m : SyncMutation.t) (message : string) (now : timestamp)
  : SyncMutation.t :=
  SyncMutation.mk (SyncMutation.id m) (SyncMutation.entityId m)
    (SyncMutation.operation m) (SyncMutation.payload m)
    (SyncMutation.attempts m + 1) (Some message) (SyncMutation.createdAt m) now.

(** An entry is kept as it is, or marked [synced] at some time. *)
Definition keptOrSynced (e e' : MassEntry.t) : Prop :=
  e' = e
  \/ exists now : timestamp,
       e' = MassEntry.mk (MassEntry.id e) (MassEntry.profileId e) (MassEntry.mass e)
              (MassEntry.unit e) (MassEntry.note e) (MassEntry.tags e)
              (MassEntry.loggedAt e) synced (MassEntry.createdAt e) now.

Definition messagesOf (outs : list (SyncMutation.t * option string)) : list string :=
  flat_map (fun o => match snd o with Some e => [e] | None => [] end) outs.

Definition deliveredIn (outs : list (SyncMutation.t * option string)) : nat :=
  List.length (filter (fun o => match snd o with None => true | Some _ => false end) outs).

(** [Shrunk q q']: [q'] is [q] with some intents removed and the others
    kept in place with their id and creation time. *)
Inductive Shrunk : list SyncMutation.t -> list SyncMutation.t -> Prop :=
| Shrunk_nil : Shrunk [] []
| Shrunk_drop (x : SyncMutation.t) (l l' : list SyncMutation.t) :
    Shrunk l l' -> Shrunk (x :: l) l'
| Shrunk_keep (x x' : SyncMutation.t) (l l' : list SyncMutation.t) :
    SyncMutation.id x' = SyncMutation.id x ->
    SyncMutation.createdAt x' = SyncMutation.createdAt x ->
    Shrunk l l' -> Shrunk (x :: l) (x' :: l').

Section RunVocabulary.
Variables (host : Host) (raw : option string) (token : option string).

(** The remote's verdict on each intent of a page, in sending order,
    starting from the requests already sent. *)
Fixpoint outcomes (history : list Request) (page : list SyncMutation.t)
  : list (SyncMutation.t * option string) :=
  match page with
  | [] => []
  | m :: rest =>
      let req := mutationRequest raw m token in
      (m, failureOf (reply host history req)) :: outcomes (history ++ [req]) rest
  end.

(** Effect of one turn of the loop. *)
Definition iteration (st : SyncLocals * Sys) (m : SyncMutation.t) : SyncLocals * Sys :=
  let locals := fst st in
  let s := snd st in
  let w := web s in
  let req := mutationRequest raw m token in
  let now := clockAt host (clockReads s) in
  match failureOf (reply host (sent s) req) with
  | None =>
      (mkSyncLocals (localSynced locals + 1) (localErrors locals),
       mkSys (mkWebState
                (map (withStatus (SyncMutation.entityId m) synced now) (massEntries w))
                (filter (isNotMutation (SyncMutation.id m)) (syncQueue w))
                (profile w) (settings w))
             (sent s ++ [req]) (S (clockReads s)) (idsDrawn s))
  | Some message =>
      (mkSyncLocals (localSynced locals) (localErrors locals ++ [message]),
       mkSys (mkWebState (massEntries w)
                (map (withError (SyncMutation.id m) message now) (syncQueue w))
                (profile w) (settings w))
             (sent s ++ [req]) (S (clockReads s)) (idsDrawn s))
  end.

End RunVocabulary.

(** *** Concrete hosts and stores *)

(** A remote that answers the n-th request with the n-th status of a list
    (200 beyond it) and an empty body. *)
Definition scriptedHost (statuses : list nat) : Host :=
  mkHost (fun history _ =>
            FetchResponds (mkResponse (nth (List.length history) statuses 200) EmptyString))
         (fun n => (1000 + Z.of_nat n)%Z)
         (fun n => ("id-" ++ natToString n)%string).

Definition intentAt (n : nat) : SyncMutation.t :=
  SyncMutation.mk ("m" ++ natToString n)%string ("e" ++ natToString n)%string
                  create JNull 0 None (Z.of_nat n) (Z.of_nat n).

Definition entryOf (id : string) (status : SyncStatus) : MassEntry.t :=
  MassEntry.mk id "default" (Finite (704 # 10)) kg None (Some []) 1%Z status 1%Z 1%Z.

(** Scenario C: two intents, the first answered 500, the second 200. *)
Definition scenarioC : Sys :=
  mkSys (mkWebState [entryOf "e2" pending; entryOf "e1" pending]
                    [intentAt 2; intentAt 1] None DEFAULT_SETTINGS)
        [] 0 0.

(** Two intents for the same entity. *)
Definition sameEntity : Sys :=
  mkSys (mkWebState [entryOf "e1" pending]
           [SyncMutation.mk "m1" "e1" create JNull 0 None 1%Z 1%Z;
            SyncMutation.mk "m2" "e1" update JNull 0 None 2%Z 2%Z]
           None DEFAULT_SETTINGS)
        [] 0 0.


(** [a] occurs in [l] with [b] somewhere after it. *)
Definition precedes {A : Type} (a b : A) (l : list A) : Prop :=
  exists l1 rest : list A, l = l1 ++ a :: rest /\ In b rest.


(* ===================================================================== *)
(** ** Vocabulary of the further properties *)
(* ===================================================================== *)

(** [entry => profileId ? entry.profileId === profileId : true], the filter
    of [listMassEntries]. *)
Definition ofProfile (profileId : option string) (entry : MassEntry.t) : bool :=
  match profileId with
  | Some p => if truthy p then String.eqb (MassEntry.profileId entry) p else true
  | None => true
  end.

(** The ids of the intents a run delivered. *)
Definition deliveredIds (outs : list (SyncMutation.t * option string)) : list string :=
  map (fun o => SyncMutation.id (fst o))
      (filter (fun o => match snd o with None => true | Some _ => false end) outs).

(** [i] is none of the ids [ids]. *)
Definition noneOf (ids : list string) (i : string) : bool :=
  negb (existsb (String.eqb i) ids).

(** The last character of a text, if any. *)
Fixpoint lastChar (s : string) : option ascii :=
  match s with
  | EmptyString => None
  | String c rest =>
      match lastChar rest with
      | Some d => Some d
      | None => Some c
      end
  end.

(* ===================================================================== *)
(** ** Further embedding: payloads, seeding, stores and screens *)
(* ===================================================================== *)

(** Conversions supplied by the platform: the text of a finite number as
    [JSON.stringify] prints it, [Date.prototype.toISOString], and
    [Number.parseFloat]. *)
Record Platform : Type := mkPlatform {
  numberText : number -> string;
  isoText : timestamp -> string;
  Number_parseFloat : string -> number
}.

Definition unitText (u : MassUnit) : string :=
  match u with kg => "kg" | lb => "lb" end.

Definition statusText (status : SyncStatus) : string :=
  match status with
  | pending => "pending"
  | synced => "synced"
  | failed => "failed"
  end.


(** [error instanceof Error ? error.message : fallback]. *)
Definition messageOr (fallback : string) (error : thrown) : string :=
  match error with
  | ErrorObject message => message
  | NotAnError => fallback
  end.

(** [initializeDatabase()] on the in-memory backend: [ensureWebState()]
    and nothing else. *)
Definition initializeDatabase : Async unit := ret tt.

Module MassStore.
Record t : Type := mk {
  entries : list MassEntry.t;
  isHydrated : bool
}.
End MassStore.

Module ProfileStore.
Record t : Type := mk {
  profile : option UserProfile.t;
  isHydrated : bool
}.
End ProfileStore.

(** The sync card of a screen: [syncMessage] and [isSyncing]. *)
Record SyncPanel : Type := mkSyncPanel {
  syncMessage : option string;
  isSyncing : bool
}.

(** The seed card of the settings screen: [seedMessage] and [isSeeding]. *)
Record SeedPanel : Type := mkSeedPanel {
  seedMessage : option string;
  isSeeding : bool
}.

(** The quick-add form of the home screen. *)
Module QuickAdd.
Record t : Type := mk {
  unit : MassUnit;
  massValue : string;
  note : string;
  error : option string;
  isSubmitting : bool;
  isQuickAddVisible : bool;
  isCameraScannerVisible : bool;
  scanFeedback : option string
}.
End QuickAdd.

(** The form of the profile screen. *)
Module ProfileForm.
Record t : Type := mk {
  fullName : string;
  email : string;
  bio : string;
  goalMass : string;
  unitPreference : MassUnit;
  saving : bool;
  statusMessage : option string
}.
End ProfileForm.


Section App.
Variable host : Host.
Variable rawSyncEndpoint : option string.
Variable platform : Platform.
(** [login()] of the authentication hook: opens the browser. *)
Variable login : Async unit.

(** A number as [JSON.stringify] prints it: [null] unless finite. *)
Definition jsonNumber (n : number) : json :=
  if Number_isFinite n then JNum (numberText platform n) else JNull.

(** [normalizePayload(entry)] as [JSON.stringify] sees it: the keys whose
    value is [undefined] are left out. *)
Definition normalizePayload (entry : MassEntry.t) : json :=
  JObj ([("id", JStr (MassEntry.id entry));
         ("profileId", JStr (MassEntry.profileId entry));
         ("mass", jsonNumber (MassEntry.mass entry));
         ("unit", JStr (unitText (MassEntry.unit entry)))]
        ++ match MassEntry.note entry with
           | Some text => [("note", JStr text)]
           | None => []
           end
        ++ match MassEntry.tags entry with
           | Some l => [("tags", JArr (map JStr l))]
           | None => []
           end
        ++ [("loggedAt", JStr (isoText platform (MassEntry.loggedAt entry)));
            ("status", JStr (statusText (MassEntry.status entry)));
            ("createdAt", JStr (isoText platform (MassEntry.createdAt entry)));
            ("updatedAt", JStr (isoText platform (MassEntry.updatedAt entry)))]).

(** [{ ...entry }]; a missing note is the [null] that [createMassEntry]
    stores. *)
Definition entryCopy (entry : MassEntry.t) : json :=
  JObj ([("id", JStr (MassEntry.id entry));
         ("profileId", JStr (MassEntry.profileId entry));
         ("mass", jsonNumber (MassEntry.mass entry));
         ("unit", JStr (unitText (MassEntry.unit entry)));
         ("note", match MassEntry.note entry with
                  | Some text => JStr text
                  | None => JNull
                  end)]
        ++ match MassEntry.tags entry with
           | Some l => [("tags", JArr (map JStr l))]
           | None => []
           end
        ++ [("loggedAt", JStr (isoText platform (MassEntry.loggedAt entry)));
            ("status", JStr (statusText (MassEntry.status entry)));
            ("createdAt", JStr (isoText platform (MassEntry.createdAt entry)));
            ("updatedAt", JStr (isoText platform (MassEntry.updatedAt entry)))]).

Definition queueMassEntryCreate (entry : MassEntry.t) : Async string :=
  enqueueMutation host (MassEntry.id entry) create (entryCopy entry).

(** The request [seedEntries] sends for one entry. *)
Definition seedRequest (base : string) (token : option string) (entry : MassEntry.t)
  : Request :=
  mkRequest base "POST" (buildHeaders token)
            (Some (JSON_stringify (normalizePayload entry))).

(** Body of the [for ... of entries] loop of [seedEntries]. *)
Definition seedLoopBody (base : string) (token : option string)
  (entry : MassEntry.t) (_ : unit) : Async unit :=
  tryCatch
    (response <- fetch host (seedRequest base token entry) ;;
     if (negb (ok response) && negb (Nat.eqb (responseStatus response) 409))%bool then
       let message := responseText response in
       throw (ErrorObject
                (if truthy message then message
                 else ("Failed to seed entry " ++ MassEntry.id entry)%string))
     else ret tt)
    (fun _ => ret tt).

Definition seedEntries (entries : list MassEntry.t) (token : option string) : Async unit :=
  if falsy (SYNC_ENDPOINT rawSyncEndpoint) then
    throw (ErrorObject "SYNC_ENDPOINT is not configured")
  else if falsy token then
    throw (ErrorObject "Authentication token missing for seeding")
  else
    let base := option_map stripTrailingSlash (SYNC_ENDPOINT rawSyncEndpoint) in
    if falsy base then throw (ErrorObject "SYNC_ENDPOINT is not configured")
    else
      forOf (seedLoopBody (match base with Some b => b | None => EmptyString end) token)
            entries tt.

(** *** [useMassStore] *)

Definition addEntry (store : MassStore.t) (input : MassEntryInput.t)
  : Async (MassEntry.t * MassStore.t) :=
  initializeDatabase ;;;
  entry <- createMassEntry host input ;;
  let store' := MassStore.mk (entry :: MassStore.entries store)
                             (MassStore.isHydrated store) in
  queueMassEntryCreate entry ;;;
  ret (entry, store').

Definition markEntryStatus (store : MassStore.t) (id : string) (status : SyncStatus)
  : Async MassStore.t :=
  updateMassEntryStatus host id status ;;;
  ret (MassStore.mk
         (map (fun entry =>
                 if String.eqb (MassEntry.id entry) id
                 then MassEntry.mk (MassEntry.id entry) (MassEntry.profileId entry)
                        (MassEntry.mass entry) (MassEntry.unit entry)
                        (MassEntry.note entry) (MassEntry.tags entry)
                        (MassEntry.loggedAt entry) status
                        (MassEntry.createdAt entry) (MassEntry.updatedAt entry)
                 else entry)
              (MassStore.entries store))
         (MassStore.isHydrated store)).

(** *** [useProfileStore] *)

Definition profileSave (input : UserProfileInput.t)
  : Async (UserProfile.t * ProfileStore.t) :=
  initializeDatabase ;;;
  updated <- saveUserProfile host input ;;
  ret (updated, ProfileStore.mk (Some updated) true).

(** *** [useSettingsStore] *)

(** [setLastSync(timestamp)] of the store whose state holds [current]. *)
Definition setLastSync (current : AppSettings.t) (timestamp : string)
  : Async AppSettings.t :=
  saveAppSettings
    (AppSettings.mk (AppSettings.autoSync current) (AppSettings.remindersEnabled current)
                    (AppSettings.reminderHour current) (Some timestamp)
                    (AppSettings.reminderNotificationId current)).

(** *** Settings screen *)

Definition handleSyncNow (accessToken : option string) (current : AppSettings.t)
  : Async (SyncPanel * AppSettings.t) :=
  outcome <-
    tryCatch
      (if falsy accessToken then
         login ;;; ret (Some "Please log in to sync.", current)
       else
         stats <- syncPendingEntries host rawSyncEndpoint accessToken ;;
         if SyncStats.skipped stats then
           ret (Some ("Sync skipped: "
                      ++ match SyncStats.reason stats with
                         | Some text => text
                         | None => "feature disabled"
                         end)%string, current)
         else
           let message :=
             ("Synced " ++ natToString (SyncStats.synced stats) ++ "/"
              ++ natToString (SyncStats.attempted stats) ++ " changes")%string in
           now <- nowISO host ;;
           updated <- setLastSync current (isoText platform now) ;;
           ret (Some message, updated))
      (fun error =>
         ret (Some ("Sync failed: " ++ messageOr "Unknown error" error)%string, current)) ;;
  ret (mkSyncPanel (fst outcome) false, snd outcome).

Definition handleManualSeed (accessToken : option string) (entries : list MassEntry.t)
  (panel : SeedPanel) : Async SeedPanel :=
  if falsy accessToken then ret panel
  else
    message <-
      tryCatch
        (seedEntries entries accessToken ;;;
         ret "Remote entries seeded successfully.")
        (fun error => ret (messageOr "Failed to seed entries" error)) ;;
    ret (mkSeedPanel (Some message) false).

Definition handleAutoSyncToggle (value : bool) (accessToken : option string)
  (current : AppSettings.t) (entries : list MassEntry.t) (panel : SeedPanel)
  : Async (AppSettings.t * SeedPanel) :=
  updated <- SettingsStore.update current
               (PartialSettings.mk (Some value) None None None None) ;;
  if (value && negb (falsy accessToken))%bool then
    panel' <- handleManualSeed accessToken entries panel ;;
    ret (updated, panel')
  else ret (updated, panel).

(** *** Home screen *)

Definition handleDashboardSync (accessToken : option string) (current : AppSettings.t)
  : Async (SyncPanel * AppSettings.t) :=
  outcome <-
    tryCatch
      (stats <- syncPendingEntries host rawSyncEndpoint accessToken ;;
       if SyncStats.skipped stats then
         ret (Some ("Sync skipped: "
                    ++ match SyncStats.reason stats with
                       | Some text => text
                       | None => "feature disabled"
                       end)%string, current)
       else
         let message :=
           ("Synced " ++ natToString (SyncStats.synced stats) ++ "/"
            ++ natToString (SyncStats.attempted stats) ++ " changes")%string in
         if Nat.ltb 0 (SyncStats.attempted stats) then
           now <- nowISO host ;;
           updated <- setLastSync current (isoText platform now) ;;
           ret (Some message, updated)
         else ret (Some message, current))
      (fun error =>
         ret (Some ("Sync failed: " ++ messageOr "Unknown error" error)%string, current)) ;;
  ret (mkSyncPanel (fst outcome) false, snd outcome).



(** *** Profile screen *)

Definition handleSave (form : ProfileForm.t) (store : ProfileStore.t)
  : Async (ProfileForm.t * ProfileStore.t) :=
  if negb (truthy (trim (ProfileForm.fullName form))) then ret (form, store)
  else
    outcome <-
      tryCatch
        (let parsedGoal :=
           if truthy (trim (ProfileForm.goalMass form))
           then Some (Number_parseFloat platform (ProfileForm.goalMass form))
           else None in
         saved <- profileSave
                    (UserProfileInput.mk (ProfileForm.fullName form)
                       (Some (ProfileForm.email form)) (Some (ProfileForm.bio form))
                       (Some (ProfileForm.unitPreference form))
                       (match parsedGoal with
                        | Some g => if Number_isNaN g then None else Some g
                        | None => None
                        end)) ;;
         ret ("Profile saved locally.", snd saved))
        (fun error => ret (messageOr "Unable to save profile" error, store)) ;;
    ret (ProfileForm.mk (ProfileForm.fullName form) (ProfileForm.email form)
                        (ProfileForm.bio form) (ProfileForm.goalMass form)
                        (ProfileForm.unitPreference form) false (Some (fst outcome)),
         snd outcome).

End App.

(* ===================================================================== *)
(** ** Further embedding: reminders, scheduler, stored blob *)
(* ===================================================================== *)

(** [Math.floor], [Math.max] and [Math.min]. *)
Definition Math_floor (n : number) : number :=
  match n with
  | Finite q => Finite (inject_Z (Qfloor q))
  | other => other
  end.

Definition Math_max (a b : number) : number :=
  if (Number_isNaN a || Number_isNaN b)%bool then NaN
  else if JS.lt a b then b else a.

Definition Math_min (a b : number) : number :=
  if (Number_isNaN a || Number_isNaN b)%bool then NaN
  else if JS.lt b a then b else a.

(** [services/reminders.ts] *)
Definition normalizeHour (hour : number) : number :=
  if (Number_isNaN hour || JS.lt hour (ofZ 0) || JS.gt hour (ofZ 23))%bool then ofZ 7
  else Math_floor hour.

Module NotificationTrigger.
Record t : Type := mk {
  hour : number;
  minute : number;
  repeats : bool
}.
End NotificationTrigger.

Definition buildTrigger (hour : number) : NotificationTrigger.t :=
  NotificationTrigger.mk (normalizeHour hour) (ofZ 0) true.

(** [clamp] of the home screen. *)
Definition clamp (value min max : number) : number :=
  Math_min max (Math_max min value).

(** *** [readWebState]: the stored blob *)

(** [object[key]] on a parsed object: the last member of that name. *)
Fixpoint member (key : Wide.text) (members : list (Wide.text * Wide.json))
  : option Wide.json :=
  match members with
  | [] => None
  | (k, v) :: rest =>
      match member key rest with
      | Some later => Some later
      | None => if Wide.textEqb k key then Some v else None
      end
  end.

(** [value ?? fallback] on an optional parsed value. *)
Definition orElse (value : option Wide.json) (fallback : Wide.json) : Wide.json :=
  match value with
  | Some Wide.JNull | None => fallback
  | Some v => v
  end.

(** The four parts of the stored state, still as parsed JSON; [None] for
    the settings stands for [DEFAULT_SETTINGS]. *)
Record RawWebState : Type := mkRawWebState {
  rawMassEntries : Wide.json;
  rawSyncQueue : Wide.json;
  rawProfile : Wide.json;
  rawSettings : option Wide.json
}.

Definition baseRawState : RawWebState :=
  mkRawWebState (Wide.JArr []) (Wide.JArr []) Wide.JNull None.

(** [readWebState()] given what [storage.getItem(WEB_STORAGE_KEY)] holds;
    [None] when there is no storage or no item. *)
Definition readWebState (stored : option Wide.text) : RawWebState :=
  match stored with
  | None => baseRawState
  | Some raw =>
      if negb (Wide.truthy raw) then baseRawState
      else
        match Wide.JSON_parse raw with
        | None => baseRawState
        | Some Wide.JNull => baseRawState
        | Some (Wide.JObj members) =>
            mkRawWebState
              (orElse (member (Wide.ofString "massEntries") members) (Wide.JArr []))
              (orElse (member (Wide.ofString "syncQueue") members) (Wide.JArr []))
              (orElse (member (Wide.ofString "profile") members) Wide.JNull)
              (match member (Wide.ofString "settings") members with
               | Some Wide.JNull | None => None
               | Some v => Some v
               end)
        | Some _ => baseRawState
        end
  end.

(** *** [hooks/use-offline-sync.ts], one lifetime of the effect *)

Module OfflineSync.

Record Options : Type := mkOptions {
  enabled : bool;
  intervalMs : nat
}.

Definition defaultOptions : Options := mkOptions true (2 * 60 * 1000).

(** What the effect holds: [isMounted], whether [subscription] is a live
    listener, whether [timerRef.current] is a live interval, and whether
    [setup()] is still awaiting its first run. *)
Record t : Type := mk {
  isMounted : bool;
  subscription : bool;
  timer : bool;
  settingUp : bool
}.

Definition initial : t := mk false false false false.

(** What can happen to the hook: the effect runs; the first run that
    [setup] awaits completes; the network listener is called; the interval
    fires; the effect's cleanup runs. *)
Inductive event : Type :=
| Mount (options : Options)
| FirstRunDone
| NetworkState (isConnected : bool) (isInternetReachable : option bool)
| Tick
| Unmount.

Section Hook.
Variable host : Host.
Variable rawSyncEndpoint : option string.

Definition runSync : Async unit :=
  tryCatch (syncPendingEntries host rawSyncEndpoint None ;;; ret tt)
           (fun _ => ret tt).

Definition step (event : event) (hook : t) : Async t :=
  match event with
  | Mount options =>
      if negb (enabled options) then ret hook
      else ret (mk true (subscription hook) (timer hook) true)
  | FirstRunDone =>
      if settingUp hook then
        runSync ;;;
        ret (mk (isMounted hook) true true false)
      else ret hook
  | NetworkState isConnected isInternetReachable =>
      if subscription hook then
        if negb (isMounted hook) then ret hook
        else if (isConnected
                 && match isInternetReachable with Some b => b | None => false end)%bool
             then runSync ;;; ret hook
             else ret hook
      else ret hook
  | Tick =>
      if timer hook then runSync ;;; ret hook else ret hook
  | Unmount =>
      ret (mk false false false (settingUp hook))
  end.

End Hook.

End OfflineSync.

(** The hook fed a sequence of events. *)
Definition offlineSyncRun (host : Host) (rawSyncEndpoint : option string)
  (events : list OfflineSync.event) (hook : OfflineSync.t) : Async OfflineSync.t :=
  forOf (OfflineSync.step host rawSyncEndpoint) events hook.

(** The event is the effect starting with the feature enabled. *)
Definition startsEnabled (e : OfflineSync.event) : bool :=
  match e with
  | OfflineSync.Mount options => OfflineSync.enabled options
  | _ => false
  end.

(** The text both sync cards show after a run that was not skipped. *)
Definition syncedText (stats : SyncStats.t) : string :=
  ("Synced " ++ natToString (SyncStats.synced stats) ++ "/"
   ++ natToString (SyncStats.attempted stats) ++ " changes")%string.

(** The state after [n] sync runs without a token, one after the other. *)
Definition afterRuns (host : Host) (rawSyncEndpoint : option string) (n : nat)
  (s : Sys) : Sys :=
  Nat.iter n (fun s' => snd (syncPendingEntries host rawSyncEndpoint None s')) s.

(** The event is the interval firing. *)
Definition isTick (e : OfflineSync.event) : bool :=
  match e with
  | OfflineSync.Tick => true
  | _ => false
  end.

(** The event is the interval firing or the network listener being called. *)
Definition isTickOrNetwork (e : OfflineSync.event) : bool :=
  match e with
  | OfflineSync.Tick | OfflineSync.NetworkState _ _ => true
  | _ => false
  end.

(* ===================================================================== *)
(** ** Properties: JSON text and tag serialization *)
(* ===================================================================== *)

Lemma string_app_assoc (a b c : string) :
  ((a ++ b) ++ c)%string = (a ++ (b ++ c))%string.
Proof. induction a as [|x a IH]; simpl; congruence. Qed.

Lemma string_app_length (a b : string) :
  String.length (a ++ b)%string = String.length a + String.length b.
Proof. induction a as [|x a IH]; simpl; congruence. Qed.

Section WideText.
Import Wide.

Lemma hexValue_hexDigit (d : N) :
  (d < 16)%N -> hexValue (hexDigit d) = Some d.
Proof.
  intros Hd. unfold hexDigit, hexValue.
  destruct (N.ltb_spec d 10) as [Hlow|Hhigh].
  - replace ((48 <=? 48 + d) && (48 + d <=? 57))%N with true.
    + f_equal. lia.
    + symmetry. apply andb_true_iff. split; apply N.leb_le; lia.
  - replace ((48 <=? 87 + d) && (87 + d <=? 57))%N with false.
    + replace ((97 <=? 87 + d) && (87 + d <=? 102))%N with true.
      * f_equal. lia.
      * symmetry. apply andb_true_iff. split; apply N.leb_le; lia.
    + symmetry. apply andb_false_iff. right. apply N.leb_gt. lia.
Qed.

(** The four digits of an escape give back the code unit. *)
Lemma hex4_digits (u : N) :
  (u < 65536)%N ->
  hex4 (hexDigit (u / 4096)) (hexDigit ((u / 256) mod 16))
       (hexDigit ((u / 16) mod 16)) (hexDigit (u mod 16)) = Some u.
Proof.
  intros Hu. unfold hex4.
  rewrite !hexValue_hexDigit;
    try (apply N.mod_lt; discriminate);
    try (apply N.Div0.div_lt_upper_bound; lia).
  f_equal.
  pose proof (N.div_mod u 16) as H1.
  pose proof (N.div_mod (u / 16) 16) as H2.
  pose proof (N.div_mod (u / 256) 16) as H3.
  replace (u / 16 / 16)%N with (u / 256)%N in H2
    by (rewrite N.Div0.div_div; reflexivity).
  replace (u / 256 / 16)%N with (u / 4096)%N in H3
    by (rewrite N.Div0.div_div; reflexivity).
  specialize (H1 ltac:(discriminate)).
  specialize (H2 ltac:(discriminate)).
  specialize (H3 ltac:(discriminate)).
  lia.
Qed.

(** Reading back an escape. *)
Lemma parseChars_unicodeEscape (u : N) (tail : text) :
  (u < 65536)%N ->
  parseChars (unicodeEscape u ++ tail) = consUnit u (parseChars tail).
Proof.
  intros Hu. unfold unicodeEscape. cbn [app parseChars].
  change (92 =? 34)%N with false. change (92 =? 92)%N with true.
  change (117 =? 34)%N with false. change (117 =? 92)%N with false.
  change (117 =? 47)%N with false. change (117 =? 98)%N with false.
  change (117 =? 102)%N with false. change (117 =? 110)%N with false.
  change (117 =? 114)%N with false. change (117 =? 116)%N with false.
  change (117 =? 117)%N with true. cbv iota.
  now rewrite hex4_digits.
Qed.

(** Reading back a code unit printed as it is. *)
Lemma parseChars_raw (u : N) (tail : text) :
  u <> 34%N -> u <> 92%N -> (32 <= u)%N ->
  parseChars (u :: tail) = consUnit u (parseChars tail).
Proof.
  intros Hquote Hback Hprint. cbn [parseChars].
  apply N.eqb_neq in Hquote, Hback. rewrite Hquote, Hback.
  now replace (u <? 32)%N with false by (symmetry; apply N.ltb_ge; exact Hprint).
Qed.

Lemma parseChars_escapeUnit (u : N) (tail : text) :
  parseChars (escapeUnit u ++ tail) = consUnit u (parseChars tail).
Proof.
  unfold escapeUnit.
  destruct (N.eqb_spec u 34) as [->|H34]; [reflexivity|].
  destruct (N.eqb_spec u 92) as [->|H92]; [reflexivity|].
  destruct (N.eqb_spec u 8) as [->|H8]; [reflexivity|].
  destruct (N.eqb_spec u 12) as [->|H12]; [reflexivity|].
  destruct (N.eqb_spec u 10) as [->|H10]; [reflexivity|].
  destruct (N.eqb_spec u 13) as [->|H13]; [reflexivity|].
  destruct (N.eqb_spec u 9) as [->|H9]; [reflexivity|].
  destruct (N.ltb_spec u 32) as [Hlow|Hhigh].
  - apply parseChars_unicodeEscape. lia.
  - now apply parseChars_raw.
Qed.

Lemma surrogate_bounds (u : N) :
  (isLeadingSurrogate u || isTrailingSurrogate u)%bool = true ->
  u <> 34%N /\ u <> 92%N /\ (32 <= u)%N /\ (u < 65536)%N.
Proof.
  unfold isLeadingSurrogate, isTrailingSurrogate. intros H.
  apply orb_true_iff in H as [H|H]; apply andb_true_iff in H as [Hlow Hhigh];
    apply N.leb_le in Hlow, Hhigh; repeat split; lia.
Qed.

(** The contents of a printed string, read back up to the closing quote. *)
Lemma parseChars_escape (s : text) :
  forall tail : text, parseChars (escape s ++ 34%N :: tail) = Some (s, tail).
Proof.
  assert (Hlen : forall (n : nat) (s : text) (tail : text),
             List.length s <= n ->
             parseChars (escape s ++ 34%N :: tail) = Some (s, tail)).
  { intros n. induction n as [|n IH]; intros s0 tail Hn.
    - destruct s0; [reflexivity|simpl in Hn; lia].
    - destruct s0 as [|u rest]; [reflexivity|].
      cbn [List.length] in Hn. cbn [escape].
      destruct (isLeadingSurrogate u) eqn:Hlead.
      + destruct (surrogate_bounds u) as (Hq & Hb & Hp & Hu);
          [now rewrite Hlead|].
        destruct rest as [|v rest'].
        * rewrite parseChars_unicodeEscape by exact Hu. reflexivity.
        * destruct (isTrailingSurrogate v) eqn:Htrail.
          -- destruct (surrogate_bounds v) as (Hq' & Hb' & Hp' & _);
               [now rewrite Htrail, orb_true_r|].
             cbn [app]. rewrite parseChars_raw by assumption.
             rewrite parseChars_raw by assumption.
             rewrite IH by (cbn [List.length] in Hn; lia). reflexivity.
          -- rewrite <- app_assoc, parseChars_unicodeEscape by exact Hu.
             rewrite IH by (cbn [List.length] in Hn |- *; lia). reflexivity.
      + destruct (isTrailingSurrogate u) eqn:Htrail.
        * destruct (surrogate_bounds u) as (_ & _ & _ & Hu);
            [now rewrite Htrail, orb_true_r|].
          rewrite <- app_assoc, parseChars_unicodeEscape by exact Hu.
          rewrite IH by lia. reflexivity.
        * rewrite <- app_assoc, parseChars_escapeUnit.
          rewrite IH by lia. reflexivity. }
  intros tail. now apply (Hlen (List.length s)).
Qed.

(** A quoted string read as a value. *)
Lemma parseWith_quoted (fuel : nat) (t tail : text) :
  parseWith (S fuel) GValue (quote t ++ tail) = Some (JStr t, tail).
Proof.
  unfold quote. cbn [app parseWith skipWs].
  change (isJsonWs 34) with false. cbv iota.
  change (34 =? 91)%N with false. change (34 =? 123)%N with false.
  change (34 =? 34)%N with true. cbv iota.
  rewrite <- app_assoc. cbn [app]. now rewrite parseChars_escape.
Qed.

Lemma parseWith_elems_step (fuel : nat) (acc : list json) (s : text) :
  parseWith (S fuel) (GElems acc) s =
  match parseWith fuel GValue s with
  | None => None
  | Some (v, tail) =>
      match skipWs tail with
      | [] => None
      | u :: rest =>
          if (u =? 44)%N then parseWith fuel (GElems (v :: acc)) rest
          else if (u =? 93)%N then Some (JArr (rev (v :: acc)), rest)
          else None
      end
  end.
Proof. reflexivity. Qed.

(** The elements of a printed array of strings, read back in order. *)
Lemma parse_elements (ts : list text) :
  forall (t : text) (acc : list json) (fuel : nat) (tail : text),
    List.length ts + 2 <= fuel ->
    parseWith fuel (GElems acc) (joinComma (map quote (t :: ts)) ++ 93%N :: tail)
    = Some (JArr (rev acc ++ map JStr (t :: ts)), tail).
Proof.
  induction ts as [|t2 ts IH]; intros t acc fuel tail Hfuel.
  - destruct fuel as [|[|fuel]]; [simpl in Hfuel; lia ..|].
    rewrite parseWith_elems_step.
    cbn [map joinComma]. rewrite parseWith_quoted. reflexivity.
  - destruct fuel as [|[|fuel]]; [simpl in Hfuel; lia ..|].
    rewrite parseWith_elems_step.
    change (joinComma (map quote (t :: t2 :: ts)))
      with (quote t ++ 44%N :: joinComma (map quote (t2 :: ts))).
    rewrite <- app_assoc, parseWith_quoted.
    cbn [app skipWs].
    change (isJsonWs 44) with false. cbv iota.
    change (44 =? 44)%N with true. cbv iota.
    rewrite IH by (simpl in Hfuel |- *; lia).
    cbn [rev map]. now rewrite <- app_assoc.
Qed.

Lemma joinComma_quote_length (l : list text) :
  List.length l <= List.length (joinComma (map quote l)) + 1.
Proof.
  induction l as [|t [|t2 l] IH].
  - simpl; lia.
  - simpl; lia.
  - change (joinComma (map quote (t :: t2 :: l)))
      with (quote t ++ 44%N :: joinComma (map quote (t2 :: l))).
    rewrite length_app. cbn [List.length] in *. lia.
Qed.

Lemma stringify_strings (l : list text) :
  map JSON_stringify (map JStr l) = map quote l.
Proof. rewrite map_map. apply map_ext. reflexivity. Qed.

(** [JSON.parse(JSON.stringify(tags))] for a non-empty array of strings. *)
Lemma JSON_parse_stringify_strings (t : text) (ts : list text) :
  JSON_parse (JSON_stringify (JArr (map JStr (t :: ts)))) = Some (JArr (map JStr (t :: ts))).
Proof.
  unfold JSON_parse.
  cbn [JSON_stringify]. rewrite stringify_strings.
  set (printed := (91 :: joinComma (map quote (t :: ts)) ++ [93])%N).
  assert (Hlen : List.length ts + 2 <= 2 * List.length printed + 1).
  { subst printed. cbn [List.length]. rewrite length_app.
    pose proof (joinComma_quote_length (t :: ts)) as H.
    cbn [List.length] in *. lia. }
  replace (2 * List.length printed + 2) with (S (2 * List.length printed + 1)) by lia.
  assert (Hstep : parseWith (S (2 * List.length printed + 1)) GValue printed
                  = parseWith (2 * List.length printed + 1) (GElems [])
                      (joinComma (map quote (t :: ts)) ++ [93%N])).
  { subst printed.
    assert (Hhead : exists rest, joinComma (map quote (t :: ts)) ++ [93%N] = 34%N :: rest).
    { destruct ts as [|t2 ts]; cbn [map joinComma]; unfold quote at 1;
        cbn [app]; eauto. }
    destruct Hhead as [rest Hrest].
    cbn [parseWith skipWs]. change (isJsonWs 91) with false. cbv iota.
    change (91 =? 91)%N with true. cbv iota.
    rewrite Hrest. cbn [skipWs]. change (isJsonWs 34) with false. cbv iota.
    change (34 =? 93)%N with false. cbv iota. reflexivity. }
  rewrite Hstep.
  rewrite (parse_elements ts t [] _ [] Hlen).
  reflexivity.
Qed.

End WideText.

(** *** JSON text read back *)

Section ReadBack.
Import Wide.

Lemma spanDigits_concat (l : text) :
  forall d r, spanDigits l = (d, r) -> l = d ++ r.
Proof.
  induction l as [|u l IH]; intros d r H; cbn [spanDigits] in H.
  - now injection H as <- <-.
  - destruct (isDigit u).
    + destruct (spanDigits l) as [d' r'] eqn:E. injection H as <- <-.
      cbn [app]. f_equal. now apply IH.
    + now injection H as <- <-.
Qed.

Lemma spanDigits_app (l tail : text) :
  forall d r,
    spanDigits l = (d, r) -> endsNumber tail = true ->
    spanDigits (l ++ tail) = (d, r ++ tail).
Proof.
  induction l as [|u l IH]; intros d r H Hend; cbn [spanDigits app] in *.
  - injection H as <- <-. destruct tail as [|v tail]; [reflexivity|].
    cbn [spanDigits]. cbn [endsNumber] in Hend.
    apply negb_true_iff in Hend. apply orb_false_iff in Hend as [Hend _].
    apply orb_false_iff in Hend as [Hend _]. apply orb_false_iff in Hend as [Hend _].
    now rewrite Hend.
  - destruct (isDigit u).
    + destruct (spanDigits l) as [d' r'] eqn:E. injection H as <- <-.
      now rewrite (IH d' r' eq_refl Hend).
    + now injection H as <- <-.
Qed.

Lemma parseInteger_concat (l : text) :
  forall i r, parseInteger l = Some (i, r) -> l = i ++ r.
Proof.
  intros i r H. destruct l as [|u l]; [discriminate|]. cbn [parseInteger] in H.
  destruct (u =? 48)%N.
  - now injection H as <- <-.
  - destruct (isDigit u); [|discriminate]. injection H as H.
    now apply spanDigits_concat.
Qed.

Lemma parseInteger_app (l tail : text) :
  forall i r,
    parseInteger l = Some (i, r) -> endsNumber tail = true ->
    parseInteger (l ++ tail) = Some (i, r ++ tail).
Proof.
  intros i r H Hend. destruct l as [|u l]; [discriminate|].
  cbn [parseInteger app] in *.
  destruct (u =? 48)%N.
  - now injection H as <- <-.
  - destruct (isDigit u); [|discriminate]. injection H as H.
    change (u :: l ++ tail) with ((u :: l) ++ tail).
    now rewrite (spanDigits_app (u :: l) tail i r H Hend).
Qed.

Lemma endsNumber_head (u : N) (tail : text) :
  endsNumber (u :: tail) = true ->
  isDigit u = false /\ (u =? 46)%N = false /\ (u =? 101)%N = false /\ (u =? 69)%N = false.
Proof.
  cbn [endsNumber]. intros H. apply negb_true_iff in H.
  apply orb_false_iff in H as [H H69]. apply orb_false_iff in H as [H H101].
  apply orb_false_iff in H as [Hd H46]. auto.
Qed.

Lemma parseFraction_concat (l : text) :
  forall f r, parseFraction l = Some (f, r) -> l = f ++ r.
Proof.
  intros f r H. destruct l as [|u l]; cbn [parseFraction] in H.
  - now injection H as <- <-.
  - destruct (u =? 46)%N.
    + destruct (spanDigits l) as [[|d0 d] r'] eqn:E; [discriminate|].
      injection H as <- <-. cbn [app]. f_equal.
      exact (spanDigits_concat _ _ _ E).
    + now injection H as <- <-.
Qed.

Lemma parseFraction_app (l tail : text) :
  forall f r,
    parseFraction l = Some (f, r) -> endsNumber tail = true ->
    parseFraction (l ++ tail) = Some (f, r ++ tail).
Proof.
  intros f r H Hend. destruct l as [|u l]; cbn [parseFraction app] in *.
  - injection H as <- <-. destruct tail as [|v tail]; [reflexivity|].
    cbn [parseFraction].
    destruct (endsNumber_head v tail Hend) as (_ & H46 & _). now rewrite H46.
  - destruct (u =? 46)%N.
    + destruct (spanDigits l) as [[|d0 d] r'] eqn:E; [discriminate|].
      injection H as <- <-.
      now rewrite (spanDigits_app l tail (d0 :: d) r' E Hend).
    + now injection H as <- <-.
Qed.

Lemma parseExponent_concat (l : text) :
  forall e r, parseExponent l = Some (e, r) -> l = e ++ r.
Proof.
  intros e r H. destruct l as [|u l]; cbn [parseExponent] in H.
  - now injection H as <- <-.
  - destruct ((u =? 101) || (u =? 69))%N.
    + destruct l as [|g l1].
      * cbn [spanDigits] in H. discriminate.
      * destruct ((g =? 43) || (g =? 45))%N.
        -- destruct (spanDigits l1) as [[|d0 d] r'] eqn:E; [discriminate|].
           injection H as <- <-. cbn [app]. do 2 f_equal.
           exact (spanDigits_concat _ _ _ E).
        -- destruct (spanDigits (g :: l1)) as [[|d0 d] r'] eqn:E; [discriminate|].
           injection H as <- <-. cbn [app]. f_equal.
           exact (spanDigits_concat _ _ _ E).
    + now injection H as <- <-.
Qed.

Lemma parseExponent_app (l tail : text) :
  forall e r,
    parseExponent l = Some (e, r) -> endsNumber tail = true ->
    parseExponent (l ++ tail) = Some (e, r ++ tail).
Proof.
  intros e r H Hend. destruct l as [|u l]; cbn [parseExponent app] in *.
  - injection H as <- <-. destruct tail as [|v tail]; [reflexivity|].
    cbn [parseExponent].
    destruct (endsNumber_head v tail Hend) as (_ & _ & H101 & H69).
    now rewrite H101, H69.
  - destruct ((u =? 101) || (u =? 69))%N.
    + destruct l as [|g l1].
      * cbn [spanDigits] in H. discriminate.
      * cbn [app]. destruct ((g =? 43) || (g =? 45))%N.
        -- destruct (spanDigits l1) as [[|d0 d] r'] eqn:E; [discriminate|].
           injection H as <- <-.
           now rewrite (spanDigits_app l1 tail (d0 :: d) r' E Hend).
        -- destruct (spanDigits (g :: l1)) as [[|d0 d] r'] eqn:E; [discriminate|].
           injection H as <- <-.
           change (g :: l1 ++ tail) with ((g :: l1) ++ tail).
           now rewrite (spanDigits_app (g :: l1) tail (d0 :: d) r' E Hend).
    + now injection H as <- <-.
Qed.

Lemma numberTail_app (sign body tail x : text) :
  match parseInteger body with
  | None => None
  | Some (int, afterInt) =>
      match parseFraction afterInt with
      | None => None
      | Some (frac, afterFrac) =>
          match parseExponent afterFrac with
          | None => None
          | Some (exp, tail) => Some (sign ++ int ++ frac ++ exp, tail)
          end
      end
  end = Some (x, []) ->
  endsNumber tail = true ->
  match parseInteger (body ++ tail) with
  | None => None
  | Some (int, afterInt) =>
      match parseFraction afterInt with
      | None => None
      | Some (frac, afterFrac) =>
          match parseExponent afterFrac with
          | None => None
          | Some (exp, tail) => Some (sign ++ int ++ frac ++ exp, tail)
          end
      end
  end = Some (sign ++ body, tail).
Proof.
  intros E Hend.
  destruct (parseInteger body) as [[i afterInt]|] eqn:Ei; [|discriminate].
  destruct (parseFraction afterInt) as [[f afterFrac]|] eqn:Ef; [|discriminate].
  destruct (parseExponent afterFrac) as [[e r]|] eqn:Ee; [|discriminate].
  injection E as Hx Hr. subst r.
  pose proof (parseInteger_concat _ _ _ Ei) as Hc1.
  pose proof (parseFraction_concat _ _ _ Ef) as Hc2.
  pose proof (parseExponent_concat _ _ _ Ee) as Hc3.
  rewrite app_nil_r in Hc3.
  rewrite (parseInteger_app body tail i afterInt Ei Hend).
  rewrite (parseFraction_app afterInt tail f afterFrac Ef Hend).
  rewrite (parseExponent_app afterFrac tail e [] Ee Hend).
  cbn [app]. rewrite Hc1, Hc2, Hc3. reflexivity.
Qed.

(** A number read alone is read the same in front of text that does not
    continue it, and the lexeme is the text read. *)
Lemma parseNumber_app (l tail : text) :
  isNumberLexeme l = true -> endsNumber tail = true ->
  parseNumber (l ++ tail) = Some (l, tail).
Proof.
  unfold isNumberLexeme. intros H Hend.
  destruct (parseNumber l) as [[x r]|] eqn:E; [|discriminate].
  destruct r; [|discriminate]. clear H.
  unfold parseNumber in *.
  destruct l as [|u rest]; [discriminate E|].
  cbn [app]. destruct (u =? 45)%N.
  - exact (numberTail_app [u] rest tail x E Hend).
  - exact (numberTail_app [] (u :: rest) tail x E Hend).
Qed.

(** A number starts with a minus sign or a digit. *)
Lemma numberLexeme_head (l : text) :
  isNumberLexeme l = true ->
  exists u rest, l = u :: rest /\ ((u =? 45)%N || isDigit u)%bool = true.
Proof.
  unfold isNumberLexeme, parseNumber. intros H.
  destruct l as [|u rest]; [discriminate H|].
  exists u, rest. split; [reflexivity|].
  destruct (u =? 45)%N; [reflexivity|]. cbn [orb].
  cbn [parseInteger] in H.
  destruct (u =? 48)%N eqn:E48.
  - apply N.eqb_eq in E48. now subst u.
  - destruct (isDigit u); [reflexivity|discriminate H].
Qed.

End ReadBack.

Section ReadBackValue.
Import Wide.

Lemma wide_json_nested_ind (P : Wide.json -> Prop) :
  P JNull -> (forall b, P (JBool b)) -> (forall l, P (JNum l)) -> (forall s, P (JStr s)) ->
  (forall items, Forall P items -> P (JArr items)) ->
  (forall members, Forall (fun kv => P (snd kv)) members -> P (JObj members)) ->
  forall w, P w.
Proof.
  intros Hnull Hbool Hnum Hstr Harr Hobj.
  fix IH 1. intros [ | b | l | s | items | members].
  - exact Hnull.
  - apply Hbool.
  - apply Hnum.
  - apply Hstr.
  - apply Harr. induction items as [|item items IHitems]; constructor.
    + apply IH.
    + exact IHitems.
  - apply Hobj. induction members as [|[k v] members IHmembers]; constructor.
    + apply IH.
    + exact IHmembers.
Qed.

Lemma numberHead_dispatch (u : N) :
  ((u =? 45)%N || isDigit u)%bool = true ->
  isJsonWs u = false /\ (u =? 91)%N = false /\ (u =? 123)%N = false
  /\ (u =? 34)%N = false /\ (u =? 116)%N = false /\ (u =? 102)%N = false
  /\ (u =? 110)%N = false /\ (u =? 93)%N = false.
Proof.
  intros H.
  assert (Hu : u = 45%N \/ (48 <= u <= 57)%N).
  { apply orb_true_iff in H as [H|H].
    - left. now apply N.eqb_eq.
    - right. unfold isDigit in H. apply andb_true_iff in H as [H1 H2].
      apply N.leb_le in H1. apply N.leb_le in H2. lia. }
  unfold isJsonWs.
  repeat split; repeat (apply orb_false_iff; split); apply N.eqb_neq; lia.
Qed.

(** A printed value starts with a character that is neither white space
    nor a closing bracket. *)
Lemma stringify_head (w : Wide.json) :
  numbersPrinted w = true ->
  exists u rest, JSON_stringify w = u :: rest
                 /\ isJsonWs u = false /\ (u =? 93)%N = false.
Proof.
  intros Hw. destruct w as [ | [|] | l | s | items | members]; cbn [JSON_stringify].
  - now exists 110%N, [117; 108; 108]%N.
  - now exists 116%N, [114; 117; 101]%N.
  - now exists 102%N, [97; 108; 115; 101]%N.
  - cbn [numbersPrinted] in Hw.
    destruct (numberLexeme_head l Hw) as (u & rest & -> & Hu).
    exists u, rest. destruct (numberHead_dispatch u Hu) as (H1 & _ & _ & _ & _ & _ & _ & H8).
    auto.
  - unfold quote. now eexists _, _.
  - now eexists _, _.
  - now eexists _, _.
Qed.

Lemma parseWith_members_step (fuel : nat) (acc : list (text * json)) (k rest : text) :
  parseWith (S fuel) (GMembers acc) (quote k ++ 58%N :: rest) =
  match parseWith fuel GValue rest with
  | None => None
  | Some (v, tail) =>
      match skipWs tail with
      | [] => None
      | u3 :: rest3 =>
          if (u3 =? 44)%N
          then parseWith fuel (GMembers ((k, v) :: acc)) rest3
          else if (u3 =? 125)%N
               then Some (JObj (rev ((k, v) :: acc)), rest3)
               else None
      end
  end.
Proof.
  unfold quote. cbn [app parseWith skipWs].
  change (isJsonWs 34) with false. cbv iota.
  change (34 =? 34)%N with true. cbv iota.
  rewrite <- app_assoc. cbn [app]. rewrite parseChars_escape.
  cbn [skipWs]. change (isJsonWs 58) with false. cbv iota.
  change (58 =? 58)%N with true. cbv iota. reflexivity.
Qed.

Lemma fuel_monotone_shape (n m : nat) : S n <= m -> exists m', m = S m' /\ n <= m'.
Proof. intros H. destruct m as [|m']; [lia|]. exists m'. split; [reflexivity|lia]. Qed.

(** A printed value is read back, whatever follows it that does not
    continue a number. *)
Lemma parseWith_stringify (w : Wide.json) :
  numbersPrinted w = true ->
  forall (fuel : nat) (tail : text),
    cost w <= fuel -> endsNumber tail = true ->
    parseWith fuel GValue (JSON_stringify w ++ tail) = Some (w, tail).
Proof.
  induction w as [ | b | l | s | items IH | members IH] using wide_json_nested_ind;
    intros Hw fuel tail Hfuel Hend.
  - destruct (fuel_monotone_shape _ _ Hfuel) as (f & -> & _). reflexivity.
  - destruct (fuel_monotone_shape _ _ Hfuel) as (f & -> & _). destruct b; reflexivity.
  - destruct (fuel_monotone_shape _ _ Hfuel) as (f & -> & _).
    cbn [numbersPrinted] in Hw. cbn [JSON_stringify].
    destruct (numberLexeme_head l Hw) as (u & rest & El & Hu).
    destruct (numberHead_dispatch u Hu) as (H1 & H2 & H3 & H4 & H5 & H6 & H7 & _).
    pose proof (parseNumber_app l tail Hw Hend) as Hnum. subst l.
    cbn [app parseWith skipWs] in *. rewrite H1. cbv iota.
    rewrite H2, H3, H4, H5, H6, H7. now rewrite Hnum.
  - destruct (fuel_monotone_shape _ _ Hfuel) as (f & -> & _).
    apply parseWith_quoted.
  - (* arrays *)
    cbn [cost] in Hfuel.
    destruct (fuel_monotone_shape _ _ Hfuel) as (f & -> & Hf). clear Hfuel.
    cbn [numbersPrinted] in Hw.
    assert (Helems : forall items,
               Forall (fun w => numbersPrinted w = true ->
                                forall fuel tail, cost w <= fuel -> endsNumber tail = true ->
                                parseWith fuel GValue (JSON_stringify w ++ tail) = Some (w, tail))
                      items ->
               forall item acc fuel,
                 (numbersPrinted item = true ->
                  forall fuel tail, cost item <= fuel -> endsNumber tail = true ->
                  parseWith fuel GValue (JSON_stringify item ++ tail) = Some (item, tail)) ->
                 forallb numbersPrinted (item :: items) = true ->
                 list_sum (map (fun i => 1 + cost i) (item :: items)) <= fuel ->
                 parseWith fuel (GElems acc)
                   (joinComma (map JSON_stringify (item :: items)) ++ 93%N :: tail)
                 = Some (JArr (rev acc ++ item :: items), tail)).
    { clear. intros items Hall.
      induction Hall as [|item2 items Hitem2 Hall IHall];
        intros item acc fuel Hitem Hnums Hcost.
      - cbn [map list_sum forallb] in *. apply andb_true_iff in Hnums as [Hn _].
        destruct (fuel_monotone_shape (cost item + 0) fuel) as (f & -> & Hf);
          [simpl in Hcost |- *; lia|].
        rewrite parseWith_elems_step. cbn [joinComma].
        rewrite (Hitem Hn f (93%N :: tail)) by (try reflexivity; lia).
        reflexivity.
      - cbn [forallb] in Hnums. apply andb_true_iff in Hnums as [Hn Hrest].
        cbn [map list_sum] in Hcost.
        destruct (fuel_monotone_shape
                    (cost item + list_sum (map (fun i => 1 + cost i) (item2 :: items))) fuel)
          as (f & -> & Hf); [cbn [map list_sum]; simpl in Hcost |- *; lia|].
        rewrite parseWith_elems_step.
        change (joinComma (map JSON_stringify (item :: item2 :: items)))
          with (JSON_stringify item
                ++ 44%N :: joinComma (map JSON_stringify (item2 :: items))).
        rewrite <- app_assoc.
        rewrite (Hitem Hn f) by (try reflexivity; lia).
        cbn [app skipWs]. change (isJsonWs 44) with false. cbv iota.
        change (44 =? 44)%N with true. cbv iota.
        rewrite (IHall item2 (item :: acc) f Hitem2 Hrest) by lia.
        cbn [rev]. now rewrite <- app_assoc. }
    destruct items as [|item items]; [reflexivity|].
    inversion IH as [|? ? Hitem Hitems]; subst.
    assert (Hnum1 : numbersPrinted item = true).
    { cbn [forallb] in Hw. now apply andb_true_iff in Hw as [? _]. }
    destruct (stringify_head item Hnum1) as (u & rest & Eu & Hws & H93).
    cbn [JSON_stringify]. cbn [app parseWith skipWs].
    change (isJsonWs 91) with false. cbv iota.
    change (91 =? 91)%N with true. cbv iota.
    rewrite <- app_assoc. cbn [app].
    assert (Hpeek : exists rest', joinComma (map JSON_stringify (item :: items)) ++ 93%N :: tail
                                  = u :: rest').
    { destruct items as [|item2 items']; cbn [map joinComma]; rewrite Eu;
        cbn [app]; eauto. }
    destruct Hpeek as (rest' & Hpeek).
    rewrite Hpeek at 1. cbn [skipWs]. rewrite Hws, H93.
    apply (Helems items Hitems item [] f Hitem Hw Hf).
  - (* objects *)
    cbn [cost] in Hfuel.
    destruct (fuel_monotone_shape _ _ Hfuel) as (f & -> & Hf). clear Hfuel.
    cbn [numbersPrinted] in Hw.
    set (printMember := fun kv : text * json => quote (fst kv) ++ 58%N :: JSON_stringify (snd kv)).
    assert (Hmembers : forall members,
               Forall (fun kv => numbersPrinted (snd kv) = true ->
                                 forall fuel tail, cost (snd kv) <= fuel -> endsNumber tail = true ->
                                 parseWith fuel GValue (JSON_stringify (snd kv) ++ tail)
                                 = Some (snd kv, tail))
                      members ->
               forall member acc fuel,
                 (numbersPrinted (snd member) = true ->
                  forall fuel tail, cost (snd member) <= fuel -> endsNumber tail = true ->
                  parseWith fuel GValue (JSON_stringify (snd member) ++ tail)
                  = Some (snd member, tail)) ->
                 forallb (fun kv => numbersPrinted (snd kv)) (member :: members) = true ->
                 list_sum (map (fun kv => 1 + cost (snd kv)) (member :: members)) <= fuel ->
                 parseWith fuel (GMembers acc)
                   (joinComma (map printMember (member :: members)) ++ 125%N :: tail)
                 = Some (JObj (rev acc ++ member :: members), tail)).
    { clear. intros members Hall.
      induction Hall as [|member2 members Hmember2 Hall IHall];
        intros [k v] acc fuel Hmember Hnums Hcost; cbn [fst snd] in *.
      - cbn [map list_sum forallb fst snd] in *. apply andb_true_iff in Hnums as [Hn _].
        destruct (fuel_monotone_shape (cost v + 0) fuel) as (f & -> & Hf);
          [simpl in Hcost |- *; lia|].
        cbn [joinComma]. unfold printMember at 1. cbn [fst snd].
        rewrite <- app_assoc. cbn [app]. rewrite parseWith_members_step.
        rewrite (Hmember Hn f (125%N :: tail)) by (try reflexivity; lia).
        reflexivity.
      - cbn [forallb fst snd] in Hnums. apply andb_true_iff in Hnums as [Hn Hrest].
        cbn [map list_sum fst snd] in Hcost.
        destruct (fuel_monotone_shape
                    (cost v + list_sum (map (fun kv => 1 + cost (snd kv)) (member2 :: members)))
                    fuel)
          as (f & -> & Hf); [cbn [map list_sum]; simpl in Hcost |- *; lia|].
        change (joinComma (map printMember ((k, v) :: member2 :: members)))
          with ((quote k ++ 58%N :: JSON_stringify v)
                ++ 44%N :: joinComma (map printMember (member2 :: members))).
        rewrite <- !app_assoc. cbn [app]. rewrite parseWith_members_step.
        rewrite (Hmember Hn f) by (try reflexivity; lia).
        cbn [skipWs]. change (isJsonWs 44) with false. cbv iota.
        change (44 =? 44)%N with true. cbv iota.
        rewrite (IHall member2 ((k, v) :: acc) f Hmember2 Hrest) by lia.
        cbn [rev]. now rewrite <- app_assoc. }
    destruct members as [|member members]; [reflexivity|].
    inversion IH as [|? ? Hmember Hrest]; subst.
    cbn [JSON_stringify]. fold printMember. cbn [app parseWith skipWs].
    change (isJsonWs 123) with false. cbv iota.
    change (123 =? 91)%N with false. change (123 =? 123)%N with true. cbv iota.
    rewrite <- app_assoc. cbn [app].
    assert (Hpeek : exists rest', joinComma (map printMember (member :: members)) ++ 125%N :: tail
                                  = 34%N :: rest').
    { destruct members as [|member2 members']; cbn [map joinComma];
        unfold printMember at 1; unfold quote at 1; cbn [app]; eauto. }
    destruct Hpeek as (rest' & Hpeek).
    rewrite Hpeek at 1. cbn [skipWs]. change (isJsonWs 34) with false. cbv iota.
    change (34 =? 125)%N with false. cbv iota.
    apply (Hmembers members Hrest member [] f Hmember Hw Hf).
Qed.

End ReadBackValue.

Section ReadBackText.

Lemma joinComma_length (pieces : list Wide.text) :
  list_sum (map (fun p => 1 + List.length p) pieces)
  <= List.length (Wide.joinComma pieces) + 1.
Proof.
  induction pieces as [|p [|p2 pieces] IH].
  - simpl; lia.
  - simpl; lia.
  - change (Wide.joinComma (p :: p2 :: pieces))
      with (p ++ 44%N :: Wide.joinComma (p2 :: pieces)).
    rewrite length_app. cbn [map list_sum fold_right List.length] in *. lia.
Qed.

Lemma list_sum_le {A : Type} (f g : A -> nat) (l : list A) :
  Forall (fun a => f a <= g a) l -> list_sum (map f l) <= list_sum (map g l).
Proof.
  induction 1 as [|a l Ha _ IH]; simpl; lia.
Qed.

(** The fuel [JSON_parse] gives the parser covers every printed value. *)
Lemma cost_le_length (w : Wide.json) :
  numbersPrinted w = true -> cost w <= List.length (Wide.JSON_stringify w).
Proof.
  induction w as [ | b | l | s | items IH | members IH] using wide_json_nested_ind;
    intros Hw.
  - simpl; lia.
  - destruct b; simpl; lia.
  - destruct (stringify_head (Wide.JNum l) Hw) as (u & rest & -> & _). simpl; lia.
  - unfold Wide.JSON_stringify, Wide.quote. simpl; lia.
  - cbn [cost Wide.JSON_stringify numbersPrinted] in *.
    cbn [List.length]. rewrite length_app. cbn [List.length].
    pose proof (joinComma_length (map Wide.JSON_stringify items)) as Hjoin.
    rewrite map_map in Hjoin.
    assert (Hsum : list_sum (map (fun item => 1 + cost item) items)
                   <= list_sum (map (fun x => 1 + List.length (Wide.JSON_stringify x)) items)).
    { apply list_sum_le. rewrite forallb_forall in Hw.
      rewrite Forall_forall in IH |- *. intros x Hx.
      specialize (IH x Hx (Hw x Hx)). lia. }
    lia.
  - cbn [cost Wide.JSON_stringify numbersPrinted] in *.
    cbn [List.length]. rewrite length_app. cbn [List.length].
    pose proof (joinComma_length
                  (map (fun kv : Wide.text * Wide.json =>
                          Wide.quote (fst kv) ++ 58%N :: Wide.JSON_stringify (snd kv))
                       members)) as Hjoin.
    rewrite map_map in Hjoin.
    assert (Hsum : list_sum (map (fun kv => 1 + cost (snd kv)) members)
                   <= list_sum
                        (map (fun x : Wide.text * Wide.json =>
                                1 + List.length
                                      (Wide.quote (fst x) ++ 58%N :: Wide.JSON_stringify (snd x)))
                             members)).
    { apply list_sum_le. rewrite forallb_forall in Hw.
      rewrite Forall_forall in IH |- *. intros x Hx.
      specialize (IH x Hx (Hw x Hx)). rewrite length_app. cbn [List.length]. lia. }
    lia.
Qed.

(** [JSON.parse(JSON.stringify(w))] is [w] for every value whose numbers
    are printed as JSON numbers: what a row holds as JSON text is read
    back as the value that was written. *)
Lemma JSON_parse_stringify (w : Wide.json) :
  numbersPrinted w = true ->
  Wide.JSON_parse (Wide.JSON_stringify w) = Some w.
Proof.
  intros Hw. unfold Wide.JSON_parse.
  pose proof (cost_le_length w Hw) as Hcost.
  pose proof (parseWith_stringify w Hw
                (2 * List.length (Wide.JSON_stringify w) + 2) [] ltac:(lia) eq_refl) as H.
  rewrite app_nil_r in H. rewrite H. reflexivity.
Qed.

Lemma ofString_app (a b : string) :
  Wide.ofString (a ++ b) = Wide.ofString a ++ Wide.ofString b.
Proof.
  unfold Wide.ofString. induction a as [|c a IH]; [reflexivity|].
  cbn [String.append list_ascii_of_string map app]. now rewrite IH.
Qed.

Lemma ofString_cons (c : ascii) (s : string) :
  Wide.ofString (String c s) = N_of_ascii c :: Wide.ofString s.
Proof. reflexivity. Qed.

Lemma ofString_escapeChar (c : ascii) :
  Wide.ofString (escapeChar c) = Wide.escapeUnit (N_of_ascii c)
  /\ Wide.isLeadingSurrogate (N_of_ascii c) = false
  /\ Wide.isTrailingSurrogate (N_of_ascii c) = false.
Proof.
  destruct c as [[|] [|] [|] [|] [|] [|] [|] [|]]; vm_compute; auto.
Qed.

Lemma ofString_escape (s : string) :
  Wide.ofString (escape s) = Wide.escape (Wide.ofString s).
Proof.
  induction s as [|c s IH]; [reflexivity|].
  cbn [escape]. rewrite ofString_app, ofString_cons, IH.
  destruct (ofString_escapeChar c) as (Hc & Hlead & Htrail).
  cbn [Wide.escape]. now rewrite Hlead, Htrail, Hc.
Qed.

Lemma ofString_quote (s : string) :
  Wide.ofString (quote s) = Wide.quote (Wide.ofString s).
Proof.
  unfold quote, Wide.quote.
  rewrite ofString_cons, ofString_app, ofString_escape. reflexivity.
Qed.

Lemma ofString_joinComma (pieces : list string) :
  Wide.ofString (joinComma pieces) = Wide.joinComma (map Wide.ofString pieces).
Proof.
  induction pieces as [|p [|p2 pieces] IH]; [reflexivity..|].
  change (joinComma (p :: p2 :: pieces))
    with (p ++ String "," (joinComma (p2 :: pieces)))%string.
  change (Wide.joinComma (map Wide.ofString (p :: p2 :: pieces)))
    with (Wide.ofString p ++ 44%N :: Wide.joinComma (map Wide.ofString (p2 :: pieces))).
  rewrite ofString_app, ofString_cons, IH. reflexivity.
Qed.

Lemma json_nested_ind (P : json -> Prop) :
  P JNull -> (forall b, P (JBool b)) -> (forall l, P (JNum l)) -> (forall s, P (JStr s)) ->
  (forall items, Forall P items -> P (JArr items)) ->
  (forall members, Forall (fun kv => P (snd kv)) members -> P (JObj members)) ->
  forall v, P v.
Proof.
  intros Hnull Hbool Hnum Hstr Harr Hobj.
  fix IH 1. intros [ | b | l | s | items | members].
  - exact Hnull.
  - apply Hbool.
  - apply Hnum.
  - apply Hstr.
  - apply Harr. induction items as [|item items IHitems]; constructor.
    + apply IH.
    + exact IHitems.
  - apply Hobj. induction members as [|[k v] members IHmembers]; constructor.
    + apply IH.
    + exact IHmembers.
Qed.

(** The text [JSON.stringify] prints for a Latin-1 value, as code units,
    is the text printed for the value as [JSON.parse] returns it. *)
Lemma ofString_stringify (v : json) :
  Wide.ofString (JSON_stringify v) = Wide.JSON_stringify (widen v).
Proof.
  induction v as [ | b | l | s | items IH | members IH] using json_nested_ind.
  - reflexivity.
  - destruct b; reflexivity.
  - reflexivity.
  - apply ofString_quote.
  - cbn [JSON_stringify widen Wide.JSON_stringify].
    rewrite ofString_cons, ofString_app, ofString_joinComma, !map_map.
    change (N_of_ascii "[") with 91%N. change (Wide.ofString "]") with [93%N].
    do 3 f_equal. apply map_ext_Forall. exact IH.
  - cbn [JSON_stringify widen Wide.JSON_stringify].
    rewrite ofString_cons, ofString_app, ofString_joinComma, !map_map.
    change (N_of_ascii "{") with 123%N. change (Wide.ofString "}") with [125%N].
    do 3 f_equal. apply map_ext_Forall.
    rewrite Forall_forall in IH |- *. intros [k x] Hkx. cbn [fst snd].
    specialize (IH (k, x) Hkx). cbn [snd] in IH.
    rewrite ofString_app, ofString_quote, ofString_cons, IH.
    reflexivity.
Qed.

(** A Latin-1 value written as JSON text is read back as itself. *)
Lemma JSON_parse_written (v : json) :
  numbersPrinted (widen v) = true ->
  Wide.JSON_parse (Wide.ofString (JSON_stringify v)) = Some (widen v).
Proof.
  intros Hv. rewrite ofString_stringify. now apply JSON_parse_stringify.
Qed.

End ReadBackText.

Lemma numbersPrinted_strings (l : list string) :
  forallb numbersPrinted (map widen (map JStr l)) = true.
Proof. induction l as [|t l IH]; [reflexivity|exact IH]. Qed.

(** The payload of a queued create, written to the [payload] column, is
    read back by the row mapper as the payload, on a platform that prints
    a finite number as a number of the JSON grammar. *)
Lemma entryCopy_read_back (platform : Platform) (entry : MassEntry.t) :
  (Number_isFinite (MassEntry.mass entry) = true ->
   isNumberLexeme (Wide.ofString (numberText platform (MassEntry.mass entry))) = true) ->
  Wide.JSON_parse (Wide.ofString (JSON_stringify (entryCopy platform entry)))
  = Some (widen (entryCopy platform entry)).
Proof.
  intros Hmass. apply JSON_parse_written.
  unfold entryCopy, jsonNumber. cbn [widen]. rewrite !map_app.
  cbn [numbersPrinted]. rewrite !forallb_app.
  cbn [map forallb fst snd numbersPrinted widen].
  destruct (Number_isFinite (MassEntry.mass entry)) eqn:Hfin.
  - cbn [widen numbersPrinted]. rewrite (Hmass eq_refl).
    destruct (MassEntry.note entry), (MassEntry.tags entry);
      cbn [map forallb fst snd numbersPrinted widen andb];
      rewrite ?numbersPrinted_strings; reflexivity.
  - destruct (MassEntry.note entry), (MassEntry.tags entry);
      cbn [map forallb fst snd numbersPrinted widen andb];
      rewrite ?numbersPrinted_strings; reflexivity.
Qed.

Lemma normalizePayload_read_back (platform : Platform) (entry : MassEntry.t) :
  (Number_isFinite (MassEntry.mass entry) = true ->
   isNumberLexeme (Wide.ofString (numberText platform (MassEntry.mass entry))) = true) ->
  Wide.JSON_parse (Wide.ofString (JSON_stringify (normalizePayload platform entry)))
  = Some (widen (normalizePayload platform entry)).
Proof.
  intros Hmass. apply JSON_parse_written.
  unfold normalizePayload, jsonNumber. cbn [widen]. rewrite !map_app.
  cbn [numbersPrinted]. rewrite !forallb_app.
  cbn [map forallb fst snd numbersPrinted widen].
  destruct (Number_isFinite (MassEntry.mass entry)) eqn:Hfin.
  - cbn [widen numbersPrinted]. rewrite (Hmass eq_refl).
    destruct (MassEntry.note entry), (MassEntry.tags entry);
      cbn [map forallb fst snd numbersPrinted widen andb];
      rewrite ?numbersPrinted_strings; reflexivity.
  - destruct (MassEntry.note entry), (MassEntry.tags entry);
      cbn [map forallb fst snd numbersPrinted widen andb];
      rewrite ?numbersPrinted_strings; reflexivity.
Qed.

(** Serialized tags read back. *)
Lemma deserializeTags_serializeTags (tags : list Wide.text) :
  deserializeTags (serializeTags (Some tags)) = map Wide.JStr tags.
Proof.
  destruct tags as [|t ts]; [reflexivity|].
  unfold serializeTags, deserializeTags.
  cbn [List.length Nat.ltb Nat.leb].
  rewrite JSON_parse_stringify_strings.
  cbn [Wide.JSON_stringify Wide.truthy negb]. reflexivity.
Qed.

(** The [tags] column: what [createMassEntry] writes on the SQLite branch
    for the tags of an entry, [mapRowToEntry] reads back as those tags. *)
Lemma tags_column_read_back (tags : list string) :
  deserializeTags (serializeTags (Some (map Wide.ofString tags)))
  = map (fun tag => Wide.JStr (Wide.ofString tag)) tags.
Proof.
  rewrite deserializeTags_serializeTags. apply map_map.
Qed.

(** The text [["\u0100","b"]], whose first tag is written as an escape
    above the Latin-1 range, decodes to its two tags. *)
Example deserializeTags_escaped_tag :
  deserializeTags
    (Some [91; 34; 92; 117; 48; 49; 48; 48; 34; 44; 34; 98; 34; 93]%N)
  = [Wide.JStr [256%N]; Wide.JStr [98%N]].
Proof. reflexivity. Qed.

(** C6. Tag lists survive serialization verbatim, whatever code units the
    tags hold, and serialized tag data that is missing, empty, not JSON, or
    JSON but not an array, decodes to the empty list instead of raising an
    error. *)
Theorem tags_roundtrip_and_defensive_decode :
  (forall tags : option (list Wide.text),
      deserializeTags (serializeTags tags)
      = map Wide.JStr (match tags with Some l => l | None => [] end))
  /\ (forall raw : Wide.text,
         Wide.JSON_parse raw = None -> deserializeTags (Some raw) = [])
  /\ (forall (raw : Wide.text) (v : Wide.json),
         Wide.JSON_parse raw = Some v -> Wide.isArray v = false ->
         deserializeTags (Some raw) = [])
  /\ deserializeTags None = []
  /\ deserializeTags (Some []) = [].
Proof.
  split; [|split; [|split; [|split; reflexivity]]].
  - intros [[|t ts]|]; try reflexivity.
    unfold serializeTags, deserializeTags.
    cbn [List.length Nat.ltb Nat.leb].
    rewrite JSON_parse_stringify_strings.
    cbn [Wide.JSON_stringify Wide.truthy negb]. reflexivity.
  - intros raw Hparse. unfold deserializeTags.
    destruct (negb (Wide.truthy raw)); [reflexivity|]. now rewrite Hparse.
  - intros raw v Hparse Harr. unfold deserializeTags.
    destruct (negb (Wide.truthy raw)); [reflexivity|]. rewrite Hparse.
    destruct v; try reflexivity. discriminate Harr.
Qed.

(* ===================================================================== *)
(** ** Properties: local store *)
(* ===================================================================== *)

Lemma filter_idempotent {A : Type} (f : A -> bool) (l : list A) :
  filter f (filter f l) = filter f l.
Proof.
  induction l as [|x l IH]; simpl; [reflexivity|].
  destruct (f x) eqn:E; simpl; rewrite ?E, IH; reflexivity.
Qed.

Lemma filter_absent {A : Type} (f : A -> bool) (l : list A) :
  existsb (fun x => negb (f x)) l = false -> filter f l = l.
Proof.
  induction l as [|x l IH]; simpl; [reflexivity|].
  intros H. apply orb_false_iff in H as [Hx Hl].
  apply negb_false_iff in Hx. rewrite Hx, IH; auto.
Qed.

Lemma existsb_negb_negb {A : Type} (g : A -> bool) (l : list A) :
  existsb (fun x => negb (negb (g x))) l = existsb g l.
Proof.
  induction l as [|x l IH]; simpl; [reflexivity|].
  now rewrite negb_involutive, IH.
Qed.

(** C4. [createMassEntry] returns a full record whose id is the identifier
    drawn by this call, whose status is [pending], whose [createdAt] and
    [updatedAt] are the creation time, whose [loggedAt] is the input's when
    supplied and the creation time otherwise; that record is the one put in
    the store, and nothing else in the store changes. *)
Theorem createMassEntry_record :
  forall (host : Host) (input : MassEntryInput.t) (s : Sys),
    let now := clockAt host (clockReads s) in
    let entry :=
      MassEntry.mk (idAt host (idsDrawn s))
        (MassEntryInput.profileId input) (MassEntryInput.mass input)
        (MassEntryInput.unit input) (MassEntryInput.note input)
        (Some (match MassEntryInput.tags input with Some l => l | None => [] end))
        (match MassEntryInput.loggedAt input with Some t => t | None => now end)
        pending now now in
    createMassEntry host input s
    = (Resolved entry,
       mkSys (mkWebState (entry :: massEntries (web s)) (syncQueue (web s))
                         (profile (web s)) (settings (web s)))
             (sent s) (S (clockReads s)) (S (idsDrawn s)))
    /\ MassEntry.id entry = idAt host (idsDrawn s)
    /\ MassEntry.status entry = pending
    /\ MassEntry.createdAt entry = now
    /\ MassEntry.updatedAt entry = now
    /\ MassEntry.loggedAt entry
       = match MassEntryInput.loggedAt input with Some t => t | None => now end.
Proof. intros host input s. cbv zeta. repeat split. Qed.

(** C7. [deleteMutation] is idempotent: a second call on the same id, or a
    call on an id the queue does not hold, resolves and leaves the whole
    system exactly as it was. *)
Theorem deleteMutation_idempotent :
  forall (id : string) (s : Sys),
    fst (deleteMutation id s) = Resolved tt
    /\ deleteMutation id (snd (deleteMutation id s))
       = (Resolved tt, snd (deleteMutation id s))
    /\ (existsb (fun m => String.eqb (SyncMutation.id m) id) (syncQueue (web s)) = false ->
        deleteMutation id s = (Resolved tt, s)).
Proof.
  intros id [[entries queue prof sett] out reads ids].
  unfold deleteMutation, bind, getWebState, setWebState. cbn.
  split; [reflexivity|split].
  - now rewrite filter_idempotent.
  - intros Habsent. rewrite filter_absent; [reflexivity|].
    unfold isNotMutation. now rewrite existsb_negb_negb.
Qed.

(** C8. When a profile row exists (the singleton row, keyed by
    [PROFILE_ID]), [saveUserProfile] keeps its [createdAt] and its id, sets
    the mutable fields from the input and [updatedAt] to the time of the
    call, stores exactly the record it returns, and leaves the rest of the
    store untouched. *)
Theorem saveUserProfile_preserves_createdAt :
  forall (host : Host) (input : UserProfileInput.t) (s : Sys) (existing : UserProfile.t),
    profile (web s) = Some existing ->
    UserProfile.id existing = PROFILE_ID ->
    exists (saved : UserProfile.t) (s' : Sys),
      saveUserProfile host input s = (Resolved saved, s')
      /\ profile (web s') = Some saved
      /\ UserProfile.createdAt saved = UserProfile.createdAt existing
      /\ UserProfile.id saved = UserProfile.id existing
      /\ UserProfile.updatedAt saved = clockAt host (clockReads s)
      /\ UserProfile.fullName saved = trim (UserProfileInput.fullName input)
      /\ UserProfile.email saved = option_map trim (UserProfileInput.email input)
      /\ UserProfile.bio saved = option_map trim (UserProfileInput.bio input)
      /\ UserProfile.unitPreference saved
         = match UserProfileInput.unitPreference input with Some u => u | None => kg end
      /\ UserProfile.goalMass saved
         = match UserProfileInput.goalMass input with
           | None => None
           | Some g => if Number_isNaN g then None else Some g
           end
      /\ massEntries (web s') = massEntries (web s)
      /\ syncQueue (web s') = syncQueue (web s)
      /\ settings (web s') = settings (web s).
Proof.
  intros host input s existing Hrow Hid.
  unfold saveUserProfile, bind, nowISO, getWebState, setWebState, ret.
  cbn. rewrite Hrow. eexists; eexists. split; [reflexivity|].
  cbn. rewrite Hid. repeat split.
Qed.

Lemma saveUserProfile_preserves_createdAt_witness :
  let host := mkHost (fun _ _ => FetchRejects NotAnError) (fun n => Z.of_nat n) (fun _ => "id") in
  let existing := UserProfile.mk PROFILE_ID "Ada" None None kg None 5%Z 5%Z in
  let s := mkSys (mkWebState [] [] (Some existing) DEFAULT_SETTINGS) [] 9 0 in
  exists saved s',
    saveUserProfile host (UserProfileInput.mk " Ada L " None None (Some lb) None) s
    = (Resolved saved, s')
    /\ UserProfile.createdAt saved = 5%Z
    /\ UserProfile.updatedAt saved = 9%Z
    /\ UserProfile.fullName saved = "Ada L".
Proof.
  intros host existing s.
  destruct (saveUserProfile_preserves_createdAt host
              (UserProfileInput.mk " Ada L " None None (Some lb) None) s existing
              eq_refl eq_refl)
    as (saved & s' & Hrun & _ & Hc & _ & Hu & Hn & _).
  exists saved, s'. repeat split; assumption.
Defined.

Lemma parseInt10_integer (text : string) :
  parseInt10 text = NaN \/ exists z : Z, parseInt10 text = ofZ z.
Proof.
  unfold parseInt10.
  destruct (trimStart text) as [|c rest]; [now left|].
  destruct (isChar 45 c); [|destruct (isChar 43 c)];
    match goal with
    | |- context [readDigits None ?x] => destruct (readDigits None x)
    end; eauto.
Qed.

Lemma lt_ofZ (a b : Z) : JS.lt (ofZ a) (ofZ b) = false -> (b <= a)%Z.
Proof.
  unfold JS.lt, ofZ, Qltb. intros H. apply negb_false_iff in H.
  apply Qle_bool_iff in H. now rewrite Zle_Qle.
Qed.

(** C9 (as amended). Every record persisted by [saveAppSettings] and read
    back by [getAppSettings] has a finite [reminderHour]: the input's when
    it is finite, the default 7 otherwise. The range 0-23 is enforced by
    the settings screen: whatever [handleSaveReminder] saves has a whole
    hour between 0 and 23, and a refused input changes nothing. *)
Theorem saveAppSettings_reminderHour :
  forall (input : AppSettings.t) (s : Sys),
    (exists (saved : AppSettings.t) (s' : Sys),
        saveAppSettings input s = (Resolved saved, s')
        /\ settings (web s') = saved
        /\ getAppSettings s' = (Resolved saved, s')
        /\ Number_isFinite (AppSettings.reminderHour saved) = true
        /\ AppSettings.reminderHour saved
           = (if Number_isFinite (AppSettings.reminderHour input)
              then AppSettings.reminderHour input else Finite 7))
    /\ (forall (reminderInput : string) (current : AppSettings.t),
           match handleSaveReminder reminderInput current s with
           | (Resolved (Some updated), s') =>
               settings (web s') = updated
               /\ hourInRange (AppSettings.reminderHour updated)
           | (Resolved None, s') => s' = s
           | (Rejected _, _) => False
           end).
Proof.
  intros input s. split.
  - unfold saveAppSettings, applyWebSettings, getAppSettings, bind, getWebState,
      setWebState, ret. cbn.
    eexists; eexists. split; [reflexivity|]. cbn.
    destruct input as [a r h l n]. cbn.
    destruct h; cbn; repeat split.
  - intros reminderInput current. unfold handleSaveReminder.
    destruct (parseInt10_integer reminderInput) as [Hnan | [z Hz]].
    + rewrite Hnan. cbn. reflexivity.
    + rewrite Hz.
      destruct (Number_isNaN (ofZ z) || JS.lt (ofZ z) (ofZ 0) || JS.gt (ofZ z) (ofZ 23))%bool
        eqn:Hguard.
      * reflexivity.
      * apply orb_false_iff in Hguard as [Hguard Hgt].
        apply orb_false_iff in Hguard as [_ Hlt].
        apply lt_ofZ in Hlt. unfold JS.gt in Hgt. apply lt_ofZ in Hgt.
        cbn. split; [reflexivity|]. exists z. split; [reflexivity|lia].
Qed.

(** C9, counterexample: an hour of 99 handed to [saveAppSettings] is
    persisted and read back as 99. *)
Lemma saveAppSettings_hour_99_persisted :
  let input := AppSettings.mk true true (Finite 99) None None in
  let s := mkSys (mkWebState [] [] None DEFAULT_SETTINGS) [] 0 0 in
  exists (saved : AppSettings.t) (s' : Sys),
    saveAppSettings input s = (Resolved saved, s')
    /\ getAppSettings s' = (Resolved saved, s')
    /\ AppSettings.reminderHour saved = Finite 99
    /\ JS.gt (AppSettings.reminderHour saved) (ofZ 23) = true
    /\ ~ hourInRange (AppSettings.reminderHour saved).
Proof.
  intros input s. eexists; eexists.
  split; [reflexivity|]. split; [reflexivity|]. split; [reflexivity|].
  split; [reflexivity|].
  intros [z [Hz Hrange]]. cbn in Hz. unfold ofZ, inject_Z in Hz.
  injection Hz as Hz. lia.
Qed.

(** C5. With no remote endpoint configured, [syncPendingEntries] resolves
    to the skip statistics with a non-empty reason whatever the store
    holds, and leaves the store, the network and the clock untouched. *)
Theorem sync_skipped_without_endpoint :
  forall (host : Host) (rawSyncEndpoint token : option string) (s : Sys),
    SYNC_ENDPOINT rawSyncEndpoint = None ->
    syncPendingEntries host rawSyncEndpoint token s
    = (Resolved (SyncStats.mk 0 0 true (Some "SYNC_ENDPOINT not configured") []), s)
    /\ truthy "SYNC_ENDPOINT not configured" = true.
Proof.
  intros host raw token s Hunset. unfold syncPendingEntries.
  rewrite Hunset. split; reflexivity.
Qed.

Lemma sync_skipped_without_endpoint_witness :
  let host := mkHost (fun _ _ => FetchRejects NotAnError) (fun n => Z.of_nat n) (fun _ => "id") in
  let m := SyncMutation.mk "m1" "e1" create JNull 0 None 1%Z 1%Z in
  let s := mkSys (mkWebState [] [m] None DEFAULT_SETTINGS) [] 0 0 in
  syncPendingEntries host None (Some "token") s
  = (Resolved (SyncStats.mk 0 0 true (Some "SYNC_ENDPOINT not configured") []), s)
  /\ truthy "SYNC_ENDPOINT not configured" = true.
Proof.
  intros host m s.
  exact (sync_skipped_without_endpoint host None (Some "token") s eq_refl).
Defined.

(* ===================================================================== *)
(** ** Properties: the queue's order *)
(* ===================================================================== *)

Section KeySort.
Context {A : Type} (key : A -> Z).

Lemma insertBy_perm (x : A) (l : list A) :
  Permutation (insertBy (fun a b => (key a - key b)%Z) x l) (x :: l).
Proof.
  induction l as [|y l IH]; simpl; [reflexivity|].
  destruct (key x - key y <=? 0)%Z; [reflexivity|].
  rewrite IH. apply perm_swap.
Qed.

Lemma Array_sort_perm (l : list A) :
  Permutation (Array_sort (fun a b => (key a - key b)%Z) l) l.
Proof.
  induction l as [|x l IH]; simpl; [reflexivity|].
  rewrite insertBy_perm. now constructor.
Qed.

Lemma insertBy_sorted (x : A) (l : list A) :
  StronglySorted (fun a b => (key a <= key b)%Z) l ->
  StronglySorted (fun a b => (key a <= key b)%Z)
                 (insertBy (fun a b => (key a - key b)%Z) x l).
Proof.
  induction 1 as [|y l Hsorted IH Hall]; simpl.
  - constructor; constructor.
  - destruct (key x - key y <=? 0)%Z eqn:E.
    + apply Z.leb_le in E. constructor.
      * now constructor.
      * constructor; [lia|].
        eapply Forall_impl; [|exact Hall]. cbv beta. intros; lia.
    + apply Z.leb_gt in E. constructor; [exact IH|].
      eapply Permutation_Forall; [symmetry; apply insertBy_perm|].
      constructor; [lia|exact Hall].
Qed.

Lemma Array_sort_sorted (l : list A) :
  StronglySorted (fun a b => (key a <= key b)%Z)
                 (Array_sort (fun a b => (key a - key b)%Z) l).
Proof.
  induction l as [|x l IH]; simpl; [constructor|].
  now apply insertBy_sorted.
Qed.

End KeySort.

Lemma in_firstn {A : Type} (n : nat) (l : list A) (x : A) :
  In x (firstn n l) -> In x l.
Proof.
  revert l; induction n as [|n IH]; intros [|y l]; simpl; try tauto.
  intros [H|H]; auto.
Qed.

Lemma in_firstn_S {A : Type} (n : nat) (l : list A) (x : A) :
  In x (firstn n l) -> In x (firstn (S n) l).
Proof.
  revert l; induction n as [|n IH]; intros [|y l]; try (simpl; tauto).
  intros [H|H]; [now left|]. right. now apply IH.
Qed.

Lemma firstn_sorted {A : Type} (R : A -> A -> Prop) (n : nat) (l : list A) :
  StronglySorted R l -> StronglySorted R (firstn n l).
Proof.
  intros Hsorted; revert n.
  induction Hsorted as [|y l Hsorted IH Hall]; intros [|n]; simpl; try constructor.
  - apply IH.
  - rewrite Forall_forall in *. intros z Hz. apply Hall. eapply in_firstn; eauto.
Qed.



Lemma Shrunk_refl (l : list SyncMutation.t) : Shrunk l l.
Proof. induction l; [constructor|apply Shrunk_keep; auto]. Qed.

Lemma Shrunk_filter (f : SyncMutation.t -> bool) (l l' : list SyncMutation.t) :
  Shrunk l l' -> Shrunk l (filter f l').
Proof.
  induction 1 as [|x l l' H IH|x x' l l' Hid Hat H IH]; simpl.
  - constructor.
  - now constructor.
  - destruct (f x'); now constructor.
Qed.

Lemma Shrunk_map (f : SyncMutation.t -> SyncMutation.t) (l l' : list SyncMutation.t) :
  (forall x, SyncMutation.id (f x) = SyncMutation.id x) ->
  (forall x, SyncMutation.createdAt (f x) = SyncMutation.createdAt x) ->
  Shrunk l l' -> Shrunk l (map f l').
Proof.
  intros Hid Hat.
  induction 1 as [|x l l' H IH|x x' l l' Hid' Hat' H IH]; simpl.
  - constructor.
  - now constructor.
  - constructor; auto; congruence.
Qed.

Lemma Shrunk_ids (l l' : list SyncMutation.t) (x' : SyncMutation.t) :
  Shrunk l l' -> In x' l' -> In (SyncMutation.id x') (map SyncMutation.id l).
Proof.
  induction 1 as [|x l l' H IH|x y l l' Hid Hat H IH]; simpl; intros Hin.
  - contradiction.
  - right. auto.
  - destruct Hin as [<-|Hin]; [left; congruence|right; auto].
Qed.

Lemma Shrunk_insert_drop (x : SyncMutation.t) (l l' : list SyncMutation.t) :
  Shrunk l l' ->
  Shrunk (insertBy (fun a b => (SyncMutation.createdAt a - SyncMutation.createdAt b)%Z) x l) l'.
Proof.
  induction 1 as [|y l l' H IH|y y' l l' Hid Hat H IH]; simpl.
  - repeat constructor.
  - destruct (_ <=? 0)%Z; repeat constructor; auto.
  - destruct (_ <=? 0)%Z.
    + constructor. now constructor.
    + now constructor.
Qed.

Lemma Shrunk_keys (l l' : list SyncMutation.t) (x' : SyncMutation.t) :
  Shrunk l l' -> In x' l' ->
  exists x, In x l /\ SyncMutation.createdAt x = SyncMutation.createdAt x'.
Proof.
  induction 1 as [|x l l' H IH|x y l l' Hid Hat H IH]; simpl; intros Hin.
  - contradiction.
  - destruct (IH Hin) as (z & Hz & Hk). eauto.
  - destruct Hin as [<-|Hin]; [eauto|].
    destruct (IH Hin) as (z & Hz & Hk). eauto.
Qed.

Lemma Shrunk_insert_keep (x x' : SyncMutation.t) (l l' : list SyncMutation.t) :
  SyncMutation.id x' = SyncMutation.id x ->
  SyncMutation.createdAt x' = SyncMutation.createdAt x ->
  StronglySorted (fun a b => (SyncMutation.createdAt a <= SyncMutation.createdAt b)%Z) l ->
  Shrunk l l' ->
  Shrunk (insertBy (fun a b => (SyncMutation.createdAt a - SyncMutation.createdAt b)%Z) x l)
         (insertBy (fun a b => (SyncMutation.createdAt a - SyncMutation.createdAt b)%Z) x' l').
Proof.
  intros Hid Hat Hsorted Hshrunk.
  induction Hshrunk as [|y l l' H IH|y y' l l' Hid' Hat' H IH]; simpl.
  - apply Shrunk_keep; auto. constructor.
  - inversion Hsorted as [|? ? Htail Hall]; subst.
    destruct (_ <=? 0)%Z eqn:E.
    + (* x goes first; every key of l' is at least that of y *)
      apply Z.leb_le in E.
      assert (Hfront : insertBy
                (fun a b => (SyncMutation.createdAt a - SyncMutation.createdAt b)%Z) x' l'
              = x' :: l').
      { destruct l' as [|z l'']; [reflexivity|]. simpl.
        destruct (Shrunk_keys _ _ z H (or_introl eq_refl)) as (w & Hw & Hk).
        rewrite Forall_forall in Hall. specialize (Hall w Hw). cbv beta in Hall.
        replace (_ <=? 0)%Z with true; [reflexivity|].
        symmetry. apply Z.leb_le. lia. }
      rewrite Hfront. apply Shrunk_keep; auto. now apply Shrunk_drop.
    + apply Shrunk_drop. now apply IH.
  - inversion Hsorted as [|? ? Htail Hall]; subst.
    rewrite Hat, Hat'.
    destruct (_ <=? 0)%Z.
    + apply Shrunk_keep; auto. now apply Shrunk_keep.
    + apply Shrunk_keep; auto.
Qed.

(** The stable sort of a shrunk queue is the shrunk sorted queue. *)
Lemma Shrunk_sort (l l' : list SyncMutation.t) :
  Shrunk l l' -> Shrunk (sortMutationsAsc l) (sortMutationsAsc l').
Proof.
  unfold sortMutationsAsc.
  induction 1 as [|x l l' H IH|x x' l l' Hid Hat H IH]; simpl.
  - constructor.
  - now apply Shrunk_insert_drop.
  - apply Shrunk_insert_keep; auto.
    apply (Array_sort_sorted SyncMutation.createdAt).
Qed.

(** An intent among the first [n] of a queue with distinct ids is still
    among the first [n] after the queue shrinks. *)
Lemma Shrunk_firstn (l l' : list SyncMutation.t) :
  Shrunk l l' ->
  NoDup (map SyncMutation.id l) ->
  forall (n : nat) (x x' : SyncMutation.t),
    In x (firstn n l) -> In x' l' -> SyncMutation.id x' = SyncMutation.id x ->
    In x' (firstn n l').
Proof.
  induction 1 as [|y l l' H IH|y y' l l' Hid Hat H IH];
    intros Hnodup n x x' Hx Hx' Hsame.
  - destruct n; contradiction.
  - inversion Hnodup as [|? ? Hfresh Hrest]; subst.
    destruct n as [|n]; [contradiction|]. destruct Hx as [<-|Hx].
    + exfalso. apply Hfresh. rewrite <- Hsame. eapply Shrunk_ids; eauto.
    + apply in_firstn_S. eapply IH; eauto.
  - inversion Hnodup as [|? ? Hfresh Hrest]; subst.
    destruct n as [|n]; [contradiction|].
    destruct Hx' as [<-|Hx']; [now left|]. right.
    destruct Hx as [<-|Hx].
    + exfalso. apply Hfresh. rewrite <- Hsame. eapply Shrunk_ids; eauto.
    + eapply IH; eauto.
Qed.

(** Distinct ids stay distinct when the queue shrinks. *)
Lemma Shrunk_NoDup (l l' : list SyncMutation.t) :
  Shrunk l l' -> NoDup (map SyncMutation.id l) -> NoDup (map SyncMutation.id l').
Proof.
  induction 1 as [|x l l' H IH|x x' l l' Hid Hat H IH]; cbn; intros Hnodup.
  - constructor.
  - inversion Hnodup; auto.
  - inversion Hnodup as [|? ? Hfresh Hrest]; subst. constructor; auto.
    rewrite in_map_iff. intros (y & Hy & Hin). apply Hfresh.
    rewrite <- Hid, <- Hy. eapply Shrunk_ids; eauto.
Qed.

(* ===================================================================== *)
(** ** Properties: the configured endpoint *)
(* ===================================================================== *)

Lemma endsWith_split (s suffix : string) :
  endsWith s suffix = true -> exists p, s = (p ++ suffix)%string.
Proof.
  induction s as [|c s IH]; cbn [endsWith].
  - destruct (String.eqb EmptyString suffix) eqn:E; [|discriminate].
    apply String.eqb_eq in E. intros _. now exists EmptyString.
  - destruct (String.eqb (String c s) suffix) eqn:E.
    + apply String.eqb_eq in E. intros _. now exists EmptyString.
    + intros H. destruct (IH H) as [p ->]. now exists (String c p).
Qed.

Lemma stripTrailingSlash_mass (p : string) :
  stripTrailingSlash (p ++ "/v1/mass")%string = (p ++ "/v1/mass")%string.
Proof.
  induction p as [|c p IH]; [reflexivity|].
  destruct p as [|d p]; [reflexivity|].
  cbn [append stripTrailingSlash] in *. now rewrite IH.
Qed.

Lemma truthy_app (a b : string) : truthy a = true -> truthy (a ++ b)%string = true.
Proof. destruct a; [discriminate|reflexivity]. Qed.

Lemma truthy_mass (p : string) : truthy (p ++ "/v1/mass")%string = true.
Proof. destruct p; reflexivity. Qed.

(** A configured endpoint always ends in [/v1/mass]. *)
Lemma SYNC_ENDPOINT_shape (raw : option string) (ep : string) :
  SYNC_ENDPOINT raw = Some ep -> exists p, ep = (p ++ "/v1/mass")%string.
Proof.
  unfold SYNC_ENDPOINT, normalizeEndpoint. destruct raw as [r|]; [|discriminate].
  destruct (endsWith r "/v1/mass") eqn:E.
  - apply endsWith_split in E as [p ->]. rewrite stripTrailingSlash_mass.
    intros [= <-]. now exists p.
  - destruct (truthy r); [|discriminate]. intros [= <-]. eauto.
Qed.

(** The endpoint is either configured or absent; it is never the empty text. *)
Lemma SYNC_ENDPOINT_cases (raw : option string) :
  (SYNC_ENDPOINT raw = None /\ falsy (SYNC_ENDPOINT raw) = true)
  \/ (exists ep, SYNC_ENDPOINT raw = Some ep /\ falsy (SYNC_ENDPOINT raw) = false).
Proof.
  destruct (SYNC_ENDPOINT raw) as [ep|] eqn:E; [right|left; auto].
  exists ep. split; [reflexivity|].
  destruct (SYNC_ENDPOINT_shape _ _ E) as [p ->]. cbn. now rewrite truthy_mass.
Qed.

(** No endpoint means the environment variable is unset or empty. *)
Lemma SYNC_ENDPOINT_unset (raw : option string) :
  SYNC_ENDPOINT raw = None <-> raw = None \/ raw = Some EmptyString.
Proof.
  split.
  - destruct raw as [r|]; [|now left]. unfold SYNC_ENDPOINT.
    destruct (endsWith r "/v1/mass"); [discriminate|].
    destruct r; [now right|discriminate].
  - intros [->| ->]; reflexivity.
Qed.

Lemma configured_url_truthy (raw : option string) (ep : string) (m : SyncMutation.t) :
  SYNC_ENDPOINT raw = Some ep -> truthy (getMutationUrl raw m) = true.
Proof.
  intros H. unfold getMutationUrl. rewrite H. cbn [option_map].
  destruct (SYNC_ENDPOINT_shape _ _ H) as [p ->].
  rewrite stripTrailingSlash_mass, truthy_mass. cbn [negb].
  destruct (SyncMutation.operation m);
    rewrite ?truthy_mass; try reflexivity; apply truthy_app, truthy_mass.
Qed.

(* ===================================================================== *)
(** ** Properties: one sync run *)
(* ===================================================================== *)

Section Run.
Variables (host : Host) (raw : option string) (token : option string).

Lemma syncLoopBody_iteration (m : SyncMutation.t) (locals : SyncLocals) (s : Sys) :
  truthy (getMutationUrl raw m) = true ->
  syncLoopBody host raw token m locals s
  = (Resolved (fst (iteration host raw token (locals, s) m)), snd (iteration host raw token (locals, s) m)).
Proof.
  intros Hurl.
  unfold syncLoopBody, tryCatch, sendMutation, iteration, failureOf.
  rewrite Hurl. cbn [negb].
  unfold bind, fetch. cbn [fst snd].
  destruct (reply host (sent s) (mutationRequest raw m token)) as [[message|]|r].
  - reflexivity.
  - reflexivity.
  - destruct (ok r); reflexivity.
Qed.

(** [failureOf] is the verdict of [sendMutation] as the loop's [catch] reads it. *)
Lemma sendMutation_failureOf (m : SyncMutation.t) (s : Sys) :
  truthy (getMutationUrl raw m) = true ->
  failureOf (reply host (sent s) (mutationRequest raw m token))
  = match fst (sendMutation host raw m token s) with
    | Resolved _ => None
    | Rejected (ErrorObject message) => Some message
    | Rejected NotAnError => Some "Unknown sync error"
    end.
Proof.
  intros Hurl. unfold sendMutation, failureOf, bind, fetch. rewrite Hurl. cbn [negb].
  destruct (reply host (sent s) (mutationRequest raw m token)) as [[message|]|r];
    try reflexivity.
  destruct (ok r); reflexivity.
Qed.

Lemma forOf_iterations (ep : string) (page : list SyncMutation.t) :
  SYNC_ENDPOINT raw = Some ep ->
  forall (locals : SyncLocals) (s : Sys),
    forOf (syncLoopBody host raw token) page locals s
    = (Resolved (fst (fold_left (iteration host raw token) page (locals, s))),
       snd (fold_left (iteration host raw token) page (locals, s))).
Proof.
  intros Hep. induction page as [|m rest IH]; intros locals s; [reflexivity|].
  cbn [forOf fold_left]. unfold bind at 1.
  rewrite syncLoopBody_iteration by (eapply configured_url_truthy; eauto).
  rewrite IH. now rewrite <- surjective_pairing.
Qed.

Lemma iteration_sent (st : SyncLocals * Sys) (m : SyncMutation.t) :
  sent (snd (iteration host raw token st m)) = sent (snd st) ++ [mutationRequest raw m token].
Proof. unfold iteration. destruct (failureOf _); reflexivity. Qed.

Lemma run_sent (page : list SyncMutation.t) :
  forall st : SyncLocals * Sys,
    sent (snd (fold_left (iteration host raw token) page st))
    = sent (snd st) ++ map (fun m => mutationRequest raw m token) page.
Proof.
  induction page as [|m rest IH]; intros st; cbn [fold_left map].
  - now rewrite app_nil_r.
  - rewrite IH, iteration_sent, <- app_assoc. reflexivity.
Qed.

Lemma outcomes_page (page : list SyncMutation.t) :
  forall history, map fst (outcomes host raw token history page) = page.
Proof.
  induction page as [|m rest IH]; intros history; cbn; [reflexivity|].
  now rewrite IH.
Qed.


Lemma run_locals (page : list SyncMutation.t) :
  forall st : SyncLocals * Sys,
    let final := fold_left (iteration host raw token) page st in
    localSynced (fst final)
    = localSynced (fst st) + deliveredIn (outcomes host raw token (sent (snd st)) page)
    /\ localErrors (fst final)
       = localErrors (fst st) ++ messagesOf (outcomes host raw token (sent (snd st)) page).
Proof.
  induction page as [|m rest IH]; intros st; cbn [fold_left outcomes].
  - cbn. rewrite app_nil_r. split; [lia|reflexivity].
  - destruct (IH (iteration host raw token st m)) as [Hs He]. cbv zeta.
    rewrite Hs, He, iteration_sent.
    unfold iteration, deliveredIn, messagesOf.
    destruct (failureOf _) as [message|]; cbn; rewrite <- ?app_assoc; split;
      (reflexivity || lia).
Qed.

(** *** The queue *)

Lemma iteration_shrunk (q0 : list SyncMutation.t) (st : SyncLocals * Sys)
  (m : SyncMutation.t) :
  Shrunk q0 (syncQueue (web (snd st))) ->
  Shrunk q0 (syncQueue (web (snd (iteration host raw token st m)))).
Proof.
  intros H. unfold iteration. destruct (failureOf _) as [message|]; cbn.
  - apply Shrunk_map; auto; intros x; unfold withError;
      destruct (String.eqb _ _); reflexivity.
  - now apply Shrunk_filter.
Qed.

Lemma run_shrunk (q0 : list SyncMutation.t) (page : list SyncMutation.t) :
  forall st : SyncLocals * Sys,
    Shrunk q0 (syncQueue (web (snd st))) ->
    Shrunk q0 (syncQueue (web (snd (fold_left (iteration host raw token) page st)))).
Proof.
  induction page as [|m rest IH]; intros st H; cbn [fold_left]; [exact H|].
  apply IH. now apply iteration_shrunk.
Qed.

Lemma iteration_absent (i : string) (st : SyncLocals * Sys) (m : SyncMutation.t) :
  (forall x, In x (syncQueue (web (snd st))) -> SyncMutation.id x <> i) ->
  forall x, In x (syncQueue (web (snd (iteration host raw token st m)))) -> SyncMutation.id x <> i.
Proof.
  intros H x. unfold iteration. destruct (failureOf _) as [message|]; cbn.
  - rewrite in_map_iff. intros (y & <- & Hy). unfold withError.
    destruct (String.eqb _ _); cbn; auto.
  - rewrite filter_In. intros [Hx _]. auto.
Qed.

Lemma run_absent (i : string) (page : list SyncMutation.t) :
  forall st : SyncLocals * Sys,
    (forall x, In x (syncQueue (web (snd st))) -> SyncMutation.id x <> i) ->
    forall x, In x (syncQueue (web (snd (fold_left (iteration host raw token) page st)))) ->
              SyncMutation.id x <> i.
Proof.
  induction page as [|m rest IH]; intros st H; cbn [fold_left]; [exact H|].
  apply IH. now apply iteration_absent.
Qed.

Lemma iteration_present (x : SyncMutation.t) (st : SyncLocals * Sys)
  (m : SyncMutation.t) :
  In x (syncQueue (web (snd st))) ->
  SyncMutation.id m <> SyncMutation.id x ->
  In x (syncQueue (web (snd (iteration host raw token st m)))).
Proof.
  intros Hin Hother.
  assert (Hneq : String.eqb (SyncMutation.id x) (SyncMutation.id m) = false)
    by (apply String.eqb_neq; congruence).
  unfold iteration. destruct (failureOf _) as [message|]; cbn.
  - apply in_map_iff. exists x. split; [|exact Hin].
    unfold withError. now rewrite Hneq.
  - apply filter_In. split; [exact Hin|]. unfold isNotMutation. now rewrite Hneq.
Qed.

Lemma run_present (x : SyncMutation.t) (page : list SyncMutation.t) :
  forall st : SyncLocals * Sys,
    In x (syncQueue (web (snd st))) ->
    ~ In (SyncMutation.id x) (map SyncMutation.id page) ->
    In x (syncQueue (web (snd (fold_left (iteration host raw token) page st)))).
Proof.
  induction page as [|m rest IH]; intros st Hin Hother; cbn [fold_left]; [exact Hin|].
  cbn in Hother. apply IH; [|tauto].
  apply iteration_present; [exact Hin|tauto].
Qed.

(** *** The entries *)

Lemma Forall2_map_r {A B : Type} (R : A -> B -> Prop) (f : B -> B)
  (l : list A) (l' : list B) :
  (forall a b, R a b -> R a (f b)) ->
  Forall2 R l l' -> Forall2 R l (map f l').
Proof. intros Hf. induction 1; cbn; constructor; auto. Qed.

Lemma Forall2_refl {A : Type} (R : A -> A -> Prop) (l : list A) :
  (forall a, R a a) -> Forall2 R l l.
Proof. intros H. induction l; constructor; auto. Qed.

Lemma keptOrSynced_withStatus (i : string) (now : timestamp) (e e' : MassEntry.t) :
  keptOrSynced e e' -> keptOrSynced e (withStatus i synced now e').
Proof.
  unfold withStatus. destruct (String.eqb _ _); [|tauto].
  intros [->|[t ->]]; right; exists now; reflexivity.
Qed.

Lemma run_entries (l0 : list MassEntry.t) (page : list SyncMutation.t) :
  forall st : SyncLocals * Sys,
    Forall2 keptOrSynced l0 (massEntries (web (snd st))) ->
    Forall2 keptOrSynced l0 (massEntries (web (snd (fold_left (iteration host raw token) page st)))).
Proof.
  induction page as [|m rest IH]; intros st H; cbn [fold_left]; [exact H|].
  apply IH. unfold iteration. destruct (failureOf _) as [message|]; cbn; [exact H|].
  apply Forall2_map_r; [|exact H]. intros a b. apply keptOrSynced_withStatus.
Qed.

Lemma run_synced_stays (i : string) (page : list SyncMutation.t) :
  forall st : SyncLocals * Sys,
    (forall e, In e (massEntries (web (snd st))) ->
               MassEntry.id e = i -> MassEntry.status e = synced) ->
    forall e, In e (massEntries (web (snd (fold_left (iteration host raw token) page st)))) ->
              MassEntry.id e = i -> MassEntry.status e = synced.
Proof.
  induction page as [|m rest IH]; intros st H; cbn [fold_left]; [exact H|].
  apply IH. unfold iteration. destruct (failureOf _) as [message|]; cbn; [exact H|].
  intros e. rewrite in_map_iff. intros (y & <- & Hy). unfold withStatus.
  destruct (String.eqb _ _); cbn; auto.
Qed.

(** Entries that no delivered intent of the run targets are left alone. *)
Lemma run_untouched (P : string -> Prop) (l0 : list MassEntry.t)
  (page : list SyncMutation.t) :
  forall st : SyncLocals * Sys,
    (forall m, In (m, None) (outcomes host raw token (sent (snd st)) page) ->
               ~ P (SyncMutation.entityId m)) ->
    Forall2 (fun e e' => P (MassEntry.id e) -> e' = e) l0 (massEntries (web (snd st))) ->
    Forall2 (fun e e' => P (MassEntry.id e) -> e' = e) l0
            (massEntries (web (snd (fold_left (iteration host raw token) page st)))).
Proof.
  induction page as [|m rest IH]; intros st Hout H; cbn [fold_left]; [exact H|].
  cbn [outcomes] in Hout.
  apply IH.
  - intros m' Hm'. apply Hout. right. now rewrite iteration_sent in Hm'.
  - unfold iteration.
    destruct (failureOf (reply host (sent (snd st)) (mutationRequest raw m token)))
      as [message|] eqn:E; cbn; [exact H|].
    apply Forall2_map_r; [|exact H]. intros a b Hab Ha.
    rewrite (Hab Ha). unfold withStatus.
    destruct (String.eqb (MassEntry.id a) (SyncMutation.entityId m)) eqn:Eid;
      [|reflexivity].
    apply String.eqb_eq in Eid. exfalso.
    apply (Hout m); [left; reflexivity|]. now rewrite <- Eid.
Qed.

(** *** Delivered and failed intents *)

Lemma run_delivered (page : list SyncMutation.t) :
  forall (st : SyncLocals * Sys) (m : SyncMutation.t),
    In (m, None) (outcomes host raw token (sent (snd st)) page) ->
    let final := snd (fold_left (iteration host raw token) page st) in
    (forall x, In x (syncQueue (web final)) -> SyncMutation.id x <> SyncMutation.id m)
    /\ (forall e, In e (massEntries (web final)) ->
                  MassEntry.id e = SyncMutation.entityId m -> MassEntry.status e = synced).
Proof.
  induction page as [|m0 rest IH]; intros st m Hin; [contradiction|].
  cbn [outcomes] in Hin. cbn [fold_left]. destruct Hin as [Hhead|Htail].
  - injection Hhead as -> Hverdict. cbv zeta. split.
    + apply run_absent. unfold iteration. rewrite Hverdict. cbn.
      intros x. rewrite filter_In. unfold isNotMutation.
      intros [_ Hx]. apply negb_true_iff, String.eqb_neq in Hx. exact Hx.
    + apply run_synced_stays. unfold iteration. rewrite Hverdict. cbn.
      intros e. rewrite in_map_iff. intros (y & <- & Hy). unfold withStatus.
      destruct (String.eqb _ _) eqn:E; cbn; [reflexivity|].
      apply String.eqb_neq in E. congruence.
  - apply IH. now rewrite iteration_sent.
Qed.

Lemma run_failed (page : list SyncMutation.t) :
  forall (st : SyncLocals * Sys) (m : SyncMutation.t) (message : string),
    NoDup (map SyncMutation.id page) ->
    (forall x, In x page -> In x (syncQueue (web (snd st)))) ->
    In (m, Some message) (outcomes host raw token (sent (snd st)) page) ->
    exists now : timestamp,
      In (bumped m message now) (syncQueue (web (snd (fold_left (iteration host raw token) page st)))).
Proof.
  induction page as [|m0 rest IH]; intros st m message Hnodup Hqueue Hin;
    [contradiction|].
  cbn [outcomes] in Hin. cbn [fold_left].
  cbn [map] in Hnodup. inversion Hnodup as [|? ? Hfresh Hrest]; subst.
  destruct Hin as [Hhead|Htail].
  - injection Hhead as -> Hverdict.
    exists (clockAt host (clockReads (snd st))).
    apply run_present; [|exact Hfresh].
    unfold iteration. rewrite Hverdict. cbn.
    apply in_map_iff. exists m. split; [|apply Hqueue; now left].
    unfold withError. now rewrite String.eqb_refl.
  - apply IH; [exact Hrest| |now rewrite iteration_sent].
    intros x Hx. apply iteration_present; [apply Hqueue; now right|].
    intros Heq. apply Hfresh. rewrite Heq. now apply in_map.
Qed.

End Run.

(** *** The run as a whole *)

Lemma NoDup_firstn {A : Type} (n : nat) (l : list A) :
  NoDup l -> NoDup (firstn n l).
Proof.
  intros H; revert n. induction H as [|x l Hfresh Hl IH]; intros [|n]; cbn;
    try constructor; auto.
  intros Hin. apply Hfresh. eapply in_firstn; eauto.
Qed.

Lemma sortMutationsAsc_perm (q : list SyncMutation.t) :
  Permutation (sortMutationsAsc q) q.
Proof. apply (Array_sort_perm SyncMutation.createdAt). Qed.


Lemma listPendingMutations_run (limit : nat) (s : Sys) :
  listPendingMutations limit s
  = (Resolved (firstn limit (sortMutationsAsc (syncQueue (web s)))), s).
Proof. reflexivity. Qed.

(** With an endpoint configured, a run is the fold of the loop's turns over
    the first page of the sorted queue. *)
Lemma syncPendingEntries_run (host : Host) (raw token : option string) (ep : string)
  (s : Sys) :
  SYNC_ENDPOINT raw = Some ep ->
  let page := firstn 25 (sortMutationsAsc (syncQueue (web s))) in
  let final := fold_left (iteration host raw token) page (mkSyncLocals 0 [], s) in
  syncPendingEntries host raw token s
  = (Resolved (SyncStats.mk (List.length page) (localSynced (fst final)) false None
                           (localErrors (fst final))),
     snd final).
Proof.
  intros Hep page final. unfold syncPendingEntries.
  destruct (SYNC_ENDPOINT_cases raw) as [[Hnone _]|(ep' & _ & Hfalsy)];
    [congruence|].
  rewrite Hfalsy. unfold bind at 1. rewrite listPendingMutations_run.
  fold page. subst final. destruct page as [|m rest] eqn:Epage; [reflexivity|].
  cbn [List.length Nat.eqb]. unfold bind.
  rewrite (forOf_iterations host raw token ep) by exact Hep. reflexivity.
Qed.

(** The queue's ids stay distinct: a run only shrinks the queue, and
    [enqueueMutation] adds the identifier it draws. *)
Lemma syncPendingEntries_keeps_ids_distinct (host : Host) (raw token : option string)
  (s : Sys) :
  NoDup (map SyncMutation.id (syncQueue (web s))) ->
  NoDup (map SyncMutation.id (syncQueue (web (snd (syncPendingEntries host raw token s))))).
Proof.
  intros Hnodup.
  destruct (SYNC_ENDPOINT_cases raw) as [[_ Hfalsy]|(ep & Hep & _)].
  - unfold syncPendingEntries. now rewrite Hfalsy.
  - rewrite (syncPendingEntries_run host raw token ep s Hep). cbn [snd].
    eapply Shrunk_NoDup; [|exact Hnodup].
    apply run_shrunk, Shrunk_refl.
Qed.

Lemma enqueueMutation_keeps_ids_distinct (host : Host) (entityId : string)
  (operation : SyncOperation) (payload : json) (s : Sys) :
  NoDup (map SyncMutation.id (syncQueue (web s))) ->
  ~ In (idAt host (idsDrawn s)) (map SyncMutation.id (syncQueue (web s))) ->
  NoDup (map SyncMutation.id
           (syncQueue (web (snd (enqueueMutation host entityId operation payload s))))).
Proof.
  intros Hnodup Hfresh. cbn. rewrite map_app. cbn.
  apply NoDup_app; auto.
  - repeat constructor. intros [].
  - intros x Hx [<-|[]]. contradiction.
Qed.

(** *** Order kept by a stable sort *)

Lemma precedes_cons {A : Type} (a b y : A) (l : list A) :
  precedes a b (y :: l) <-> (a = y /\ In b l) \/ precedes a b l.
Proof.
  unfold precedes. split.
  - intros (l1 & rest & Heq & Hin).
    destruct l1 as [|z l1]; cbn in Heq; injection Heq as Hy Hl; subst.
    + now left.
    + right. now exists l1, rest.
  - intros [[-> Hin]|(l1 & rest & -> & Hin)].
    + now exists [], l.
    + now exists (y :: l1), rest.
Qed.

Lemma precedes_insert {A : Type} (a b x : A) (p q : list A) :
  precedes a b (p ++ q) -> precedes a b (p ++ x :: q).
Proof.
  induction p as [|y p IH]; cbn [app].
  - intros H. apply precedes_cons. now right.
  - intros H. apply precedes_cons in H as [[-> Hin]|H]; apply precedes_cons.
    + left. split; [reflexivity|].
      apply in_app_or in Hin as [Hin|Hin]; apply in_or_app; [now left|right; now right].
    + right. now apply IH.
Qed.

Lemma precedes_map {A B : Type} (f : A -> B) (a b : A) (l : list A) :
  precedes a b l -> precedes (f a) (f b) (map f l).
Proof.
  intros (l1 & rest & -> & Hin). exists (map f l1), (map f rest).
  split; [now rewrite map_app|now apply in_map].
Qed.


Section StableSort.
Context {A : Type} (key : A -> Z).

(** [insertBy] puts the new element after the elements of smaller key that
    lead the list, and before everything else. *)
Lemma insertBy_split (x : A) (l : list A) :
  exists prefix suffix : list A,
    insertBy (fun a b => (key a - key b)%Z) x l = prefix ++ x :: suffix
    /\ l = prefix ++ suffix
    /\ Forall (fun y => (key y < key x)%Z) prefix.
Proof.
  induction l as [|y l IH]; cbn [insertBy].
  - exists [], []. now repeat split.
  - destruct (key x - key y <=? 0)%Z eqn:E.
    + exists [], (y :: l). now repeat split.
    + apply Z.leb_gt in E. destruct IH as (prefix & suffix & Hins & -> & Hall).
      exists (y :: prefix), suffix. rewrite Hins. repeat split.
      constructor; [lia|exact Hall].
Qed.

(** Two rows whose keys do not decrease keep their order. *)
Lemma orderByAsc_keeps_order (l : list A) (a b : A) :
  precedes a b l -> (key a <= key b)%Z ->
  precedes a b (Native.orderByAsc key l).
Proof.
  unfold Native.orderByAsc. induction l as [|y l IH]; intros Hab Hle.
  - destruct Hab as ([|? ?] & ? & Heq & _); discriminate Heq.
  - cbn [Array_sort].
    destruct (insertBy_split y (Array_sort (fun a0 b0 => (key a0 - key b0)%Z) l))
      as (prefix & suffix & Hins & Hsorted & Hall).
    rewrite Hins. apply precedes_cons in Hab as [[-> Hin]|Hab].
    + exists prefix, suffix. split; [reflexivity|].
      apply (Permutation_in _ (Permutation_sym (Array_sort_perm key l))) in Hin.
      rewrite Hsorted in Hin. apply in_app_or in Hin as [Hin|Hin]; [|exact Hin].
      rewrite Forall_forall in Hall. specialize (Hall b Hin). lia.
    + apply precedes_insert. rewrite <- Hsorted. now apply IH.
Qed.

Lemma orderByAsc_perm (l : list A) : Permutation (Native.orderByAsc key l) l.
Proof. apply Array_sort_perm. Qed.

(** The rows of one key are listed in the order of the table. *)
Lemma orderByAsc_same_key (k : Z) (l : list A) :
  filter (fun a => (key a =? k)%Z) (Native.orderByAsc key l)
  = filter (fun a => (key a =? k)%Z) l.
Proof.
  unfold Native.orderByAsc. induction l as [|x l IH]; [reflexivity|].
  cbn [Array_sort].
  destruct (insertBy_split x (Array_sort (fun a b => (key a - key b)%Z) l))
    as (prefix & suffix & Hins & Hsorted & Hall).
  rewrite Hins. rewrite Hsorted in IH.
  rewrite filter_app in IH |- *. cbn [filter].
  destruct (key x =? k)%Z eqn:Ek; [|now rewrite IH].
  apply Z.eqb_eq in Ek.
  assert (Hnone : filter (fun a => (key a =? k)%Z) prefix = []).
  { clear - Hall Ek. induction Hall as [|y prefix Hy _ IHp]; [reflexivity|].
    cbn [filter]. replace (key y =? k)%Z with false; [exact IHp|].
    symmetry. apply Z.eqb_neq. lia. }
  rewrite Hnone in IH |- *. cbn [app] in *. now rewrite IH.
Qed.

Lemma orderByAsc_sorted (l : list A) :
  StronglySorted (fun a b => (key a <= key b)%Z) (Native.orderByAsc key l).
Proof. apply Array_sort_sorted. Qed.

End StableSort.


(** *** A run on the SQLite branch *)

Lemma mapRowToMutation_createdSecond (row : SyncMutation.t) :
  Native.createdSecond (Native.mapRowToMutation row) = Native.createdSecond row.
Proof. reflexivity. Qed.







(** C2. In a queue whose intents have distinct ids, every intent whose send
    fails adds exactly one message to [errors], is still returned by
    [listPendingMutations] after the run with the same [entityId] and
    [operation], one more attempt and [lastError] set to that message; and
    the run sends every intent of the page, before and after the failure. *)
Theorem failed_send_recorded_and_retried :
  forall (host : Host) (raw token : option string) (ep : string) (s : Sys)
         (m : SyncMutation.t) (message : string),
    SYNC_ENDPOINT raw = Some ep ->
    NoDup (map SyncMutation.id (syncQueue (web s))) ->
    let page := firstn 25 (sortMutationsAsc (syncQueue (web s))) in
    let outs := outcomes host raw token (sent s) page in
    In (m, Some message) outs ->
    exists (stats : SyncStats.t) (s' : Sys),
      syncPendingEntries host raw token s = (Resolved stats, s')
      /\ (exists before after,
             outs = before ++ (m, Some message) :: after
             /\ SyncStats.errors stats = messagesOf before ++ message :: messagesOf after)
      /\ map fst outs = page
      /\ SyncStats.attempted stats = List.length page
      /\ sent s' = sent s ++ map (fun x => mutationRequest raw x token) page
      /\ exists (m' : SyncMutation.t) (retrieved : list SyncMutation.t),
           listPendingMutations 25 s' = (Resolved retrieved, s')
           /\ In m' retrieved
           /\ SyncMutation.id m' = SyncMutation.id m
           /\ SyncMutation.entityId m' = SyncMutation.entityId m
           /\ SyncMutation.operation m' = SyncMutation.operation m
           /\ SyncMutation.attempts m' = SyncMutation.attempts m + 1
           /\ SyncMutation.lastError m' = Some message.
Proof.
  intros host raw token ep s m message Hep Hnodup page outs Hin.
  eexists; eexists. split; [apply (syncPendingEntries_run host raw token ep s Hep)|].
  fold page. cbn [SyncStats.attempted SyncStats.errors snd].
  destruct (run_locals host raw token page (mkSyncLocals 0 [], s)) as [_ He].
  cbn [fst snd localErrors app] in He. fold outs in He.
  assert (Hpage : map fst outs = page) by apply outcomes_page.
  assert (Hm : In m page).
  { rewrite <- Hpage. apply in_map_iff. now exists (m, Some message). }
  assert (Hsorted_nodup : NoDup (map SyncMutation.id (sortMutationsAsc (syncQueue (web s))))).
  { eapply Permutation_NoDup; [|exact Hnodup].
    apply Permutation_map. symmetry. apply sortMutationsAsc_perm. }
  split.
  { destruct (in_split _ _ Hin) as (before & after & Hsplit).
    exists before, after. split; [exact Hsplit|].
    rewrite He, Hsplit. unfold messagesOf. rewrite flat_map_app. reflexivity. }
  split; [exact Hpage|]. split; [reflexivity|].
  split; [now rewrite run_sent|].
  destruct (run_failed host raw token page (mkSyncLocals 0 [], s) m message)
    as [now Hbumped].
  { subst page. rewrite <- firstn_map. now apply NoDup_firstn. }
  { intros x Hx. cbn [snd]. eapply Permutation_in; [apply sortMutationsAsc_perm|].
    eapply in_firstn; exact Hx. }
  { exact Hin. }
  exists (bumped m message now). eexists.
  split; [apply listPendingMutations_run|].
  split; [|repeat split].
  eapply (Shrunk_firstn (sortMutationsAsc (syncQueue (web s)))).
  - apply Shrunk_sort.
    apply (run_shrunk host raw token (syncQueue (web s)) page (mkSyncLocals 0 [], s)).
    apply Shrunk_refl.
  - exact Hsorted_nodup.
  - exact Hm.
  - eapply Permutation_in; [symmetry; apply sortMutationsAsc_perm|exact Hbumped].
  - reflexivity.
Qed.

(** C10 (as amended). During a run every entry is left as it is or marked
    [synced]; no entry's status becomes [failed]; an entry that no
    successfully sent intent of the run targets - in particular the entry
    of an intent whose send failed, when no other intent of the run for the
    same entity was sent successfully - is exactly what it was before; and
    an entry that some successfully sent intent of the run targets - in
    particular the entry of an intent whose send failed, when another
    intent of the run for the same entity was sent successfully - is
    [synced] after the run. *)
Theorem sync_never_marks_failed :
  forall (host : Host) (raw token : option string) (s : Sys),
    let page := firstn 25 (sortMutationsAsc (syncQueue (web s))) in
    let outs := outcomes host raw token (sent s) page in
    exists (stats : SyncStats.t) (s' : Sys),
      syncPendingEntries host raw token s = (Resolved stats, s')
      /\ Forall2 keptOrSynced (massEntries (web s)) (massEntries (web s'))
      /\ Forall2 (fun e e' => MassEntry.status e' = failed -> e' = e)
                 (massEntries (web s)) (massEntries (web s'))
      /\ Forall2 (fun e e' =>
                    (forall m, In (m, None) outs ->
                               SyncMutation.entityId m <> MassEntry.id e) ->
                    e' = e)
                 (massEntries (web s)) (massEntries (web s'))
      /\ (forall ep : string,
             SYNC_ENDPOINT raw = Some ep ->
             forall (m failedIntent : SyncMutation.t) (message : string)
                    (e' : MassEntry.t),
               In (failedIntent, Some message) outs ->
               In (m, None) outs ->
               SyncMutation.entityId m = SyncMutation.entityId failedIntent ->
               In e' (massEntries (web s')) ->
               MassEntry.id e' = SyncMutation.entityId failedIntent ->
               MassEntry.status e' = synced)
      /\ (forall ep : string,
             SYNC_ENDPOINT raw = Some ep ->
             forall (m : SyncMutation.t) (e' : MassEntry.t),
               In (m, None) outs ->
               In e' (massEntries (web s')) ->
               MassEntry.id e' = SyncMutation.entityId m ->
               MassEntry.status e' = synced).
Proof.
  intros host raw token s page outs.
  destruct (SYNC_ENDPOINT_cases raw) as [[Hnone Hfalsy]|(ep & Hep & _)].
  - exists (SyncStats.mk 0 0 true (Some "SYNC_ENDPOINT not configured") []), s.
    split; [unfold syncPendingEntries; now rewrite Hfalsy|].
    split; [apply Forall2_refl; intros a; now left|].
    split; [apply Forall2_refl; auto|].
    split; [apply Forall2_refl; auto|].
    split; intros ep Hep; congruence.
  - assert (Hdelivered :
              forall (m : SyncMutation.t) (e' : MassEntry.t),
                In (m, None) outs ->
                In e' (massEntries
                         (web (snd (fold_left (iteration host raw token) page
                                              (mkSyncLocals 0 [], s))))) ->
                MassEntry.id e' = SyncMutation.entityId m ->
                MassEntry.status e' = synced).
    { intros m e' Hm He' Hid.
      destruct (run_delivered host raw token page (mkSyncLocals 0 [], s) m Hm)
        as [_ Hsynced].
      now apply Hsynced. }
    eexists; eexists.
    split; [apply (syncPendingEntries_run host raw token ep s Hep)|].
    fold page. cbn [snd].
    assert (Hkept : Forall2 keptOrSynced (massEntries (web s))
                      (massEntries (web (snd (fold_left (iteration host raw token) page
                                                        (mkSyncLocals 0 [], s)))))).
    { apply run_entries. apply Forall2_refl. intros a; now left. }
    split; [exact Hkept|]. split.
    + eapply Forall2_impl; [|exact Hkept]. cbv beta.
      intros e e' [->|[now ->]]; [reflexivity|discriminate].
    + split; [|split].
      * apply (run_untouched host raw token
                 (fun i => forall m, In (m, None) outs -> SyncMutation.entityId m <> i)).
        -- intros m Hm Hall. exact (Hall m Hm eq_refl).
        -- apply Forall2_refl. reflexivity.
      * intros ep' _ m failedIntent message e' _ Hm Hsame He' Hid.
        apply (Hdelivered m e' Hm He'). congruence.
      * intros ep' _ m e' Hm He' Hid. now apply (Hdelivered m e' Hm He').
Qed.

(* ===================================================================== *)
(** ** Concrete runs *)
(* ===================================================================== *)

(** Scenario B: one entry created offline, then a run against a remote
    that accepts every request. *)
Example scenario_B :
  let host := scriptedHost [] in
  let program :=
    entry <- createMassEntry host
               (MassEntryInput.mk "default" (Finite (704 # 10)) kg None None None) ;;
    enqueueMutation host (MassEntry.id entry) create JNull ;;;
    stats <- syncPendingEntries host (Some "http://api") (Some "token") ;;
    state <- getWebState ;;
    ret (stats, map MassEntry.status (massEntries state), syncQueue state) in
  fst (program (mkSys (mkWebState [] [] None DEFAULT_SETTINGS) [] 0 0))
  = Resolved (SyncStats.mk 1 1 false None [], [synced], []).
Proof. vm_compute. reflexivity. Qed.

(** Scenario C: the first of two intents is refused with 500. *)
Example scenario_C :
  let program :=
    stats <- syncPendingEntries (scriptedHost [500; 200]) (Some "http://api") None ;;
    state <- getWebState ;;
    ret (stats,
         map (fun e => (MassEntry.id e, MassEntry.status e)) (massEntries state),
         map (fun m => (SyncMutation.id m, SyncMutation.attempts m)) (syncQueue state)) in
  fst (program scenarioC)
  = Resolved (SyncStats.mk 2 1 false None ["Failed with status 500"],
              [("e2", synced); ("e1", pending)],
              [("m1", 1)]).
Proof. vm_compute. reflexivity. Qed.



Lemma failed_send_recorded_and_retried_witness :
  exists (stats : SyncStats.t) (s' : Sys) (m' : SyncMutation.t)
         (retrieved : list SyncMutation.t),
    syncPendingEntries (scriptedHost [500; 200]) (Some "http://api/") None scenarioC
    = (Resolved stats, s')
    /\ listPendingMutations 25 s' = (Resolved retrieved, s')
    /\ In m' retrieved
    /\ SyncMutation.id m' = "m1"
    /\ SyncMutation.attempts m' = 1
    /\ SyncMutation.lastError m' = Some "Failed with status 500".
Proof.
  destruct (failed_send_recorded_and_retried (scriptedHost [500; 200])
              (Some "http://api/") None "http://api/v1/mass" scenarioC
              (intentAt 1) "Failed with status 500" eq_refl)
    as (stats & s' & Hrun & _ & _ & _ & _ & m' & retrieved & Hlist & Hin & Hid & _ & _
        & Hattempts & Herror).
  { cbn. repeat constructor; cbn; intuition discriminate. }
  { left. reflexivity. }
  exists stats, s', m', retrieved. repeat split; assumption.
Defined.



(** C10, counterexample: the create of entry [e1] is refused with 500, the
    update of the same entry is accepted; the entry, [pending] before the
    run, is [synced] after it although the send of its first intent failed. *)
Lemma failed_send_entry_synced_by_sibling :
  let m1 := SyncMutation.mk "m1" "e1" create JNull 0 None 1%Z 1%Z in
  exists (stats : SyncStats.t) (s' : Sys) (e' : MassEntry.t),
    syncPendingEntries (scriptedHost [500; 200]) (Some "http://api/") None sameEntity
    = (Resolved stats, s')
    /\ In (m1, Some "Failed with status 500")
          (outcomes (scriptedHost [500; 200]) (Some "http://api/") None [] 
                    (firstn 25 (sortMutationsAsc (syncQueue (web sameEntity)))))
    /\ SyncStats.errors stats = ["Failed with status 500"]
    /\ massEntries (web sameEntity) = [entryOf "e1" pending]
    /\ SyncMutation.entityId m1 = MassEntry.id (entryOf "e1" pending)
    /\ massEntries (web s') = [e']
    /\ MassEntry.id e' = "e1"
    /\ MassEntry.status e' = synced
    /\ MassEntry.status e' <> MassEntry.status (entryOf "e1" pending).
Proof.
  intros m1. eexists; eexists; eexists.
  split; [vm_compute; reflexivity|].
  split; [left; reflexivity|].
  repeat split. discriminate.
Qed.

(* ===================================================================== *)
(** ** Further properties: the local store *)
(* ===================================================================== *)

Lemma Array_sort_ext {A : Type} (cmp1 cmp2 : A -> A -> Z) (l : list A) :
  (forall a b, cmp1 a b = cmp2 a b) -> Array_sort cmp1 l = Array_sort cmp2 l.
Proof.
  intros Hext. induction l as [|x l IH]; cbn; [reflexivity|]. rewrite IH.
  generalize (Array_sort cmp2 l) as sorted. clear IH.
  induction sorted as [|y sorted IH]; cbn; [reflexivity|].
  now rewrite Hext, IH.
Qed.

Lemma sortEntriesDesc_perm (l : list MassEntry.t) : Permutation (sortEntriesDesc l) l.
Proof.
  unfold sortEntriesDesc.
  rewrite (Array_sort_ext _ (fun a b => (- MassEntry.loggedAt a - - MassEntry.loggedAt b)%Z))
    by (intros; lia).
  apply (Array_sort_perm (fun e => (- MassEntry.loggedAt e)%Z)).
Qed.

Lemma sortEntriesDesc_sorted (l : list MassEntry.t) :
  StronglySorted (fun a b => (MassEntry.loggedAt b <= MassEntry.loggedAt a)%Z)
                 (sortEntriesDesc l).
Proof.
  unfold sortEntriesDesc.
  rewrite (Array_sort_ext _ (fun a b => (- MassEntry.loggedAt a - - MassEntry.loggedAt b)%Z))
    by (intros; lia).
  pose proof (Array_sort_sorted (fun e => (- MassEntry.loggedAt e)%Z) l) as H.
  induction H as [|x r Hr IH Hall]; constructor; auto.
  eapply Forall_impl; [|exact Hall]. cbv beta. intros; lia.
Qed.

(** What [listMassEntries] computes. *)
Lemma listMassEntries_run (profileId : option string) (limit : nat) (s : Sys) :
  listMassEntries profileId limit s
  = (Resolved (firstn limit (sortEntriesDesc
                               (filter (ofProfile profileId) (massEntries (web s))))), s).
Proof.
  reflexivity.
Qed.

Section StableSortDesc.
Context {A : Type} (key : A -> Z).

Lemma orderByDesc_asc (l : list A) :
  Native.orderByDesc key l = Native.orderByAsc (fun row => (- key row)%Z) l.
Proof.
  unfold Native.orderByDesc, Native.orderByAsc.
  apply Array_sort_ext. intros; lia.
Qed.

Lemma orderByDesc_perm (l : list A) : Permutation (Native.orderByDesc key l) l.
Proof. rewrite orderByDesc_asc. apply orderByAsc_perm. Qed.

Lemma orderByDesc_sorted (l : list A) :
  StronglySorted (fun a b => (key b <= key a)%Z) (Native.orderByDesc key l).
Proof.
  rewrite orderByDesc_asc.
  pose proof (orderByAsc_sorted (fun row => (- key row)%Z) l) as H.
  induction H as [|x r Hr IH Hall]; constructor; auto.
  eapply Forall_impl; [|exact Hall]. cbv beta. intros; lia.
Qed.

(** Two rows whose keys do not increase keep their order. *)
Lemma orderByDesc_keeps_order (l : list A) (a b : A) :
  precedes a b l -> (key b <= key a)%Z ->
  precedes a b (Native.orderByDesc key l).
Proof.
  intros Hab Hle. rewrite orderByDesc_asc.
  apply orderByAsc_keeps_order; [exact Hab|lia].
Qed.

(** The rows of one key are listed in the order of the table. *)
Lemma orderByDesc_same_key (k : Z) (l : list A) :
  filter (fun a => (key a =? k)%Z) (Native.orderByDesc key l)
  = filter (fun a => (key a =? k)%Z) l.
Proof.
  assert (Hext : forall rows : list A,
             filter (fun a => (key a =? k)%Z) rows
             = filter (fun a => (- key a =? - k)%Z) rows).
  { intros rows. apply filter_ext. intros a.
    destruct (Z.eqb_spec (key a) k) as [->|Hne].
    - symmetry. apply Z.eqb_refl.
    - symmetry. apply Z.eqb_neq. lia. }
  rewrite orderByDesc_asc, !Hext.
  apply (orderByAsc_same_key (fun row => (- key row)%Z)).
Qed.

End StableSortDesc.

(** X1. [listMassEntries] reads without changing anything. On the
    in-memory branch it returns at most [limit] entries, newest [loggedAt]
    first, all of them stored entries of the requested profile, and every
    one of them when the profile has no more than [limit]. On the SQLite
    branch it returns the images under [mapRowToEntry] of the first [limit]
    rows of the requested profile ordered by the whole second of
    [logged_at], latest second first; two rows whose seconds do not
    increase in insertion order keep that order, so rows of one second are
    listed oldest insertion first; the row mapper keeps every column but
    reads a blank note as null and missing tags as the empty list. *)
Theorem listMassEntries_page :
  forall (profileId : option string) (limit : nat) (s : Sys),
    let stored := filter (ofProfile profileId) (massEntries (web s)) in
    let rows := Native.orderByDesc Native.loggedSecond stored in
    (exists items : list MassEntry.t,
        listMassEntries profileId limit s = (Resolved items, s)
        /\ List.length items <= limit
        /\ StronglySorted (fun a b => (MassEntry.loggedAt b <= MassEntry.loggedAt a)%Z) items
        /\ (forall e, In e items ->
                      In e (massEntries (web s)) /\ ofProfile profileId e = true)
        /\ (List.length stored <= limit -> Permutation items stored))
    /\ Native.listMassEntries profileId limit s
       = (Resolved (map Native.mapRowToEntry (firstn limit rows)), s)
    /\ List.length (map Native.mapRowToEntry (firstn limit rows)) <= limit
    /\ Permutation rows stored
    /\ StronglySorted (fun a b => (Native.loggedSecond b <= Native.loggedSecond a)%Z) rows
    /\ (forall a b : MassEntry.t,
           precedes a b stored ->
           (Native.loggedSecond b <= Native.loggedSecond a)%Z ->
           precedes a b rows)
    /\ (forall second : Z,
           filter (fun row => (Native.loggedSecond row =? second)%Z) rows
           = filter (fun row => (Native.loggedSecond row =? second)%Z) stored)
    /\ (List.length stored <= limit -> firstn limit rows = rows)
    /\ (forall row : MassEntry.t,
           let entry := Native.mapRowToEntry row in
           MassEntry.id entry = MassEntry.id row
           /\ MassEntry.profileId entry = MassEntry.profileId row
           /\ MassEntry.mass entry = MassEntry.mass row
           /\ MassEntry.unit entry = MassEntry.unit row
           /\ MassEntry.loggedAt entry = MassEntry.loggedAt row
           /\ MassEntry.status entry = MassEntry.status row
           /\ MassEntry.createdAt entry = MassEntry.createdAt row
           /\ MassEntry.updatedAt entry = MassEntry.updatedAt row
           /\ MassEntry.note entry
              = match MassEntry.note row with
                | Some text => if truthy text then Some text else None
                | None => None
                end
           /\ MassEntry.tags entry
              = Some match MassEntry.tags row with Some l => l | None => [] end).
Proof.
  intros profileId limit s stored rows. split.
  { exists (firstn limit (sortEntriesDesc stored)).
    split; [apply listMassEntries_run|]. split; [apply firstn_le_length|].
    split; [apply firstn_sorted, sortEntriesDesc_sorted|]. split.
    - intros e He. apply in_firstn in He.
      apply (Permutation_in _ (sortEntriesDesc_perm _)) in He.
      now apply filter_In in He.
    - intros Hfew. rewrite firstn_all2; [apply sortEntriesDesc_perm|].
      now rewrite (Permutation_length (sortEntriesDesc_perm _)). }
  split; [reflexivity|].
  split; [rewrite length_map; apply firstn_le_length|].
  split; [apply orderByDesc_perm|].
  split; [apply orderByDesc_sorted|].
  split; [intros a b; apply orderByDesc_keeps_order|].
  split; [intros second; apply orderByDesc_same_key|].
  split.
  { intros Hfew. apply firstn_all2.
    subst rows. now rewrite (Permutation_length (orderByDesc_perm _ _)). }
  intros row. cbn. repeat split.
Qed.

Lemma map_withStatus_absent (id : string) (status : SyncStatus) (now : timestamp)
  (l : list MassEntry.t) :
  (forall e, In e l -> MassEntry.id e <> id) -> map (withStatus id status now) l = l.
Proof.
  induction l as [|e l IH]; cbn; intros H; [reflexivity|].
  rewrite IH by auto. unfold withStatus.
  destruct (String.eqb_spec (MassEntry.id e) id) as [Heq|_]; [|reflexivity].
  exfalso. apply (H e); auto.
Qed.

(** X2. [updateMassEntryStatus] resolves whether or not the id exists; it
    keeps the number, order and ids of the entries, changes nothing but the
    status and [updatedAt] of the entries with that id, and leaves the
    queue, profile, settings and network alone; for an id no entry has, the
    entries are exactly what they were. *)
Theorem updateMassEntryStatus_frame :
  forall (host : Host) (id : string) (status : SyncStatus) (s : Sys),
    exists s' : Sys,
      updateMassEntryStatus host id status s = (Resolved tt, s')
      /\ Forall2 (fun e e' =>
                    MassEntry.id e' = MassEntry.id e
                    /\ MassEntry.profileId e' = MassEntry.profileId e
                    /\ MassEntry.mass e' = MassEntry.mass e
                    /\ MassEntry.unit e' = MassEntry.unit e
                    /\ MassEntry.note e' = MassEntry.note e
                    /\ MassEntry.tags e' = MassEntry.tags e
                    /\ MassEntry.loggedAt e' = MassEntry.loggedAt e
                    /\ MassEntry.createdAt e' = MassEntry.createdAt e
                    /\ (MassEntry.id e = id ->
                        MassEntry.status e' = status
                        /\ MassEntry.updatedAt e' = clockAt host (clockReads s))
                    /\ (MassEntry.id e <> id -> e' = e))
                 (massEntries (web s)) (massEntries (web s'))
      /\ syncQueue (web s') = syncQueue (web s)
      /\ profile (web s') = profile (web s)
      /\ settings (web s') = settings (web s)
      /\ sent s' = sent s
      /\ ((forall e, In e (massEntries (web s)) -> MassEntry.id e <> id) ->
          massEntries (web s') = massEntries (web s)).
Proof.
  intros host id status s. eexists. split; [reflexivity|]. cbn.
  split; [|repeat split; try reflexivity; apply map_withStatus_absent].
  induction (massEntries (web s)) as [|e l IH]; cbn; constructor; auto.
  unfold withStatus.
  destruct (String.eqb_spec (MassEntry.id e) id) as [Heq|Hneq]; cbn;
    repeat split; auto; intros; congruence.
Qed.

Lemma insertBy_last {A : Type} (key : A -> Z) (x m : A) (l : list A) :
  (key x <= key m)%Z ->
  insertBy (fun a b => (key a - key b)%Z) x (l ++ [m])
  = insertBy (fun a b => (key a - key b)%Z) x l ++ [m].
Proof.
  intros Hle. induction l as [|y l IH]; cbn.
  - replace (key x - key m <=? 0)%Z with true; [reflexivity|].
    symmetry. apply Z.leb_le. lia.
  - destruct (key x - key y <=? 0)%Z; [reflexivity|]. now rewrite IH.
Qed.

(** An intent not older than the others sorts last. *)
Lemma sortMutationsAsc_newest_last (q : list SyncMutation.t) (m : SyncMutation.t) :
  (forall x, In x q -> (SyncMutation.createdAt x <= SyncMutation.createdAt m)%Z) ->
  sortMutationsAsc (q ++ [m]) = sortMutationsAsc q ++ [m].
Proof.
  unfold sortMutationsAsc. induction q as [|x q IH]; intros H; [reflexivity|].
  cbn [app Array_sort]. rewrite IH by (intros; apply H; now right).
  apply (insertBy_last SyncMutation.createdAt). apply H. now left.
Qed.

(** X3. [enqueueMutation] returns the identifier it drew and appends an
    intent with no attempts and no error. When no queued intent is newer
    than the clock reading, the new intent is listed after all the others:
    it is on the page while the queue is shorter than the limit, and a
    page that was already full is unchanged. *)
Theorem enqueueMutation_listed_last :
  forall (host : Host) (entityId : string) (operation : SyncOperation)
         (payload : json) (s : Sys),
    (forall x, In x (syncQueue (web s)) ->
               (SyncMutation.createdAt x <= clockAt host (clockReads s))%Z) ->
    let now := clockAt host (clockReads s) in
    let m := SyncMutation.mk (idAt host (idsDrawn s)) entityId operation payload
                             0 None now now in
    exists s' : Sys,
      enqueueMutation host entityId operation payload s
      = (Resolved (idAt host (idsDrawn s)), s')
      /\ syncQueue (web s') = syncQueue (web s) ++ [m]
      /\ massEntries (web s') = massEntries (web s)
      /\ (forall limit : nat,
             fst (listPendingMutations limit s')
             = Resolved (firstn limit (sortMutationsAsc (syncQueue (web s)) ++ [m])))
      /\ (forall limit : nat,
             List.length (syncQueue (web s)) < limit ->
             exists page, fst (listPendingMutations limit s') = Resolved page
                          /\ In m page)
      /\ (forall limit : nat,
             limit <= List.length (syncQueue (web s)) ->
             fst (listPendingMutations limit s') = fst (listPendingMutations limit s)).
Proof.
  intros host entityId operation payload s Holder now m.
  set (s' := snd (enqueueMutation host entityId operation payload s)).
  assert (Hq : syncQueue (web s') = syncQueue (web s) ++ [m]) by reflexivity.
  exists s'. split; [reflexivity|]. split; [exact Hq|]. split; [reflexivity|].
  assert (Hsort : sortMutationsAsc (syncQueue (web s'))
                  = sortMutationsAsc (syncQueue (web s)) ++ [m])
    by (rewrite Hq; apply sortMutationsAsc_newest_last; exact Holder).
  assert (Hlen : List.length (sortMutationsAsc (syncQueue (web s)))
                 = List.length (syncQueue (web s)))
    by apply (Permutation_length (sortMutationsAsc_perm _)).
  split; [|split].
  - intros limit. rewrite listPendingMutations_run. cbn [fst]. now rewrite Hsort.
  - intros limit Hroom. eexists. split.
    + rewrite listPendingMutations_run. cbn [fst]. rewrite Hsort. reflexivity.
    + rewrite firstn_all2; [apply in_or_app; right; now left|].
      rewrite length_app, Hlen. cbn. lia.
  - intros limit Hfull. rewrite !listPendingMutations_run. cbn [fst].
    rewrite Hsort, firstn_app.
    replace (limit - List.length (sortMutationsAsc (syncQueue (web s)))) with 0 by lia.
    cbn. now rewrite app_nil_r.
Qed.

Lemma enqueueMutation_listed_last_witness :
  exists page,
    fst (listPendingMutations 25
           (snd (enqueueMutation (scriptedHost []) "e9" update JNull scenarioC)))
    = Resolved page
    /\ In (SyncMutation.mk "id-0" "e9" update JNull 0 None 1000%Z 1000%Z) page.
Proof.
  destruct (enqueueMutation_listed_last (scriptedHost []) "e9" update JNull scenarioC)
    as (s' & Hrun & _ & _ & _ & Hlisted & _).
  { cbn. intros x [<-|[<-|[]]]; cbn; lia. }
  rewrite Hrun. cbn [snd]. apply (Hlisted 25). cbn. lia.
Defined.

Lemma filter_isNot_absent (id : string) (q : list SyncMutation.t) :
  ~ In id (map SyncMutation.id q) -> filter (isNotMutation id) q = q.
Proof.
  induction q as [|x q IH]; cbn; intros H; [reflexivity|].
  unfold isNotMutation at 1.
  destruct (String.eqb_spec (SyncMutation.id x) id) as [Heq|_]; [tauto|].
  cbn. rewrite IH; tauto.
Qed.

(** X4. Enqueueing an intent under an identifier the queue does not hold
    and then deleting that identifier gives back the store as it was. *)
Theorem enqueue_then_delete_restores :
  forall (host : Host) (entityId : string) (operation : SyncOperation)
         (payload : json) (s : Sys),
    ~ In (idAt host (idsDrawn s)) (map SyncMutation.id (syncQueue (web s))) ->
    exists (mutationId : string) (s1 s2 : Sys),
      enqueueMutation host entityId operation payload s = (Resolved mutationId, s1)
      /\ deleteMutation mutationId s1 = (Resolved tt, s2)
      /\ web s2 = web s.
Proof.
  intros host entityId operation payload s Hfresh.
  eexists; eexists; eexists. split; [cbn; reflexivity|]. split; [reflexivity|].
  cbn. rewrite filter_app, filter_isNot_absent by exact Hfresh. cbn.
  unfold isNotMutation. cbn. rewrite String.eqb_refl. cbn. rewrite app_nil_r.
  now destruct (web s).
Qed.

Lemma enqueue_then_delete_restores_witness :
  exists (mutationId : string) (s1 s2 : Sys),
    enqueueMutation (scriptedHost []) "e9" update JNull scenarioC = (Resolved mutationId, s1)
    /\ deleteMutation mutationId s1 = (Resolved tt, s2)
    /\ web s2 = web scenarioC.
Proof.
  apply (enqueue_then_delete_restores (scriptedHost []) "e9" update JNull scenarioC).
  cbn. intros [H|[H|[]]]; discriminate H.
Defined.

Lemma insertBy_map {A : Type} (key : A -> Z) (f : A -> A) (x : A) (l : list A) :
  (forall a, key (f a) = key a) ->
  insertBy (fun a b => (key a - key b)%Z) (f x) (map f l)
  = map f (insertBy (fun a b => (key a - key b)%Z) x l).
Proof.
  intros Hkey. induction l as [|y l IH]; cbn; [reflexivity|].
  rewrite !Hkey. destruct (key x - key y <=? 0)%Z; [reflexivity|]. cbn. now rewrite IH.
Qed.

Lemma sortMutationsAsc_map (f : SyncMutation.t -> SyncMutation.t)
  (q : list SyncMutation.t) :
  (forall a, SyncMutation.createdAt (f a) = SyncMutation.createdAt a) ->
  sortMutationsAsc (map f q) = map f (sortMutationsAsc q).
Proof.
  intros Hkey. unfold sortMutationsAsc. induction q as [|x q IH]; cbn; [reflexivity|].
  rewrite IH. now apply (insertBy_map SyncMutation.createdAt).
Qed.

Lemma withError_createdAt (id message : string) (now : timestamp) (a : SyncMutation.t) :
  SyncMutation.createdAt (withError id message now a) = SyncMutation.createdAt a.
Proof. unfold withError. now destruct (String.eqb _ _). Qed.

Lemma map_withError_absent (id message : string) (now : timestamp)
  (q : list SyncMutation.t) :
  ~ In id (map SyncMutation.id q) -> map (withError id message now) q = q.
Proof.
  induction q as [|x q IH]; cbn; intros H; [reflexivity|].
  rewrite IH by tauto. unfold withError.
  destruct (String.eqb_spec (SyncMutation.id x) id) as [Heq|_]; [tauto|reflexivity].
Qed.

(** X5. [recordMutationError] never removes or reorders intents: the page
    [listPendingMutations] returns afterwards is the page before with the
    error recorded on the intents of that id, so ids, [entityId],
    [operation], payload and creation time are those of before; entries,
    profile and settings are untouched; for an id the queue does not hold
    the queue is exactly what it was. *)
Theorem recordMutationError_keeps_page :
  forall (host : Host) (id message : string) (limit : nat) (s : Sys),
    exists s' : Sys,
      recordMutationError host id message s = (Resolved tt, s')
      /\ fst (listPendingMutations limit s')
         = Resolved (map (withError id message (clockAt host (clockReads s)))
                         (firstn limit (sortMutationsAsc (syncQueue (web s)))))
      /\ (forall x : SyncMutation.t,
             let x' := withError id message (clockAt host (clockReads s)) x in
             SyncMutation.id x' = SyncMutation.id x
             /\ SyncMutation.entityId x' = SyncMutation.entityId x
             /\ SyncMutation.operation x' = SyncMutation.operation x
             /\ SyncMutation.payload x' = SyncMutation.payload x
             /\ SyncMutation.createdAt x' = SyncMutation.createdAt x)
      /\ massEntries (web s') = massEntries (web s)
      /\ profile (web s') = profile (web s)
      /\ settings (web s') = settings (web s)
      /\ (~ In id (map SyncMutation.id (syncQueue (web s))) ->
          syncQueue (web s') = syncQueue (web s)).
Proof.
  intros host id message limit s. eexists. split; [reflexivity|].
  split.
  { rewrite listPendingMutations_run. cbn [fst snd web syncQueue].
    rewrite sortMutationsAsc_map by apply withError_createdAt.
    now rewrite firstn_map. }
  split.
  { intros x. unfold withError. destruct (String.eqb _ _); cbn; repeat split. }
  cbn. repeat split. apply map_withError_absent.
Qed.

(** X6. Two failures recorded in a row on a queued intent leave it with two
    more attempts and the second message as [lastError]. *)
Theorem recordMutationError_twice :
  forall (host : Host) (m : SyncMutation.t) (first second : string) (s : Sys),
    In m (syncQueue (web s)) ->
    exists s1 s2 : Sys,
      recordMutationError host (SyncMutation.id m) first s = (Resolved tt, s1)
      /\ recordMutationError host (SyncMutation.id m) second s1 = (Resolved tt, s2)
      /\ In (SyncMutation.mk (SyncMutation.id m) (SyncMutation.entityId m)
               (SyncMutation.operation m) (SyncMutation.payload m)
               (SyncMutation.attempts m + 2) (Some second)
               (SyncMutation.createdAt m) (clockAt host (S (clockReads s))))
            (syncQueue (web s2))
      /\ List.length (syncQueue (web s2)) = List.length (syncQueue (web s)).
Proof.
  intros host m first second s Hin.
  eexists; eexists. split; [reflexivity|]. split; [reflexivity|]. cbn.
  split; [|now rewrite !length_map].
  rewrite map_map. apply in_map_iff. exists m. split; [|exact Hin].
  unfold withError. rewrite String.eqb_refl. cbn. rewrite String.eqb_refl.
  f_equal. lia.
Qed.

Lemma recordMutationError_twice_witness :
  exists s1 s2 : Sys,
    recordMutationError (scriptedHost []) "m1" "offline" scenarioC = (Resolved tt, s1)
    /\ recordMutationError (scriptedHost []) "m1" "HTTP 500" s1 = (Resolved tt, s2)
    /\ In (SyncMutation.mk "m1" "e1" create JNull 2 (Some "HTTP 500") 1%Z 1001%Z)
          (syncQueue (web s2)).
Proof.
  destruct (recordMutationError_twice (scriptedHost []) (intentAt 1) "offline" "HTTP 500"
              scenarioC) as (s1 & s2 & H1 & H2 & Hin & _).
  { right. left. reflexivity. }
  exists s1, s2. repeat split; assumption.
Defined.

Lemma last_default_irrelevant {A : Type} (l : list A) (d d' : A) :
  l <> [] -> last l d = last l d'.
Proof.
  induction l as [|x [|y l] IH]; intros H; [contradiction|reflexivity|].
  cbn [last] in *. apply IH. discriminate.
Qed.

Lemma last_of_map {A B : Type} (f : A -> B) (l : list A) (d : A) :
  last (map f l) (f d) = f (last l d).
Proof. induction l as [|x [|y l] IH]; cbn in *; auto. Qed.

Lemma saveUserProfile_existing (host : Host) (input : UserProfileInput.t) (s : Sys)
  (row : option UserProfile.t) :
  profile (web s) = row ->
  exists (p1 : UserProfile.t) (s1 : Sys),
    saveUserProfile host input s = (Resolved p1, s1)
    /\ profile (web s1) = Some p1
    /\ UserProfile.id p1 = PROFILE_ID
    /\ UserProfile.createdAt p1
       = match row with
         | Some existing => UserProfile.createdAt existing
         | None => clockAt host (clockReads s)
         end
    /\ UserProfile.updatedAt p1 = clockAt host (clockReads s)
    /\ UserProfile.fullName p1 = trim (UserProfileInput.fullName input)
    /\ clockReads s1 = S (clockReads s)
    /\ massEntries (web s1) = massEntries (web s)
    /\ syncQueue (web s1) = syncQueue (web s)
    /\ settings (web s1) = settings (web s).
Proof.
  intros Hrow. unfold saveUserProfile, bind, nowISO, getWebState, setWebState, ret.
  cbn. rewrite Hrow. eexists; eexists. split; [reflexivity|].
  destruct row; cbn; repeat split.
Qed.

Lemma saveUserProfile_again (host : Host) (rest : list UserProfileInput.t) :
  forall (s : Sys) (p0 : UserProfile.t),
    profile (web s) = Some p0 ->
    exists (saved : UserProfile.t) (s' : Sys),
      forOf (fun input (_ : UserProfile.t) => saveUserProfile host input) rest p0 s
      = (Resolved saved, s')
      /\ profile (web s') = Some saved
      /\ UserProfile.createdAt saved = UserProfile.createdAt p0
      /\ UserProfile.id saved
         = match rest with [] => UserProfile.id p0 | _ :: _ => PROFILE_ID end
      /\ UserProfile.updatedAt saved
         = match rest with
           | [] => UserProfile.updatedAt p0
           | _ :: _ => clockAt host (clockReads s + List.length rest - 1)
           end
      /\ UserProfile.fullName saved
         = last (map (fun i => trim (UserProfileInput.fullName i)) rest)
                (UserProfile.fullName p0)
      /\ massEntries (web s') = massEntries (web s)
      /\ syncQueue (web s') = syncQueue (web s)
      /\ settings (web s') = settings (web s).
Proof.
  induction rest as [|input rest IH]; intros s p0 Hrow.
  - exists p0, s. cbn. repeat split; auto.
  - cbn [forOf]. unfold bind at 1.
    destruct (saveUserProfile_existing host input s (Some p0) Hrow)
      as (p1 & s1 & Hsave & Hrow1 & Hid1 & Hc1 & Hu1 & Hn1 & Hk1 & He1 & Hq1 & Ht1).
    rewrite Hsave.
    destruct (IH s1 p1 Hrow1) as (saved & s' & Hrun & Hp & Hc & Hid & Hu & Hn & He & Hq & Ht).
    exists saved, s'. split; [exact Hrun|]. split; [exact Hp|]. split; [congruence|].
    split; [destruct rest; congruence|]. split.
    { rewrite Hu. destruct rest as [|i rest].
      - rewrite Hu1. f_equal. cbn. lia.
      - f_equal. rewrite Hk1. cbn [List.length]. lia. }
    split.
    { rewrite Hn. cbn [map]. destruct rest as [|i rest]; [exact Hn1|].
      rewrite (last_default_irrelevant _ (UserProfile.fullName p1) (UserProfile.fullName p0))
        by discriminate.
      reflexivity. }
    repeat split; congruence.
Qed.

(** On a single profile row the SQLite branch of [saveUserProfile] does
    what the in-memory branch does. *)
Lemma native_saveUserProfile_same (host : Host) (input : UserProfileInput.t) (s : Sys) :
  (forall row, profile (web s) = Some row -> UserProfile.id row = PROFILE_ID) ->
  Native.saveUserProfile host input s = saveUserProfile host input s.
Proof.
  intros Hid. unfold Native.saveUserProfile, saveUserProfile, bind, nowISO,
    getWebState, setWebState, ret. cbn.
  destruct (profile (web s)) as [row|] eqn:Hrow; [|reflexivity].
  cbn. now rewrite (Hid row eq_refl).
Qed.

Lemma native_saveUserProfile_again (host : Host) (rest : list UserProfileInput.t) :
  forall (s : Sys) (p0 : UserProfile.t),
    (forall row, profile (web s) = Some row -> UserProfile.id row = PROFILE_ID) ->
    forOf (fun input (_ : UserProfile.t) => Native.saveUserProfile host input) rest p0 s
    = forOf (fun input (_ : UserProfile.t) => saveUserProfile host input) rest p0 s.
Proof.
  induction rest as [|input rest IH]; intros s p0 Hid; [reflexivity|].
  cbn [forOf]. unfold bind at 1 2.
  rewrite native_saveUserProfile_same by exact Hid.
  destruct (saveUserProfile_existing host input s (profile (web s)) eq_refl)
    as (p1 & s1 & Hsave & Hrow1 & Hid1 & _).
  rewrite Hsave. apply IH. intros row Hrow. congruence.
Qed.

(** X7. Saved for the first time, the profile takes the fixed id and the
    time of the call as [createdAt]; however many saves follow, the stored
    profile keeps that [createdAt], carries the name of the last input and
    the time of the last save as [updatedAt], and entries, queue and
    settings are untouched; the SQLite branch stores and returns the same.
    On the in-memory branch [getUserProfile] then returns what the last
    save returned; on the SQLite branch it returns that profile with a
    blank e-mail or bio read as null, hence the same profile when neither
    is blank. *)
Theorem saveUserProfile_sequence :
  forall (host : Host) (first : UserProfileInput.t) (rest : list UserProfileInput.t)
         (s : Sys),
    profile (web s) = None ->
    exists (saved : UserProfile.t) (s' : Sys),
      (p0 <- saveUserProfile host first ;;
       forOf (fun input (_ : UserProfile.t) => saveUserProfile host input) rest p0) s
      = (Resolved saved, s')
      /\ getUserProfile s' = (Resolved (Some saved), s')
      /\ UserProfile.id saved = PROFILE_ID
      /\ UserProfile.createdAt saved = clockAt host (clockReads s)
      /\ UserProfile.updatedAt saved = clockAt host (clockReads s + List.length rest)
      /\ UserProfile.fullName saved = trim (UserProfileInput.fullName (last rest first))
      /\ massEntries (web s') = massEntries (web s)
      /\ syncQueue (web s') = syncQueue (web s)
      /\ settings (web s') = settings (web s)
      /\ (p0 <- Native.saveUserProfile host first ;;
          forOf (fun input (_ : UserProfile.t) => Native.saveUserProfile host input)
                rest p0) s
         = (Resolved saved, s')
      /\ Native.getUserProfile s'
         = (Resolved
              (Some (UserProfile.mk (UserProfile.id saved) (UserProfile.fullName saved)
                       (match UserProfile.email saved with
                        | Some text => if truthy text then Some text else None
                        | None => None
                        end)
                       (match UserProfile.bio saved with
                        | Some text => if truthy text then Some text else None
                        | None => None
                        end)
                       (UserProfile.unitPreference saved) (UserProfile.goalMass saved)
                       (UserProfile.createdAt saved) (UserProfile.updatedAt saved))),
            s')
      /\ (UserProfile.email saved <> Some EmptyString ->
          UserProfile.bio saved <> Some EmptyString ->
          Native.getUserProfile s' = (Resolved (Some saved), s')).
Proof.
  intros host first rest s Hnone.
  assert (Hnative :
            (p0 <- Native.saveUserProfile host first ;;
             forOf (fun input (_ : UserProfile.t) => Native.saveUserProfile host input)
                   rest p0) s
            = (p0 <- saveUserProfile host first ;;
               forOf (fun input (_ : UserProfile.t) => saveUserProfile host input)
                     rest p0) s).
  { unfold bind at 1 2.
    rewrite native_saveUserProfile_same by (intros row Hrow; congruence).
    destruct (saveUserProfile_existing host first s None Hnone)
      as (p0 & s0 & Hsave & Hrow0 & Hid0 & _).
    rewrite Hsave. apply native_saveUserProfile_again.
    intros row Hrow. congruence. }
  rewrite Hnative.
  unfold bind at 1 2.
  destruct (saveUserProfile_existing host first s None Hnone)
    as (p0 & s0 & Hsave & Hrow0 & Hid0 & Hc0 & Hu0 & Hn0 & Hk0 & He0 & Hq0 & Ht0).
  rewrite Hsave.
  destruct (saveUserProfile_again host rest s0 p0 Hrow0)
    as (saved & s' & Hrun & Hp & Hc & Hid & Hu & Hn & He & Hq & Ht).
  assert (Hread : Native.getUserProfile s'
                  = (Resolved (Some (Native.mapRowToProfile saved)), s')).
  { unfold Native.getUserProfile, bind, getWebState, ret. cbn. now rewrite Hp. }
  exists saved, s'. split; [exact Hrun|].
  split; [unfold getUserProfile, bind, getWebState, ret; cbn; now rewrite Hp|].
  split; [destruct rest; congruence|]. split; [congruence|].
  split.
  { rewrite Hu. destruct rest as [|i rest].
    - rewrite Hu0. f_equal. cbn. lia.
    - f_equal. rewrite Hk0. cbn [List.length]. lia. }
  split; [rewrite Hn, Hn0; apply (last_of_map (fun i => trim (UserProfileInput.fullName i)))|].
  split; [congruence|]. split; [congruence|]. split; [congruence|].
  split; [exact Hrun|]. split; [exact Hread|].
  intros Hemail Hbio. rewrite Hread. do 3 f_equal.
  unfold Native.mapRowToProfile, Native.textOrNull.
  destruct saved as [i n e b u g c up]. cbn in *.
  destruct e as [[|? ?]|]; destruct b as [[|? ?]|]; try reflexivity; congruence.
Qed.

Lemma saveUserProfile_sequence_witness :
  exists (saved : UserProfile.t) (s' : Sys),
    (p0 <- saveUserProfile (scriptedHost []) (UserProfileInput.mk "Ada" None None None None) ;;
     forOf (fun input (_ : UserProfile.t) => saveUserProfile (scriptedHost []) input)
           [UserProfileInput.mk " Ada L. " (Some " ") None (Some lb) None] p0) scenarioC
    = (Resolved saved, s')
    /\ UserProfile.createdAt saved = 1000%Z
    /\ UserProfile.updatedAt saved = 1001%Z
    /\ UserProfile.fullName saved = "Ada L."
    /\ fst (getUserProfile s') = Resolved (Some saved)
    /\ UserProfile.email saved = Some EmptyString
    /\ exists read : UserProfile.t,
         fst (Native.getUserProfile s') = Resolved (Some read)
         /\ UserProfile.email read = None.
Proof.
  destruct (saveUserProfile_sequence (scriptedHost [])
              (UserProfileInput.mk "Ada" None None None None)
              [UserProfileInput.mk " Ada L. " (Some " ") None (Some lb) None]
              scenarioC eq_refl)
    as (saved & s' & Hrun & Hget & _ & Hc & Hu & Hn & _ & _ & _ & _ & Hread & _).
  exists saved, s'. split; [exact Hrun|]. split; [exact Hc|]. split; [exact Hu|].
  split; [exact Hn|]. split; [now rewrite Hget|].
  injection Hrun as <- _. split; [reflexivity|].
  eexists. split; [rewrite Hread; reflexivity|]. reflexivity.
Defined.

(** X8. Saving settings is idempotent: saving the record [saveAppSettings]
    returned returns and stores the same record again. Only [reminderHour]
    is ever normalised; with a finite hour the input is saved unchanged;
    entries, queue and profile are untouched. *)
Theorem saveAppSettings_idempotent :
  forall (input : AppSettings.t) (s : Sys),
    exists (saved : AppSettings.t) (s' : Sys),
      saveAppSettings input s = (Resolved saved, s')
      /\ saveAppSettings saved s' = (Resolved saved, s')
      /\ AppSettings.autoSync saved = AppSettings.autoSync input
      /\ AppSettings.remindersEnabled saved = AppSettings.remindersEnabled input
      /\ AppSettings.lastSync saved = AppSettings.lastSync input
      /\ AppSettings.reminderNotificationId saved = AppSettings.reminderNotificationId input
      /\ (Number_isFinite (AppSettings.reminderHour input) = true -> saved = input)
      /\ massEntries (web s') = massEntries (web s)
      /\ syncQueue (web s') = syncQueue (web s)
      /\ profile (web s') = profile (web s).
Proof.
  intros [a r h l n] s. eexists; eexists. split; [reflexivity|].
  destruct h; cbn; repeat split; intros; discriminate.
Qed.

(* ===================================================================== *)
(** ** Further properties: endpoint, requests and runs *)
(* ===================================================================== *)

Lemma endsWith_app (p suffix : string) : endsWith (p ++ suffix)%string suffix = true.
Proof.
  induction p as [|c p IH]; cbn [append endsWith].
  - destruct suffix; cbn [endsWith]; now rewrite String.eqb_refl.
  - rewrite IH. now destruct (String.eqb _ _).
Qed.

Lemma lastChar_app (a b : string) :
  lastChar (a ++ b)%string
  = match lastChar b with Some d => Some d | None => lastChar a end.
Proof.
  induction a as [|c a IH]; cbn [append lastChar].
  - now destruct (lastChar b).
  - rewrite IH. destruct (lastChar b); [reflexivity|]. reflexivity.
Qed.

Lemma stripTrailingSlash_slash (b : string) :
  stripTrailingSlash (b ++ "/")%string = b.
Proof.
  induction b as [|c b IH]; [reflexivity|].
  destruct b as [|d b]; [reflexivity|].
  cbn [append stripTrailingSlash] in *. now rewrite IH.
Qed.

(** X9. A configured endpoint ends in [/v1/mass], is left alone by
    [normalizeEndpoint], and is a fixed point of the computation: fed back
    as the environment value it yields itself. *)
Theorem SYNC_ENDPOINT_normal_form :
  forall (raw : option string) (ep : string),
    SYNC_ENDPOINT raw = Some ep ->
    endsWith ep "/v1/mass" = true
    /\ normalizeEndpoint ep = ep
    /\ truthy ep = true
    /\ SYNC_ENDPOINT (Some ep) = Some ep.
Proof.
  intros raw ep H. destruct (SYNC_ENDPOINT_shape raw ep H) as [p ->].
  assert (Hends : endsWith (p ++ "/v1/mass") "/v1/mass" = true) by apply endsWith_app.
  assert (Hnorm : normalizeEndpoint (p ++ "/v1/mass") = (p ++ "/v1/mass")%string)
    by apply stripTrailingSlash_mass.
  split; [exact Hends|]. split; [exact Hnorm|]. split; [apply truthy_mass|].
  unfold SYNC_ENDPOINT. now rewrite Hends, Hnorm.
Qed.

Lemma SYNC_ENDPOINT_normal_form_witness :
  SYNC_ENDPOINT (Some "https://api.trakmass.app/v1/mass")
  = Some "https://api.trakmass.app/v1/mass".
Proof.
  exact (proj2 (proj2 (proj2
           (SYNC_ENDPOINT_normal_form (Some "https://api.trakmass.app/")
              "https://api.trakmass.app/v1/mass" eq_refl)))).
Defined.

(** X10. An environment value that ends in a slash always has that slash
    replaced by [/v1/mass] - also when the text before the slash already
    ends in [/v1/mass], so that [base/v1/mass/] configures
    [base/v1/mass/v1/mass]. *)
Theorem SYNC_ENDPOINT_trailing_slash :
  forall b : string,
    SYNC_ENDPOINT (Some (b ++ "/")%string) = Some (b ++ "/v1/mass")%string
    /\ SYNC_ENDPOINT (Some (b ++ "/v1/mass/")%string)
       = Some (b ++ "/v1/mass/v1/mass")%string.
Proof.
  assert (Hgen : forall b : string,
             SYNC_ENDPOINT (Some (b ++ "/")%string) = Some (b ++ "/v1/mass")%string).
  { intros b. unfold SYNC_ENDPOINT, normalizeEndpoint.
    destruct (endsWith (b ++ "/") "/v1/mass") eqn:E.
    - apply endsWith_split in E as [p Hp].
      apply (f_equal lastChar) in Hp. rewrite !lastChar_app in Hp. discriminate Hp.
    - rewrite stripTrailingSlash_slash.
      now replace (truthy (b ++ "/")) with true by (now destruct b). }
  intros b. split; [apply Hgen|].
  specialize (Hgen (b ++ "/v1/mass")%string).
  now rewrite !string_app_assoc in Hgen.
Qed.

(** X11. With an endpoint configured, a create goes out as a POST to the
    endpoint, an update as a PATCH and a delete as a DELETE to the endpoint
    followed by [/] and the entity id; a delete carries no body, the others
    the serialized payload; the request always declares JSON content and
    carries the bearer token exactly when a non-empty token is given. *)
Theorem mutationRequest_shape :
  forall (raw token : option string) (ep : string) (m : SyncMutation.t),
    SYNC_ENDPOINT raw = Some ep ->
    url (mutationRequest raw m token)
    = match SyncMutation.operation m with
      | create => ep
      | update | delete => (ep ++ "/" ++ SyncMutation.entityId m)%string
      end
    /\ method (mutationRequest raw m token)
       = match SyncMutation.operation m with
         | create => "POST" | update => "PATCH" | delete => "DELETE"
         end
    /\ body (mutationRequest raw m token)
       = match SyncMutation.operation m with
         | delete => None
         | create | update => Some (JSON_stringify (SyncMutation.payload m))
         end
    /\ headers (mutationRequest raw m token)
       = match token with
         | Some (String c t) =>
             [("Content-Type", "application/json");
              ("Authorization", ("Bearer " ++ String c t)%string)]
         | Some EmptyString | None => [("Content-Type", "application/json")]
         end.
Proof.
  intros raw token ep m H.
  destruct (SYNC_ENDPOINT_shape raw ep H) as [p ->].
  unfold mutationRequest, getMutationUrl. rewrite H. cbn [option_map url method body headers].
  rewrite stripTrailingSlash_mass, truthy_mass. cbn [negb].
  split; [now destruct (SyncMutation.operation m)|].
  split; [now destruct (SyncMutation.operation m)|].
  split; [now destruct (SyncMutation.operation m)|].
  destruct token as [[|c t]|]; reflexivity.
Qed.

Lemma mutationRequest_shape_witness :
  mutationRequest (Some "http://api/") (SyncMutation.mk "m7" "e7" delete JNull 0 None 1%Z 1%Z)
                  (Some "tok")
  = mkRequest "http://api/v1/mass/e7" "DELETE"
      [("Content-Type", "application/json"); ("Authorization", "Bearer tok")] None.
Proof.
  destruct (mutationRequest_shape (Some "http://api/") (Some "tok") "http://api/v1/mass"
              (SyncMutation.mk "m7" "e7" delete JNull 0 None 1%Z 1%Z) eq_refl)
    as (Hu & Hm & Hb & Hh).
  destruct (mutationRequest (Some "http://api/")
              (SyncMutation.mk "m7" "e7" delete JNull 0 None 1%Z 1%Z) (Some "tok"))
    as [u me h b].
  cbn in Hu, Hm, Hb, Hh. now subst.
Defined.

(** X12. [sendMutation] never touches the store, the clock or the id
    generator. With no endpoint it rejects without sending anything; with
    one it sends exactly one request, resolves exactly when the remote
    answers with a 2xx status, and on any other status rejects with a
    non-empty message. *)
Theorem sendMutation_effect :
  forall (host : Host) (raw token : option string) (m : SyncMutation.t) (s : Sys),
    let result := sendMutation host raw m token s in
    web (snd result) = web s
    /\ clockReads (snd result) = clockReads s
    /\ idsDrawn (snd result) = idsDrawn s
    /\ match SYNC_ENDPOINT raw with
       | None =>
           result = (Rejected (ErrorObject "SYNC_ENDPOINT is not configured"), s)
       | Some _ =>
           sent (snd result) = sent s ++ [mutationRequest raw m token]
           /\ (fst result = Resolved tt <->
               exists r, reply host (sent s) (mutationRequest raw m token) = FetchResponds r
                         /\ ok r = true)
           /\ (forall r, reply host (sent s) (mutationRequest raw m token) = FetchResponds r ->
                         ok r = false ->
                         exists message, fst result = Rejected (ErrorObject message)
                                         /\ truthy message = true)
       end.
Proof.
  intros host raw token m s result. subst result.
  destruct (SYNC_ENDPOINT raw) as [ep|] eqn:Hep.
  - pose proof (configured_url_truthy raw ep m Hep) as Hurl.
    unfold sendMutation, bind, fetch. rewrite Hurl. cbn [negb].
    destruct (reply host (sent s) (mutationRequest raw m token)) as [e|r] eqn:Hreply.
    + cbn. do 4 (split; [reflexivity|]). split.
      * split; [discriminate|]. intros (r & Hr & _). discriminate Hr.
      * intros r Hr. discriminate Hr.
    + destruct (ok r) eqn:Hok; cbn; do 4 (split; [reflexivity|]); split.
      * split; [intros _; now exists r|reflexivity].
      * intros r' [= <-]. congruence.
      * split; [discriminate|]. intros (r' & [= <-] & Hok'). congruence.
      * intros r' [= <-] _. eexists. split; [reflexivity|].
        now destruct (responseText r).
  - unfold sendMutation, getMutationUrl. rewrite Hep. cbn. repeat split.
Qed.

Lemma map_id_filter_isNot (id : string) (q : list SyncMutation.t) :
  map SyncMutation.id (filter (isNotMutation id) q)
  = filter (fun i => negb (String.eqb i id)) (map SyncMutation.id q).
Proof.
  induction q as [|x q IH]; cbn; [reflexivity|].
  unfold isNotMutation at 1. destruct (String.eqb _ _); cbn; now rewrite IH.
Qed.

Lemma map_id_withError (id message : string) (now : timestamp) (q : list SyncMutation.t) :
  map SyncMutation.id (map (withError id message now) q) = map SyncMutation.id q.
Proof.
  rewrite map_map. apply map_ext. intros x. unfold withError.
  now destruct (String.eqb _ _).
Qed.

Lemma filter_filter {A : Type} (f g : A -> bool) (l : list A) :
  filter f (filter g l) = filter (fun x => (g x && f x)%bool) l.
Proof.
  induction l as [|x l IH]; cbn; [reflexivity|].
  destruct (g x); cbn; [destruct (f x)|]; now rewrite IH.
Qed.

Lemma run_ids (host : Host) (raw token : option string) (page : list SyncMutation.t) :
  forall st : SyncLocals * Sys,
    map SyncMutation.id
        (syncQueue (web (snd (fold_left (iteration host raw token) page st))))
    = filter (noneOf (deliveredIds (outcomes host raw token (sent (snd st)) page)))
             (map SyncMutation.id (syncQueue (web (snd st)))).
Proof.
  induction page as [|m rest IH]; intros st; cbn [fold_left outcomes].
  - cbn. symmetry. apply forallb_filter_id. now induction (map _ _).
  - rewrite IH, iteration_sent. unfold iteration.
    destruct (failureOf (reply host (sent (snd st)) (mutationRequest raw m token)))
      as [message|]; cbn [snd web syncQueue deliveredIds filter map fst].
    + now rewrite map_id_withError.
    + rewrite map_id_filter_isNot, filter_filter. apply filter_ext.
      intros i. unfold noneOf. cbn [existsb]. fold (deliveredIds (outcomes host raw token
        (sent (snd st) ++ [mutationRequest raw m token]) rest)).
      now rewrite negb_orb.
Qed.

(** X13. A run loses no intent: with an endpoint configured, the ids of the
    queue after the run are the ids before it, in the same order, minus
    those of the intents that were delivered. *)
Theorem sync_run_removes_only_delivered :
  forall (host : Host) (raw token : option string) (ep : string) (s : Sys),
    SYNC_ENDPOINT raw = Some ep ->
    let page := firstn 25 (sortMutationsAsc (syncQueue (web s))) in
    let outs := outcomes host raw token (sent s) page in
    map SyncMutation.id (syncQueue (web (snd (syncPendingEntries host raw token s))))
    = filter (noneOf (deliveredIds outs)) (map SyncMutation.id (syncQueue (web s))).
Proof.
  intros host raw token ep s Hep page outs.
  rewrite (syncPendingEntries_run host raw token ep s Hep). cbn [snd].
  apply (run_ids host raw token page (mkSyncLocals 0 [], s)).
Qed.

Lemma sync_run_removes_only_delivered_witness :
  map SyncMutation.id
      (syncQueue (web (snd (syncPendingEntries (scriptedHost [500; 200])
                              (Some "http://api/") None scenarioC))))
  = ["m1"].
Proof.
  exact (sync_run_removes_only_delivered (scriptedHost [500; 200]) (Some "http://api/") None
           "http://api/v1/mass" scenarioC eq_refl).
Defined.

Lemma run_frame (host : Host) (raw token : option string) (page : list SyncMutation.t) :
  forall st : SyncLocals * Sys,
    let final := snd (fold_left (iteration host raw token) page st) in
    profile (web final) = profile (web (snd st))
    /\ settings (web final) = settings (web (snd st))
    /\ idsDrawn final = idsDrawn (snd st)
    /\ clockReads final = clockReads (snd st) + List.length page
    /\ map MassEntry.id (massEntries (web final))
       = map MassEntry.id (massEntries (web (snd st))).
Proof.
  induction page as [|m rest IH]; intros st; cbn [fold_left].
  - cbn. rewrite Nat.add_0_r. repeat split.
  - destruct (IH (iteration host raw token st m)) as (Hp & Ht & Hi & Hc & He).
    cbv zeta. rewrite Hp, Ht, Hi, Hc, He. unfold iteration.
    destruct (failureOf _) as [message|]; cbn; repeat split; try lia.
    rewrite map_map. apply map_ext. intros e. unfold withStatus.
    now destruct (String.eqb _ _).
Qed.

(** X14. Whatever the configuration and the remote's answers, a run
    resolves; it never touches the profile, the settings or the id
    generator, keeps the entries' ids and order, and reads the clock and
    sends a request exactly once per attempted intent; on an empty queue it
    changes nothing at all. *)
Theorem sync_run_frame :
  forall (host : Host) (raw token : option string) (s : Sys),
    exists (stats : SyncStats.t) (s' : Sys),
      syncPendingEntries host raw token s = (Resolved stats, s')
      /\ profile (web s') = profile (web s)
      /\ settings (web s') = settings (web s)
      /\ idsDrawn s' = idsDrawn s
      /\ map MassEntry.id (massEntries (web s')) = map MassEntry.id (massEntries (web s))
      /\ clockReads s' = clockReads s + SyncStats.attempted stats
      /\ List.length (sent s') = List.length (sent s) + SyncStats.attempted stats
      /\ (syncQueue (web s) = [] -> s' = s /\ SyncStats.attempted stats = 0).
Proof.
  intros host raw token s.
  destruct (SYNC_ENDPOINT_cases raw) as [[Hnone Hfalsy]|(ep & Hep & _)].
  - exists (SyncStats.mk 0 0 true (Some "SYNC_ENDPOINT not configured") []), s.
    split; [unfold syncPendingEntries; now rewrite Hfalsy|].
    cbn. rewrite !Nat.add_0_r. repeat split.
  - eexists; eexists.
    split; [apply (syncPendingEntries_run host raw token ep s Hep)|].
    cbn [snd SyncStats.attempted].
    set (page := firstn 25 (sortMutationsAsc (syncQueue (web s)))).
    destruct (run_frame host raw token page (mkSyncLocals 0 [], s))
      as (Hp & Ht & Hi & Hc & He).
    cbn [snd] in Hp, Ht, Hi, Hc, He.
    split; [exact Hp|]. split; [exact Ht|]. split; [exact Hi|].
    split; [exact He|]. split; [exact Hc|]. split.
    + rewrite run_sent. cbn [snd]. now rewrite length_app, length_map.
    + intros Hempty. subst page. rewrite Hempty. cbn. now split.
Qed.

(* ===================================================================== *)
(** ** Further properties: seeding and the mass store *)
(* ===================================================================== *)

Lemma seedLoopBody_run (host : Host) (platform : Platform) (base : string)
  (token : option string) (entry : MassEntry.t) (s : Sys) :
  seedLoopBody host platform base token entry tt s
  = (Resolved tt,
     mkSys (web s) (sent s ++ [seedRequest platform base token entry])
           (clockReads s) (idsDrawn s)).
Proof.
  unfold seedLoopBody, tryCatch, bind, fetch.
  destruct (reply host (sent s) (seedRequest platform base token entry)) as [e|r];
    [reflexivity|].
  destruct (negb (ok r) && negb (Nat.eqb (responseStatus r) 409))%bool; reflexivity.
Qed.

Lemma seed_loop (host : Host) (platform : Platform) (base : string)
  (token : option string) (entries : list MassEntry.t) :
  forall s : Sys,
    forOf (seedLoopBody host platform base token) entries tt s
    = (Resolved tt,
       mkSys (web s) (sent s ++ map (seedRequest platform base token) entries)
             (clockReads s) (idsDrawn s)).
Proof.
  induction entries as [|entry rest IH]; intros s.
  - cbn. rewrite app_nil_r. now destruct s.
  - cbn [forOf map]. unfold bind at 1.
    rewrite seedLoopBody_run, IH. cbn. now rewrite <- app_assoc.
Qed.

(** A configured endpoint is truthy and has no trailing slash to strip. *)
Lemma configured_endpoint_normal (raw : option string) (ep : string) :
  SYNC_ENDPOINT raw = Some ep -> normalizeEndpoint ep = ep /\ truthy ep = true.
Proof.
  intros H. destruct (SYNC_ENDPOINT_shape raw ep H) as [p ->].
  split; [apply stripTrailingSlash_mass|apply truthy_mass].
Qed.

(** What [seedEntries] does on each of its three paths. *)
Lemma seedEntries_run (host : Host) (raw : option string) (platform : Platform)
  (entries : list MassEntry.t) (token : option string) (s : Sys) :
  seedEntries host raw platform entries token s
  = match SYNC_ENDPOINT raw with
    | None => (Rejected (ErrorObject "SYNC_ENDPOINT is not configured"), s)
    | Some ep =>
        if falsy token
        then (Rejected (ErrorObject "Authentication token missing for seeding"), s)
        else (Resolved tt,
              mkSys (web s) (sent s ++ map (seedRequest platform ep token) entries)
                    (clockReads s) (idsDrawn s))
    end.
Proof.
  unfold seedEntries.
  destruct (SYNC_ENDPOINT_cases raw) as [[Hnone Hfalsy]|(ep & Hep & Hfalsy)].
  - now rewrite Hfalsy, Hnone.
  - rewrite Hfalsy, Hep.
    destruct (falsy token) eqn:Htoken; [reflexivity|].
    destruct (configured_endpoint_normal raw ep Hep) as (Hnorm & Htruthy).
    unfold normalizeEndpoint in Hnorm. cbn [option_map falsy]. rewrite Hnorm, Htruthy.
    cbn [negb]. now rewrite seed_loop.
Qed.

(** X15. [seedEntries] rejects, before sending anything, when no endpoint
    is configured or when the token is missing or empty. Otherwise it
    resolves whatever the remote answers - conflict, error status or
    network failure alike - after sending exactly one POST per entry, in
    order, to the endpoint; it never touches the store, the clock or the
    id generator. *)
Theorem seedEntries_effect :
  forall (host : Host) (raw : option string) (platform : Platform)
         (entries : list MassEntry.t) (token : option string) (s : Sys),
    let result := seedEntries host raw platform entries token s in
    web (snd result) = web s
    /\ clockReads (snd result) = clockReads s
    /\ idsDrawn (snd result) = idsDrawn s
    /\ match SYNC_ENDPOINT raw with
       | None => result = (Rejected (ErrorObject "SYNC_ENDPOINT is not configured"), s)
       | Some ep =>
           if falsy token
           then result
                = (Rejected (ErrorObject "Authentication token missing for seeding"), s)
           else fst result = Resolved tt
                /\ sent (snd result)
                   = sent s ++ map (seedRequest platform ep token) entries
                /\ Forall (fun req => url req = ep /\ method req = "POST")
                          (map (seedRequest platform ep token) entries)
       end.
Proof.
  intros host raw platform entries token s result. subst result.
  rewrite seedEntries_run.
  destruct (SYNC_ENDPOINT raw) as [ep|]; [|cbn; repeat split].
  destruct (falsy token); cbn; repeat split.
  apply Forall_forall. intros req Hreq. apply in_map_iff in Hreq as (e & <- & _).
  now split.
Qed.

(** What [addEntry] leaves behind: the entry first in the list and one
    [create] for it last in the queue. *)
Lemma addEntry_stored (host : Host) (platform : Platform) (store : MassStore.t)
  (input : MassEntryInput.t) (s : Sys) :
  exists (entry : MassEntry.t) (intent : SyncMutation.t) (s' : Sys),
    addEntry host platform store input s
    = (Resolved (entry, MassStore.mk (entry :: MassStore.entries store)
                                     (MassStore.isHydrated store)), s')
    /\ MassEntry.status entry = pending
    /\ massEntries (web s') = entry :: massEntries (web s)
    /\ syncQueue (web s') = syncQueue (web s) ++ [intent]
    /\ SyncMutation.entityId intent = MassEntry.id entry
    /\ sent s' = sent s.
Proof.
  eexists; eexists; eexists. split; [cbn; reflexivity|]. cbn. repeat split.
Qed.


(** X17. An entry added while nothing else is queued and then synced
    against a remote that accepts the request ends up [synced] in the
    store with an empty queue and statistics 1/1; the copy [addEntry]
    returned still says [pending]. *)
Theorem addEntry_then_sync :
  forall (host : Host) (raw token : option string) (ep : string) (platform : Platform)
         (store : MassStore.t) (input : MassEntryInput.t) (s : Sys),
    SYNC_ENDPOINT raw = Some ep ->
    syncQueue (web s) = [] ->
    (forall req, exists r, reply host (sent s) req = FetchResponds r /\ ok r = true) ->
    exists (entry : MassEntry.t) (store' : MassStore.t) (s' : Sys),
      (added <- addEntry host platform store input ;;
       stats <- syncPendingEntries host raw token ;;
       ret (added, stats)) s
      = (Resolved ((entry, store'), SyncStats.mk 1 1 false None []), s')
      /\ MassEntry.status entry = pending
      /\ syncQueue (web s') = []
      /\ (exists stored, In stored (massEntries (web s'))
                         /\ MassEntry.id stored = MassEntry.id entry
                         /\ MassEntry.status stored = synced)
      /\ (forall e, In e (massEntries (web s')) ->
                    MassEntry.id e = MassEntry.id entry -> MassEntry.status e = synced)
      /\ List.length (sent s') = S (List.length (sent s)).
Proof.
  intros host raw token ep platform store input s Hep Hempty Haccept.
  unfold bind at 1.
  destruct (addEntry_stored host platform store input s)
    as (entry & intent & s1 & Hadd & Hst & Hentries & Hqueue & Hent & Hsent).
  rewrite Hadd. unfold bind at 1.
  rewrite (syncPendingEntries_run host raw token ep s1 Hep).
  rewrite Hqueue, Hempty. cbn [app].
  change (firstn 25 (sortMutationsAsc [intent])) with [intent].
  cbn [fold_left List.length]. unfold iteration. cbn [fst snd].
  rewrite Hsent.
  destruct (Haccept (mutationRequest raw intent token)) as (r & Hreply & Hok).
  rewrite Hreply. cbn [failureOf]. rewrite Hok.
  cbn [localSynced localErrors ret fst snd].
  exists entry. eexists. eexists. split; [reflexivity|].
  cbn [web syncQueue massEntries sent].
  rewrite Hqueue, Hempty, Hentries. cbn [app filter map].
  unfold isNotMutation. rewrite String.eqb_refl. cbn [negb].
  split; [exact Hst|]. split; [reflexivity|].
  assert (Hself : withStatus (SyncMutation.entityId intent) synced
                    (clockAt host (clockReads s1)) entry
                  = MassEntry.mk (MassEntry.id entry) (MassEntry.profileId entry)
                      (MassEntry.mass entry) (MassEntry.unit entry)
                      (MassEntry.note entry) (MassEntry.tags entry)
                      (MassEntry.loggedAt entry) synced (MassEntry.createdAt entry)
                      (clockAt host (clockReads s1))).
  { unfold withStatus. now rewrite Hent, String.eqb_refl. }
  split.
  { eexists. split; [left; reflexivity|]. rewrite Hself. now split. }
  split.
  { intros e [<-|He] Hsame.
    - now rewrite Hself.
    - apply in_map_iff in He as (x & <- & _). revert Hsame. unfold withStatus.
      rewrite Hent.
      destruct (String.eqb (MassEntry.id x) (MassEntry.id entry)) eqn:E; cbn;
        [reflexivity|].
      intros Hsame. apply String.eqb_neq in E. contradiction. }
  rewrite length_app. cbn. lia.
Qed.

Lemma addEntry_then_sync_witness :
  exists (entry : MassEntry.t) (store' : MassStore.t) (s' : Sys),
    (added <- addEntry (scriptedHost []) (mkPlatform (fun _ => "70.4") (fun _ => "t") (fun _ => NaN))
                (MassStore.mk [] false)
                (MassEntryInput.mk "default" (Finite (704 # 10)) kg None None None) ;;
     stats <- syncPendingEntries (scriptedHost []) (Some "http://api") (Some "token") ;;
     ret (added, stats)) (mkSys (mkWebState [] [] None DEFAULT_SETTINGS) [] 0 0)
    = (Resolved ((entry, store'), SyncStats.mk 1 1 false None []), s')
    /\ syncQueue (web s') = [].
Proof.
  destruct (addEntry_then_sync (scriptedHost []) (Some "http://api") (Some "token")
              "http://api/v1/mass"
              (mkPlatform (fun _ => "70.4") (fun _ => "t") (fun _ => NaN))
              (MassStore.mk [] false)
              (MassEntryInput.mk "default" (Finite (704 # 10)) kg None None None)
              (mkSys (mkWebState [] [] None DEFAULT_SETTINGS) [] 0 0) eq_refl eq_refl)
    as (entry & store' & s' & Hrun & _ & Hq & _).
  { intros req. eexists. split; reflexivity. }
  exists entry, store', s'. now split.
Defined.

(** X18. After [markEntryStatus] the store's copy and the persisted entries
    agree on every id and status, but only the persisted record of the
    marked entry gets a fresh [updatedAt]: the store's copy keeps the old
    one, and entries with another id are identical in both. *)
Theorem markEntryStatus_copies :
  forall (host : Host) (store : MassStore.t) (id : string) (status : SyncStatus) (s : Sys),
    MassStore.entries store = massEntries (web s) ->
    exists (store' : MassStore.t) (s' : Sys),
      markEntryStatus host store id status s = (Resolved store', s')
      /\ Forall2 (fun copy persisted =>
                    MassEntry.id copy = MassEntry.id persisted
                    /\ MassEntry.status copy = MassEntry.status persisted
                    /\ (MassEntry.id copy = id ->
                        MassEntry.status persisted = status
                        /\ MassEntry.updatedAt persisted = clockAt host (clockReads s))
                    /\ (MassEntry.id copy <> id -> copy = persisted))
                 (MassStore.entries store') (massEntries (web s'))
      /\ map MassEntry.updatedAt (MassStore.entries store')
         = map MassEntry.updatedAt (MassStore.entries store).
Proof.
  intros host [entries hydrated] id status s Hsame. cbn in Hsame. subst entries.
  eexists; eexists. split; [reflexivity|]. cbn. split.
  - induction (massEntries (web s)) as [|e l IH]; cbn; constructor; auto.
    unfold withStatus.
    destruct (String.eqb_spec (MassEntry.id e) id) as [Heq|Hneq]; cbn;
      repeat split; auto; intros; congruence.
  - rewrite map_map. apply map_ext. intros e. now destruct (String.eqb _ _).
Qed.

Lemma markEntryStatus_copies_witness :
  exists (store' : MassStore.t) (s' : Sys),
    markEntryStatus (scriptedHost []) (MassStore.mk (massEntries (web scenarioC)) true)
                    "e1" failed scenarioC
    = (Resolved store', s')
    /\ map MassEntry.updatedAt (MassStore.entries store') = [1%Z; 1%Z]
    /\ map MassEntry.updatedAt (massEntries (web s')) = [1%Z; 1000%Z].
Proof.
  destruct (markEntryStatus_copies (scriptedHost [])
              (MassStore.mk (massEntries (web scenarioC)) true) "e1" failed scenarioC eq_refl)
    as (store' & s' & Hrun & _ & Hu).
  exists store', s'. split; [exact Hrun|]. split; [exact Hu|].
  injection Hrun as _ <-. reflexivity.
Defined.

(** X19. An entry just created is returned by [listMassEntries] for its
    profile as long as that profile had fewer entries than the limit. *)
Theorem created_entry_is_listed :
  forall (host : Host) (input : MassEntryInput.t) (limit : nat) (s : Sys),
    List.length (filter (ofProfile (Some (MassEntryInput.profileId input)))
                        (massEntries (web s))) < limit ->
    exists (entry : MassEntry.t) (s' : Sys) (items : list MassEntry.t),
      createMassEntry host input s = (Resolved entry, s')
      /\ listMassEntries (Some (MassEntryInput.profileId input)) limit s'
         = (Resolved items, s')
      /\ In entry items.
Proof.
  intros host input limit s Hroom.
  eexists; eexists; eexists. split; [cbn; reflexivity|].
  split; [apply listMassEntries_run|].
  cbn [web massEntries filter].
  assert (Hmine : ofProfile (Some (MassEntryInput.profileId input))
                    (MassEntry.mk (idAt host (idsDrawn s)) (MassEntryInput.profileId input)
                       (MassEntryInput.mass input) (MassEntryInput.unit input)
                       (MassEntryInput.note input)
                       (Some match MassEntryInput.tags input with
                             | Some l => l | None => [] end)
                       match MassEntryInput.loggedAt input with
                       | Some t => t | None => clockAt host (clockReads s) end
                       pending (clockAt host (clockReads s)) (clockAt host (clockReads s)))
                  = true).
  { unfold ofProfile. cbn. destruct (truthy _); [apply String.eqb_refl|reflexivity]. }
  rewrite Hmine. rewrite firstn_all2.
  - apply (Permutation_in _ (Permutation_sym (sortEntriesDesc_perm _))). now left.
  - rewrite (Permutation_length (sortEntriesDesc_perm _)). cbn [List.length]. lia.
Qed.

Lemma created_entry_is_listed_witness :
  exists (entry : MassEntry.t) (s' : Sys) (items : list MassEntry.t),
    createMassEntry (scriptedHost [])
      (MassEntryInput.mk "default" (Finite (704 # 10)) kg None None None) scenarioC
    = (Resolved entry, s')
    /\ listMassEntries (Some "default") 200 s' = (Resolved items, s')
    /\ In entry items.
Proof.
  apply (created_entry_is_listed (scriptedHost [])
           (MassEntryInput.mk "default" (Finite (704 # 10)) kg None None None) 200 scenarioC).
  cbn. lia.
Defined.

(* ===================================================================== *)
(** ** Further properties: screens *)
(* ===================================================================== *)

(** A run either is skipped, leaving everything as it was, or resolves to
    statistics that are not marked skipped. *)
Lemma sync_result_cases (host : Host) (raw token : option string) (s : Sys) :
  (SYNC_ENDPOINT raw = None
   /\ syncPendingEntries host raw token s
      = (Resolved (SyncStats.mk 0 0 true (Some "SYNC_ENDPOINT not configured") []), s))
  \/ (exists (ep : string) (stats : SyncStats.t) (s1 : Sys),
         SYNC_ENDPOINT raw = Some ep
         /\ syncPendingEntries host raw token s = (Resolved stats, s1)
         /\ SyncStats.skipped stats = false
         /\ SyncStats.attempted stats
            = List.length (firstn 25 (sortMutationsAsc (syncQueue (web s))))
         /\ settings (web s1) = settings (web s)
         /\ (syncQueue (web s) = [] -> s1 = s)).
Proof.
  destruct (SYNC_ENDPOINT_cases raw) as [[Hnone Hfalsy]|(ep & Hep & _)].
  - left. split; [exact Hnone|]. unfold syncPendingEntries. now rewrite Hfalsy.
  - right. exists ep. eexists; eexists. split; [exact Hep|].
    split; [apply (syncPendingEntries_run host raw token ep s Hep)|].
    cbn [SyncStats.skipped SyncStats.attempted].
    split; [reflexivity|]. split; [reflexivity|]. split.
    + apply (run_frame host raw token _ (mkSyncLocals 0 [], s)).
    + intros Hempty. now rewrite Hempty.
Qed.

(** X20. [handleSyncNow] never rejects and always leaves [isSyncing] off.
    Without an access token it runs no sync: its only effects are those of
    [login]. With a token and no endpoint it reports the skip and changes
    nothing. With a token and an endpoint it reports the run's counts and
    stamps [lastSync] with the time read after the run. *)
Theorem handleSyncNow_paths :
  forall (host : Host) (raw : option string) (platform : Platform) (login : Async unit)
         (accessToken : option string) (current : AppSettings.t) (s : Sys),
    exists (panel : SyncPanel) (stored : AppSettings.t) (s' : Sys),
      handleSyncNow host raw platform login accessToken current s
      = (Resolved (panel, stored), s')
      /\ isSyncing panel = false
      /\ (falsy accessToken = true ->
          s' = snd (login s) /\ stored = current
          /\ syncMessage panel
             = Some match fst (login s) with
                    | Resolved _ => "Please log in to sync."
                    | Rejected e => ("Sync failed: " ++ messageOr "Unknown error" e)%string
                    end)
      /\ (falsy accessToken = false -> SYNC_ENDPOINT raw = None ->
          s' = s /\ stored = current
          /\ syncMessage panel = Some "Sync skipped: SYNC_ENDPOINT not configured")
      /\ (falsy accessToken = false ->
          forall ep, SYNC_ENDPOINT raw = Some ep ->
          exists (stats : SyncStats.t) (s1 : Sys),
            syncPendingEntries host raw accessToken s = (Resolved stats, s1)
            /\ syncMessage panel = Some (syncedText stats)
            /\ AppSettings.lastSync stored
               = Some (isoText platform (clockAt host (clockReads s1)))
            /\ settings (web s') = stored).
Proof.
  intros host raw platform login accessToken current s.
  unfold handleSyncNow. unfold bind at 1. unfold tryCatch.
  destruct (falsy accessToken) eqn:Htoken.
  - unfold bind at 1. destruct (login s) as [[[]|e] s1] eqn:Hlogin.
    + eexists; eexists; eexists. split; [reflexivity|]. cbn.
      repeat split; try discriminate.
    + eexists; eexists; eexists. split; [reflexivity|]. cbn.
      repeat split; try discriminate.
  - unfold bind at 1.
    destruct (sync_result_cases host raw accessToken s)
      as [[Hnone Hrun]|(ep & stats & s1 & Hep & Hrun & Hskip & _)].
    + rewrite Hrun. cbn [SyncStats.skipped SyncStats.reason].
      eexists; eexists; eexists. split; [reflexivity|]. cbn.
      repeat split; try discriminate. intros _ ep Hep. congruence.
    + rewrite Hrun, Hskip.
      eexists; eexists; eexists. split; [cbn; reflexivity|]. cbn.
      split; [reflexivity|]. split; [discriminate|]. split; [intros _; congruence|].
      intros _ ep' _. exists stats, s1. repeat split.
      destruct (AppSettings.reminderHour current); reflexivity.
Qed.

(** X21. [handleDashboardSync] never rejects and always leaves the card's
    [isSyncing] off; it syncs with or without a token; a skipped run and a
    run over an empty queue change nothing - the latter still reports
    "Synced 0/0 changes" - and [lastSync] is stamped only when at least one
    intent was attempted. *)
Theorem handleDashboardSync_paths :
  forall (host : Host) (raw : option string) (platform : Platform)
         (accessToken : option string) (current : AppSettings.t) (s : Sys),
    exists (panel : SyncPanel) (stored : AppSettings.t) (s' : Sys),
      handleDashboardSync host raw platform accessToken current s
      = (Resolved (panel, stored), s')
      /\ isSyncing panel = false
      /\ (SYNC_ENDPOINT raw = None ->
          s' = s /\ stored = current
          /\ syncMessage panel = Some "Sync skipped: SYNC_ENDPOINT not configured")
      /\ (forall ep, SYNC_ENDPOINT raw = Some ep ->
          exists (stats : SyncStats.t) (s1 : Sys),
            syncPendingEntries host raw accessToken s = (Resolved stats, s1)
            /\ syncMessage panel = Some (syncedText stats)
            /\ (SyncStats.attempted stats = 0 -> s' = s1 /\ stored = current)
            /\ (0 < SyncStats.attempted stats ->
                AppSettings.lastSync stored
                = Some (isoText platform (clockAt host (clockReads s1)))
                /\ settings (web s') = stored)
            /\ (syncQueue (web s) = [] -> s' = s /\ stored = current
                                          /\ SyncStats.attempted stats = 0)).
Proof.
  intros host raw platform accessToken current s.
  unfold handleDashboardSync. unfold bind at 1. unfold tryCatch. unfold bind at 1.
  destruct (sync_result_cases host raw accessToken s)
    as [[Hnone Hrun]|(ep & stats & s1 & Hep & Hrun & Hskip & Hatt & _ & Hempty)].
  - rewrite Hrun. cbn [SyncStats.skipped SyncStats.reason].
    eexists; eexists; eexists. split; [reflexivity|]. cbn.
    repeat split. intros ep Hep. congruence.
  - rewrite Hrun, Hskip.
    destruct (SyncStats.attempted stats) as [|n] eqn:Hn.
    + cbn [Nat.ltb Nat.leb]. eexists; eexists; eexists. split; [reflexivity|]. cbn.
      split; [reflexivity|]. split; [intros; congruence|].
      intros ep' _. exists stats, s1. split; [reflexivity|].
      unfold syncedText. rewrite Hn. repeat split; try lia.
      * now apply Hempty.
    + cbn [Nat.ltb Nat.leb]. eexists; eexists; eexists. split; [cbn; reflexivity|]. cbn.
      split; [reflexivity|]. split; [intros; congruence|].
      intros ep' _. exists stats, s1. split; [reflexivity|].
      unfold syncedText. rewrite Hn. split; [reflexivity|].
      split; [discriminate|]. split.
      * intros _. split; [reflexivity|].
        destruct (AppSettings.reminderHour current); reflexivity.
      * intros Hq. exfalso. rewrite Hq in Hatt. cbn in Hatt. congruence.
Qed.

Lemma mergeSettings_idempotent (value : PartialSettings.t) :
  mergeSettings (PartialSettings.ofSettings (mergeSettings value)) = mergeSettings value.
Proof.
  destruct value as [a r [h|] l n]; unfold mergeSettings; cbn;
    [destruct h; reflexivity|reflexivity].
Qed.

Lemma saveAppSettings_run (input : AppSettings.t) (s : Sys) :
  saveAppSettings input s
  = (Resolved (mergeSettings (PartialSettings.ofSettings input)),
     mkSys (mkWebState (massEntries (web s)) (syncQueue (web s)) (profile (web s))
                       (mergeSettings (PartialSettings.ofSettings input)))
           (sent s) (clockReads s) (idsDrawn s)).
Proof.
  unfold saveAppSettings, applyWebSettings, bind, getWebState, setWebState, ret.
  cbn. now rewrite mergeSettings_idempotent.
Qed.

(** X22. Toggling auto-sync stores the new flag and nothing else of the
    settings. Switching it off, or on without a token, sends nothing and
    leaves the seed card alone; switching it on with a token seeds every
    entry of the store - one POST each - when an endpoint is configured,
    and otherwise only reports that it is not. *)
Theorem handleAutoSyncToggle_paths :
  forall (host : Host) (raw : option string) (platform : Platform) (value : bool)
         (accessToken : option string) (current : AppSettings.t)
         (entries : list MassEntry.t) (panel : SeedPanel) (s : Sys),
    exists (stored : AppSettings.t) (panel' : SeedPanel) (s' : Sys),
      handleAutoSyncToggle host raw platform value accessToken current entries panel s
      = (Resolved (stored, panel'), s')
      /\ settings (web s') = stored
      /\ AppSettings.autoSync stored = value
      /\ AppSettings.remindersEnabled stored = AppSettings.remindersEnabled current
      /\ AppSettings.lastSync stored = AppSettings.lastSync current
      /\ massEntries (web s') = massEntries (web s)
      /\ syncQueue (web s') = syncQueue (web s)
      /\ ((value && negb (falsy accessToken))%bool = false ->
          sent s' = sent s /\ panel' = panel)
      /\ ((value && negb (falsy accessToken))%bool = true ->
          match SYNC_ENDPOINT raw with
          | Some ep =>
              sent s' = sent s ++ map (seedRequest platform ep accessToken) entries
              /\ panel' = mkSeedPanel (Some "Remote entries seeded successfully.") false
          | None =>
              sent s' = sent s
              /\ panel' = mkSeedPanel (Some "SYNC_ENDPOINT is not configured") false
          end).
Proof.
  intros host raw platform value accessToken current entries panel s.
  unfold handleAutoSyncToggle. unfold bind at 1.
  unfold SettingsStore.update. rewrite saveAppSettings_run.
  set (stored := mergeSettings _).
  set (s1 := mkSys _ _ _ _).
  assert (Hstored : AppSettings.autoSync stored = value
                    /\ AppSettings.remindersEnabled stored
                       = AppSettings.remindersEnabled current
                    /\ AppSettings.lastSync stored = AppSettings.lastSync current).
  { subst stored. unfold mergeSettings, spreadSettings. cbn.
    repeat split; now destruct (AppSettings.lastSync current). }
  destruct Hstored as (Hauto & Hrem & Hlast).
  destruct (value && negb (falsy accessToken))%bool eqn:Hgo.
  - apply andb_true_iff in Hgo as [_ Htoken]. apply negb_true_iff in Htoken.
    unfold bind at 1. unfold handleManualSeed. rewrite Htoken.
    unfold bind at 1. unfold tryCatch. unfold bind at 1.
    rewrite seedEntries_run, Htoken.
    destruct (SYNC_ENDPOINT raw) as [ep|].
    + exists stored. eexists. eexists. split; [reflexivity|].
      subst s1. cbn [web settings massEntries syncQueue sent].
      do 6 (split; [assumption || reflexivity|]).
      split; [discriminate|]. intros _. split; reflexivity.
    + exists stored. eexists. eexists. split; [reflexivity|].
      subst s1. cbn [web settings massEntries syncQueue sent].
      do 6 (split; [assumption || reflexivity|]).
      split; [discriminate|]. intros _. split; reflexivity.
  - exists stored, panel, s1. split; [reflexivity|].
    subst s1. cbn [web settings massEntries syncQueue sent].
    do 6 (split; [assumption || reflexivity|]).
    split; [intros _; now split|discriminate].
Qed.


(** X24. [handleSave] saves nothing when the name is blank. Otherwise the
    stored profile - the one the profile store then holds - has the trimmed,
    non-empty name, the trimmed e-mail and bio (an empty field is stored as
    the empty text), a goal that is never [NaN], and the form reports
    "Profile saved locally." with [saving] off. *)
Theorem handleSave_paths :
  forall (host : Host) (platform : Platform) (form : ProfileForm.t)
         (store : ProfileStore.t) (s : Sys),
    exists (form' : ProfileForm.t) (store' : ProfileStore.t) (s' : Sys),
      handleSave host platform form store s = (Resolved (form', store'), s')
      /\ (truthy (trim (ProfileForm.fullName form)) = false ->
          s' = s /\ store' = store /\ form' = form)
      /\ (truthy (trim (ProfileForm.fullName form)) = true ->
          exists saved : UserProfile.t,
            profile (web s') = Some saved
            /\ ProfileStore.profile store' = Some saved
            /\ UserProfile.fullName saved = trim (ProfileForm.fullName form)
            /\ truthy (UserProfile.fullName saved) = true
            /\ UserProfile.email saved = Some (trim (ProfileForm.email form))
            /\ UserProfile.bio saved = Some (trim (ProfileForm.bio form))
            /\ UserProfile.unitPreference saved = ProfileForm.unitPreference form
            /\ match UserProfile.goalMass saved with
               | Some g => Number_isNaN g = false
                           /\ truthy (trim (ProfileForm.goalMass form)) = true
                           /\ g = Number_parseFloat platform (ProfileForm.goalMass form)
               | None => True
               end
            /\ ProfileForm.statusMessage form' = Some "Profile saved locally."
            /\ ProfileForm.saving form' = false).
Proof.
  intros host platform form store s. unfold handleSave.
  destruct (truthy (trim (ProfileForm.fullName form))) eqn:Hname; cbn [negb].
  - destruct s as [[entries queue [existing|] stored] out reads ids];
      (eexists; eexists; eexists; split; [cbn; reflexivity|];
       split; [discriminate|]; intros _; eexists; cbn;
       split; [reflexivity|]; split; [reflexivity|]; split; [reflexivity|];
       split; [exact Hname|]; split; [reflexivity|]; split; [reflexivity|];
       split; [reflexivity|]; split; [|split; reflexivity];
       destruct (truthy (trim (ProfileForm.goalMass form))); [|exact I];
       destruct (Number_isNaN (Number_parseFloat platform (ProfileForm.goalMass form)))
         eqn:E; cbn; rewrite ?E; cbn; auto).
  - eexists; eexists; eexists. split; [reflexivity|].
    split; [repeat split|discriminate].
Qed.

(* ===================================================================== *)
(** ** Further properties: reminders, stored blob, scheduler *)
(* ===================================================================== *)

Lemma lt_Finite_false (x y : Q) : JS.lt (Finite x) (Finite y) = false -> (y <= x)%Q.
Proof.
  unfold JS.lt, Qltb. intros H. apply negb_false_iff in H. now apply Qle_bool_iff.
Qed.

Lemma lt_Finite_true (x y : Q) : JS.lt (Finite x) (Finite y) = true -> ~ (y <= x)%Q.
Proof.
  unfold JS.lt, Qltb. intros H Hle. apply negb_true_iff in H.
  apply Qle_bool_iff in Hle. congruence.
Qed.

(** X25. Whatever number it is given - fractional, out of range, infinite
    or [NaN] - [normalizeHour] returns a whole hour between 0 and 23; a
    whole hour in that range is returned as it is, anything outside it
    becomes 7; so the trigger built for any stored hour is a valid daily
    time. *)
Theorem normalizeHour_range :
  (forall hour : number, hourInRange (normalizeHour hour))
  /\ (forall z : Z, (0 <= z <= 23)%Z -> normalizeHour (ofZ z) = ofZ z)
  /\ (forall hour : number,
         (Number_isNaN hour || JS.lt hour (ofZ 0) || JS.gt hour (ofZ 23))%bool = true ->
         normalizeHour hour = ofZ 7)
  /\ (forall hour : number,
         hourInRange (NotificationTrigger.hour (buildTrigger hour))
         /\ NotificationTrigger.minute (buildTrigger hour) = ofZ 0
         /\ NotificationTrigger.repeats (buildTrigger hour) = true).
Proof.
  assert (Hrange : forall hour : number, hourInRange (normalizeHour hour)).
  { intros hour. unfold normalizeHour.
    destruct (Number_isNaN hour || JS.lt hour (ofZ 0) || JS.gt hour (ofZ 23))%bool eqn:E.
    - exists 7%Z. split; [reflexivity|lia].
    - apply orb_false_iff in E as [E Hgt]. apply orb_false_iff in E as [Hnan Hlt].
      destruct hour as [q| | |]; try discriminate.
      unfold JS.gt, ofZ in *. apply lt_Finite_false in Hlt, Hgt.
      exists (Qfloor q). split; [reflexivity|]. split.
      + change 0%Z with (Qfloor (inject_Z 0)). now apply Qfloor_resp_le.
      + change 23%Z with (Qfloor (inject_Z 23)). now apply Qfloor_resp_le. }
  split; [exact Hrange|]. split; [|split].
  - intros z Hz. unfold normalizeHour.
    replace (Number_isNaN (ofZ z) || JS.lt (ofZ z) (ofZ 0) || JS.gt (ofZ z) (ofZ 23))%bool
      with false.
    + unfold Math_floor, ofZ. now rewrite Qfloor_Z.
    + symmetry. unfold JS.gt, JS.lt, ofZ, Qltb. cbn [Number_isNaN orb].
      apply orb_false_iff. split; apply negb_false_iff, Qle_bool_iff;
        rewrite <- Zle_Qle; lia.
  - intros hour H. unfold normalizeHour. now rewrite H.
  - intros hour. cbn. repeat split. apply Hrange.
Qed.

Lemma mergeSettings_hour_finite (value : PartialSettings.t) :
  exists h : Q, AppSettings.reminderHour (mergeSettings value) = Finite h.
Proof.
  unfold mergeSettings. cbn.
  destruct (PartialSettings.reminderHour value) as [[h| | |]|]; cbn; eauto.
Qed.

Lemma clamp_finite (h : Q) :
  exists q : Q,
    clamp (Finite h) (ofZ 0) (ofZ 23) = Finite q
    /\ (0 <= q)%Q /\ (q <= 23)%Q
    /\ ((0 <= h)%Q -> (h <= 23)%Q -> (q == h)%Q).
Proof.
  unfold clamp, Math_max, Math_min, ofZ. cbn [Number_isNaN orb].
  destruct (JS.lt (Finite (inject_Z 0)) (Finite h)) eqn:Hlow; cbn [Number_isNaN orb].
  - apply lt_Finite_true, Qnot_le_lt, Qlt_le_weak in Hlow.
    destruct (JS.lt (Finite h) (Finite (inject_Z 23))) eqn:Hhigh.
    + apply lt_Finite_true, Qnot_le_lt, Qlt_le_weak in Hhigh.
      exists h. split; [reflexivity|]. split; [assumption|]. split; [assumption|].
      intros _ _. reflexivity.
    + apply lt_Finite_false in Hhigh.
      exists (inject_Z 23). split; [reflexivity|].
      split; [now apply Qle_bool_iff|]. split; [apply Qle_refl|].
      intros _ Hle. now apply Qle_antisym.
  - apply lt_Finite_false in Hlow.
    exists (inject_Z 0). split; [reflexivity|].
    split; [apply Qle_refl|]. split; [now apply Qle_bool_iff|].
    intros Hge _. now apply Qle_antisym.
Qed.

Lemma lt_Finite_iff (x y : Q) : JS.lt (Finite x) (Finite y) = true <-> (x < y)%Q.
Proof.
  split.
  - intros H. apply Qnot_le_lt. now apply lt_Finite_true.
  - intros H. destruct (JS.lt (Finite x) (Finite y)) eqn:E; [reflexivity|].
    apply lt_Finite_false in E. exfalso. now apply (Qlt_not_le x y).
Qed.

(** X26. How a stored reminder hour is shown and scheduled. Whatever
    record is handed to [saveAppSettings], the hour it stores is finite;
    the home screen's [clamp] of it lies between 0 and 23 and is the stored
    hour when that is in range, in which case the trigger fires at its
    whole part. For a stored hour above 23 the screen shows 23 while the
    trigger fires at 7; for one below 0 the screen shows 0 while the
    trigger fires at 7. *)
Theorem stored_hour_shown_and_scheduled :
  forall (input : AppSettings.t) (s : Sys),
    exists (saved : AppSettings.t) (s' : Sys) (h q : Q),
      saveAppSettings input s = (Resolved saved, s')
      /\ settings (web s') = saved
      /\ AppSettings.reminderHour saved = Finite h
      /\ clamp (Finite h) (ofZ 0) (ofZ 23) = Finite q
      /\ (0 <= q)%Q /\ (q <= 23)%Q
      /\ ((0 <= h)%Q -> (h <= 23)%Q ->
          (q == h)%Q
          /\ NotificationTrigger.hour (buildTrigger (Finite h)) = ofZ (Qfloor h))
      /\ ((23 < h)%Q ->
          clamp (Finite h) (ofZ 0) (ofZ 23) = ofZ 23
          /\ NotificationTrigger.hour (buildTrigger (Finite h)) = ofZ 7)
      /\ ((h < 0)%Q ->
          clamp (Finite h) (ofZ 0) (ofZ 23) = ofZ 0
          /\ NotificationTrigger.hour (buildTrigger (Finite h)) = ofZ 7).
Proof.
  intros input s. rewrite saveAppSettings_run.
  destruct (mergeSettings_hour_finite (PartialSettings.ofSettings input)) as [h Hh].
  destruct (clamp_finite h) as (q & Hq & Hlow & Hhigh & Hsame).
  eexists; eexists; exists h, q. split; [reflexivity|]. cbn [web settings].
  split; [reflexivity|]. split; [exact Hh|]. split; [exact Hq|].
  split; [exact Hlow|]. split; [exact Hhigh|]. split; [|split].
  - intros H0 H23. split; [now apply Hsame|].
    cbn [buildTrigger NotificationTrigger.hour]. unfold normalizeHour, JS.gt.
    cbn [Number_isNaN orb].
    replace (JS.lt (Finite h) (ofZ 0)) with false.
    + replace (JS.lt (ofZ 23) (Finite h)) with false; [reflexivity|].
      symmetry. apply not_true_is_false. intros H. apply lt_Finite_iff in H.
      now apply (Qlt_not_le _ _ H).
    + symmetry. apply not_true_is_false. intros H. apply lt_Finite_iff in H.
      now apply (Qlt_not_le _ _ H).
  - intros Hover. split.
    + unfold clamp, Math_max, Math_min, ofZ. cbn [Number_isNaN orb].
      replace (JS.lt (Finite (inject_Z 0)) (Finite h)) with true.
      * cbn [Number_isNaN orb].
        replace (JS.lt (Finite h) (Finite (inject_Z 23))) with false; [reflexivity|].
        symmetry. apply not_true_is_false. intros H. apply lt_Finite_iff in H.
        apply (Qlt_not_le _ _ H). now apply Qlt_le_weak.
      * symmetry. apply lt_Finite_iff. now apply Qlt_trans with (y := inject_Z 23).
    + cbn [buildTrigger NotificationTrigger.hour]. unfold normalizeHour, JS.gt.
      replace (JS.lt (ofZ 23) (Finite h)) with true; [now rewrite orb_true_r|].
      symmetry. now apply lt_Finite_iff.
  - intros Hunder. split.
    + unfold clamp, Math_max, Math_min, ofZ. cbn [Number_isNaN orb].
      replace (JS.lt (Finite (inject_Z 0)) (Finite h)) with false; [reflexivity|].
      symmetry. apply not_true_is_false. intros H. apply lt_Finite_iff in H.
      apply (Qlt_not_le _ _ H). now apply Qlt_le_weak.
    + cbn [buildTrigger NotificationTrigger.hour]. unfold normalizeHour.
      replace (JS.lt (Finite h) (ofZ 0)) with true; [reflexivity|].
      symmetry. now apply lt_Finite_iff.
Qed.

Lemma orElse_not_null (value : option Wide.json) (fallback : Wide.json) :
  fallback <> Wide.JNull -> orElse value fallback <> Wide.JNull.
Proof.
  intros Hf. destruct value as [[]|]; cbn; try assumption; discriminate.
Qed.

(** A stored state whose one entry has the note [\ud83d], written as an
    escape, is read with that entry:
    [{"massEntries":[{"note":"\ud83d"}]}]. *)
Example readWebState_escaped_note :
  rawMassEntries
    (readWebState
       (Some ([123; 34] ++ Wide.ofString "massEntries"
              ++ [34; 58; 91; 123; 34] ++ Wide.ofString "note"
              ++ [34; 58; 34; 92] ++ Wide.ofString "ud83d"
              ++ [34; 125; 93; 125])%N))
  = Wide.JArr [Wide.JObj [(Wide.ofString "note", Wide.JStr [55357%N])]].
Proof. reflexivity. Qed.

(** X27. Whatever the browser storage holds - nothing, an empty text, text
    that is not JSON, JSON that is no object, or an object with parts
    missing or null - [readWebState] returns a state whose entry list and
    queue are not null and whose settings are not null; text that does not
    parse gives the empty base state. *)
Theorem readWebState_defaults :
  (forall stored : option Wide.text,
      rawMassEntries (readWebState stored) <> Wide.JNull
      /\ rawSyncQueue (readWebState stored) <> Wide.JNull
      /\ rawSettings (readWebState stored) <> Some Wide.JNull)
  /\ (forall raw : Wide.text,
         Wide.JSON_parse raw = None -> readWebState (Some raw) = baseRawState).
Proof.
  split.
  - intros [raw|]; [|cbn; repeat split; discriminate].
    unfold readWebState.
    destruct (negb (Wide.truthy raw)); [cbn; repeat split; discriminate|].
    destruct (Wide.JSON_parse raw) as [[]|]; try (cbn; repeat split; discriminate).
    cbn [rawMassEntries rawSyncQueue rawSettings].
    split; [apply orElse_not_null; discriminate|].
    split; [apply orElse_not_null; discriminate|].
    destruct (member (Wide.ofString "settings") _) as [[]|]; discriminate.
  - intros raw Hparse. unfold readWebState. rewrite Hparse.
    now destruct (negb (Wide.truthy raw)).
Qed.

(** A background run never rejects: it is the sync run with its outcome
    dropped. *)
Lemma runSync_run (host : Host) (raw : option string) (s : Sys) :
  OfflineSync.runSync host raw s
  = (Resolved tt, snd (syncPendingEntries host raw None s)).
Proof.
  unfold OfflineSync.runSync, tryCatch, bind, ret.
  destruct (sync_result_cases host raw None s)
    as [[_ Hrun]|(ep & stats & s1 & _ & Hrun & _)]; now rewrite Hrun.
Qed.

(** Once the hook holds nothing, events other than an enabled start leave
    it and the system as they are. *)
Lemma offlineSync_quiet (host : Host) (raw : option string)
  (events : list OfflineSync.event) (s : Sys) :
  forallb (fun e => negb (startsEnabled e)) events = true ->
  offlineSyncRun host raw events OfflineSync.initial s
  = (Resolved OfflineSync.initial, s).
Proof.
  unfold offlineSyncRun. induction events as [|e rest IH]; intros Hq; [reflexivity|].
  cbn [forallb] in Hq. apply andb_true_iff in Hq as [He Hrest].
  cbn [forOf]. unfold bind.
  assert (Hstep : OfflineSync.step host raw e OfflineSync.initial s
                  = (Resolved OfflineSync.initial, s)).
  { destruct e as [options| | | |]; cbn in He |- *; try reflexivity.
    apply negb_true_iff in He. now rewrite He. }
  rewrite Hstep. now apply IH.
Qed.

(** X28. When the first run of an enabled hook completes and its cleanup
    follows, nothing the timer, the network listener or a disabled restart
    does afterwards runs a sync: the system stays as that one first run
    left it, and the hook holds no listener and no timer. *)
Theorem offlineSync_orderly_lifetime (host : Host) (raw : option string)
  (options : OfflineSync.Options) (events : list OfflineSync.event) (s : Sys) :
  OfflineSync.enabled options = true ->
  forallb (fun e => negb (startsEnabled e)) events = true ->
  offlineSyncRun host raw
    (OfflineSync.Mount options :: OfflineSync.FirstRunDone :: OfflineSync.Unmount :: events)
    OfflineSync.initial s
  = (Resolved OfflineSync.initial, afterRuns host raw 1 s).
Proof.
  intros Hon Hq. unfold offlineSyncRun. cbn [forOf OfflineSync.step]. rewrite Hon.
  cbn [negb]. unfold bind at 1. unfold ret at 1.
  unfold bind at 1. cbn [OfflineSync.settingUp]. unfold bind at 1.
  rewrite runSync_run. unfold ret at 1. unfold bind at 1. unfold ret at 1.
  cbn [OfflineSync.isMounted OfflineSync.settingUp].
  apply (offlineSync_quiet host raw events). exact Hq.
Qed.

Lemma offlineSync_orderly_lifetime_witness :
  offlineSyncRun (scriptedHost [500; 200]) (Some "http://api/")
    [OfflineSync.Mount OfflineSync.defaultOptions; OfflineSync.FirstRunDone;
     OfflineSync.Unmount; OfflineSync.Tick; OfflineSync.NetworkState true (Some true)]
    OfflineSync.initial scenarioC
  = (Resolved OfflineSync.initial,
     afterRuns (scriptedHost [500; 200]) (Some "http://api/") 1 scenarioC).
Proof.
  apply (offlineSync_orderly_lifetime (scriptedHost [500; 200]) (Some "http://api/")
           OfflineSync.defaultOptions);
    reflexivity.
Defined.

(** A hook that is unmounted but still holds its timer runs a sync at each
    tick and ignores the network listener. *)
Lemma offlineSync_leaked_timer (host : Host) (raw : option string)
  (events : list OfflineSync.event) (s : Sys) :
  forallb isTickOrNetwork events = true ->
  offlineSyncRun host raw events (OfflineSync.mk false true true false) s
  = (Resolved (OfflineSync.mk false true true false),
     afterRuns host raw (List.length (filter isTick events)) s).
Proof.
  unfold offlineSyncRun, afterRuns. revert s.
  induction events as [|e rest IH]; intros s Hev; [reflexivity|].
  cbn [forallb] in Hev. apply andb_true_iff in Hev as [He Hrest].
  destruct e as [options| |connected reachable| |]; try discriminate.
  - cbn [forOf OfflineSync.step OfflineSync.subscription OfflineSync.isMounted negb
         filter isTick].
    unfold bind at 1. unfold ret at 1. now apply IH.
  - cbn [forOf OfflineSync.step OfflineSync.timer filter isTick List.length].
    unfold bind at 1. unfold bind at 1. rewrite runSync_run. unfold ret at 1.
    rewrite IH by exact Hrest. now rewrite Nat.iter_succ_r.
Qed.

(** X29. When the cleanup runs while the first sync is still in flight, the
    timer started after that sync is never cleared: the hook ends
    unmounted yet holding a live timer and listener, and every later tick
    performs another full sync run, while calls of the network listener are
    ignored. With [n] ticks the system has gone through [n + 1] runs. *)
Theorem offlineSync_early_cleanup_leaks_timer (host : Host) (raw : option string)
  (options : OfflineSync.Options) (events : list OfflineSync.event) (s : Sys) :
  OfflineSync.enabled options = true ->
  forallb isTickOrNetwork events = true ->
  offlineSyncRun host raw
    (OfflineSync.Mount options :: OfflineSync.Unmount :: OfflineSync.FirstRunDone :: events)
    OfflineSync.initial s
  = (Resolved (OfflineSync.mk false true true false),
     afterRuns host raw (S (List.length (filter isTick events))) s).
Proof.
  intros Hon Hev. unfold offlineSyncRun. cbn [forOf OfflineSync.step]. rewrite Hon.
  cbn [negb]. unfold bind at 1. unfold ret at 1.
  unfold bind at 1. unfold ret at 1. cbn [OfflineSync.settingUp].
  unfold bind at 1. unfold bind at 1. rewrite runSync_run. unfold ret at 1.
  cbn [OfflineSync.isMounted].
  fold (offlineSyncRun host raw events (OfflineSync.mk false true true false)).
  rewrite offlineSync_leaked_timer by exact Hev.
  unfold afterRuns. now rewrite Nat.iter_succ_r.
Qed.

Lemma offlineSync_early_cleanup_leaks_timer_witness :
  offlineSyncRun (scriptedHost [500; 200]) (Some "http://api/")
    [OfflineSync.Mount OfflineSync.defaultOptions; OfflineSync.Unmount;
     OfflineSync.FirstRunDone; OfflineSync.Tick;
     OfflineSync.NetworkState true (Some true); OfflineSync.Tick]
    OfflineSync.initial scenarioC
  = (Resolved (OfflineSync.mk false true true false),
     afterRuns (scriptedHost [500; 200]) (Some "http://api/") 3 scenarioC).
Proof.
  apply (offlineSync_early_cleanup_leaks_timer (scriptedHost [500; 200])
           (Some "http://api/") OfflineSync.defaultOptions
           [OfflineSync.Tick; OfflineSync.NetworkState true (Some true); OfflineSync.Tick]);
    reflexivity.
Defined.

(** The requests of a run come after those already sent and carry the
    headers built for the run's token. *)
Lemma sync_run_requests (host : Host) (raw token : option string) (s : Sys) :
  exists extra : list Request,
    sent (snd (syncPendingEntries host raw token s)) = sent s ++ extra
    /\ Forall (fun req => headers req = buildHeaders token) extra.
Proof.
  destruct (SYNC_ENDPOINT_cases raw) as [[Hnone Hfalsy]|(ep & Hep & _)].
  - exists []. unfold syncPendingEntries. rewrite Hfalsy. cbn. now rewrite app_nil_r.
  - rewrite (syncPendingEntries_run host raw token ep s Hep). cbn [snd].
    rewrite run_sent. cbn [snd]. eexists. split; [reflexivity|].
    apply Forall_forall. intros req Hreq. apply in_map_iff in Hreq as (m & <- & _).
    reflexivity.
Qed.

(** X30. The hook never rejects, and however it is driven - enabled or
    not, mounted or not - every request it sends goes out without an
    [Authorization] header: background runs are made without the access
    token, whatever the caller holds. *)
Theorem offlineSync_sends_no_token :
  forall (host : Host) (raw : option string) (events : list OfflineSync.event)
         (hook : OfflineSync.t) (s : Sys),
    exists (hook' : OfflineSync.t) (s' : Sys) (extra : list Request),
      offlineSyncRun host raw events hook s = (Resolved hook', s')
      /\ sent s' = sent s ++ extra
      /\ Forall (fun req => headers req = [("Content-Type", "application/json")]) extra.
Proof.
  intros host raw events. unfold offlineSyncRun.
  assert (Hstep : forall e hook s,
             exists hook' s' extra,
               OfflineSync.step host raw e hook s = (Resolved hook', s')
               /\ sent s' = sent s ++ extra
               /\ Forall (fun req => headers req = [("Content-Type", "application/json")])
                         extra).
  { assert (Hstay : forall (hook : OfflineSync.t) (s : Sys),
               exists hook' s' extra,
                 ret hook s = (Resolved hook', s')
                 /\ sent s' = sent s ++ extra
                 /\ Forall (fun req => headers req
                                       = [("Content-Type", "application/json")]) extra).
    { intros hook s. exists hook, s, []. rewrite app_nil_r. now repeat split. }
    assert (Hrun : forall (hook : OfflineSync.t) (s : Sys),
               exists hook' s' extra,
                 (OfflineSync.runSync host raw ;;; ret hook) s = (Resolved hook', s')
                 /\ sent s' = sent s ++ extra
                 /\ Forall (fun req => headers req
                                       = [("Content-Type", "application/json")]) extra).
    { intros hook s. unfold bind. rewrite runSync_run.
      destruct (sync_run_requests host raw None s) as (extra & Hsent & Hall).
      exists hook. eexists. exists extra. split; [reflexivity|]. now split. }
    intros e hook s. destruct e as [options| |connected reachable| |];
      cbn [OfflineSync.step].
    - destruct (negb (OfflineSync.enabled options)); apply Hstay.
    - destruct (OfflineSync.settingUp hook); [apply Hrun|apply Hstay].
    - destruct (OfflineSync.subscription hook); [|apply Hstay].
      destruct (negb (OfflineSync.isMounted hook)); [apply Hstay|].
      destruct (connected && _)%bool; [apply Hrun|apply Hstay].
    - destruct (OfflineSync.timer hook); [apply Hrun|apply Hstay].
    - apply Hstay. }
  induction events as [|e rest IH]; intros hook s.
  - exists hook, s, []. rewrite app_nil_r. now repeat split.
  - destruct (Hstep e hook s) as (hook1 & s1 & extra1 & Hrun1 & Hsent1 & Hall1).
    destruct (IH hook1 s1) as (hook2 & s2 & extra2 & Hrun2 & Hsent2 & Hall2).
    exists hook2, s2, (extra1 ++ extra2). cbn [forOf]. unfold bind. rewrite Hrun1.
    split; [exact Hrun2|]. split.
    + now rewrite Hsent2, Hsent1, app_assoc.
    + now apply Forall_app.
Qed.
